(** * auto-editor: audio reconstruction, the timeline and FCP7 files

    A shallow embedding of
      - [fastAudio]                 (auto_editor/fastAudio.py),
      - [Timeline.end], [Timeline.out_len] and the [--source] and [--add]
        arguments of [make_timeline] (auto_editor/timeline.py),
      - [set_tb_ntsc]/[read_tb_ntsc], [uri_to_path], [speedup]/
        [read_filters], the track loops of [fcp7_read_xml] and the file
        ids of [fcp7_write_xml]     (auto_editor/formats/fcp7.py),
    together with the properties of these functions.

    Python numbers are modelled as they are at run time: [int] is [Z],
    [float] is IEEE-754 binary64 ([spec_float] at precision 53 and maximal
    exponent 1024, every operation rounding to nearest-even), [Fraction]
    is a normalised rational.  The code is written over the interface
    [PyNum] of the float operations it uses; [binary64] is the instance
    Python runs.  Exceptions are values of [exn]; code that can raise
    returns a [result]. *)

From Stdlib Require Import ZArith List Lia Bool Ascii String QArith Qround Lqa
  Qpower.
From Stdlib Require Import Floats.SpecFloat.
Import ListNotations.
Local Open Scope Z_scope.

(** ** Exceptions and results *)

Inductive exn : Type :=
| ZeroDivisionError
| OverflowError
| ValueError
| IndexError
| NameError
| TypeError
| Fatal (msg : string)      (* log.error: report and stop the run *)
| ProcessorError.           (* anything raised inside the time-stretch library *)

Inductive result (A : Type) : Type :=
| Ok (a : A)
| Raise (e : exn).
Arguments Ok {A} a.
Arguments Raise {A} e.

Definition rbind {A B} (r : result A) (k : A -> result B) : result B :=
  match r with
  | Ok a => k a
  | Raise e => Raise e
  end.

Declare Scope result_scope.
Delimit Scope result_scope with res.
Notation "x <- r ;; k" := (rbind r (fun x => k))
  (at level 61, r at next level, right associativity) : result_scope.

(** ** The float operations the code uses *)

Class PyNum (F : Type) : Type := {
  of_int : Z -> result F;        (* float(n), implicit in mixed arithmetic *)
  fadd : F -> F -> F;
  fmul : F -> F -> F;
  fdiv : F -> F -> F;            (* the quotient by a non-zero divisor *)
  is_zero : F -> bool;
  to_int : F -> result Z;        (* int(x) *)
  round : F -> result Z;         (* round(x) *)
  eqb : F -> F -> bool;          (* x == y *)
  lit : Z -> positive -> F       (* the literal n/d *)
}.

Section Mixed.
Context {F : Type} `{PyNum F}.
Local Open Scope result_scope.

(** [a / b] raises on a zero divisor. *)
Definition truediv (a b : F) : result F :=
  if is_zero b then Raise ZeroDivisionError else Ok (fdiv a b).

(** Mixed arithmetic converts the [int] operand first. *)
Definition int_div_float (n : Z) (y : F) : result F :=
  x <- of_int n ;; truediv x y.
Definition float_mul_int (x : F) (n : Z) : result F :=
  y <- of_int n ;; Ok (fmul x y).
Definition int_add_float (n : Z) (y : F) : result F :=
  x <- of_int n ;; Ok (fadd x y).
End Mixed.

(** ** Python floats: IEEE-754 binary64 *)

Module PyFloat.

Definition float := spec_float.

Definition prec : Z := 53.
Definition emax : Z := 1024.

Definition of_Z (n : Z) : float := binary_normalize prec emax n 0 false.

(** [float(n)] for an [int]: correctly rounded, [OverflowError] when the
    integer is too large for a double. *)
Definition float_of_int (n : Z) : result float :=
  match of_Z n with
  | S754_infinity _ => Raise OverflowError
  | f => Ok f
  end.

(** The magnitude of a finite float, cut at the binary point, and what is
    left below it, as a numerator and a denominator. *)
Definition int_part (m : positive) (e : Z) : Z :=
  match e with
  | Z0 => Zpos m
  | Zpos p => Zpos m * 2 ^ Zpos p
  | Zneg p => Zpos m / 2 ^ Zpos p
  end.

Definition frac_part (m : positive) (e : Z) : Z * Z :=
  match e with
  | Zneg p => (Zpos m mod 2 ^ Zpos p, 2 ^ Zpos p)
  | _ => (0, 1)
  end.

(** [int(x)]: truncation toward zero. *)
Definition int_of_float (x : float) : result Z :=
  match x with
  | S754_zero _ => Ok 0
  | S754_infinity _ => Raise OverflowError
  | S754_nan => Raise ValueError
  | S754_finite s m e => Ok (cond_Zopp s (int_part m e))
  end.

(** [round(x)] with one argument: the nearest integer, ties to the even
    one. *)
Definition round_half_even (q r d : Z) : Z :=
  match 2 * r ?= d with
  | Lt => q
  | Gt => q + 1
  | Eq => if Z.even q then q else q + 1
  end.

Definition round_float (x : float) : result Z :=
  match x with
  | S754_zero _ => Ok 0
  | S754_infinity _ => Raise OverflowError
  | S754_nan => Raise ValueError
  | S754_finite s m e =>
      let '(r, d) := frac_part m e in
      Ok (cond_Zopp s (round_half_even (int_part m e) r d))
  end.

Definition float_is_zero (x : float) : bool :=
  match x with
  | S754_zero _ => true
  | _ => false
  end.

(** Literals: the double nearest to [n / d]; for [n] and [d] below 2^53
    this is the double Python reads from the decimal literal. *)
Definition float_lit (n : Z) (d : positive) : float :=
  SFdiv prec emax (of_Z n) (of_Z (Zpos d)).

(** The exact value of a double, for stating what a run computed. *)
Definition value (x : float) : option Q :=
  match x with
  | S754_zero _ => Some 0%Q
  | S754_finite s m e =>
      Some (match e with
            | Zneg p => cond_Zopp s (Zpos m) # (2 ^ p)
            | _ => inject_Z (cond_Zopp s (Zpos m * 2 ^ e))
            end)
  | _ => None
  end.

End PyFloat.

#[export] Instance binary64 : PyNum PyFloat.float := {
  of_int := PyFloat.float_of_int;
  fadd := SFadd PyFloat.prec PyFloat.emax;
  fmul := SFmul PyFloat.prec PyFloat.emax;
  fdiv := SFdiv PyFloat.prec PyFloat.emax;
  is_zero := PyFloat.float_is_zero;
  to_int := PyFloat.int_of_float;
  round := PyFloat.round_float;
  eqb := SFeqb;
  lit := PyFloat.float_lit
}.

(** ** Exact values *)

Module Exact.

(** A rational cut toward zero. *)
Definition trunc (q : Q) : Z := Z.quot (Qnum q) (Zpos (Qden q)).

End Exact.

(** ** Python sequences *)

Module PySeq.

Definition len {A} (l : list A) : Z := Z.of_nat (List.length l).

(** A slice bound as Python normalises it: a negative bound counts from
    the end, and the outcome is clamped to [0, len]. *)
Definition norm_index (n i : Z) : Z :=
  if i <? 0 then Z.max 0 (i + n) else Z.min i n.

(** [l[lo:hi]] *)
Definition slice {A} (l : list A) (lo hi : Z) : list A :=
  let a := norm_index (len l) lo in
  let b := norm_index (len l) hi in
  firstn (Z.to_nat (b - a)) (skipn (Z.to_nat a) l).

(** [l[:hi]] *)
Definition slice_to {A} (l : list A) (hi : Z) : list A := slice l 0 hi.

(** [l[i]] *)
Definition index {A} (l : list A) (i : Z) : result A :=
  let j := if i <? 0 then i + len l else i in
  if j <? 0 then Raise IndexError
  else match nth_error l (Z.to_nat j) with
       | Some x => Ok x
       | None => Raise IndexError
       end.

(** [dst[lo:hi] = src] on numpy arrays of shape (_, 2): the rows of [src]
    are copied when there are as many as the slice has, one row is
    broadcast over the slice, anything else is a shape error. *)
Definition assign_slice {A} (dst : list A) (lo hi : Z) (src : list A)
  : result (list A) :=
  let a := norm_index (len dst) lo in
  let b := norm_index (len dst) hi in
  let m := Z.max 0 (b - a) in
  let before := firstn (Z.to_nat a) dst in
  let after := skipn (Z.to_nat (a + m)) dst in
  if len src =? m then Ok (before ++ src ++ after)
  else match src with
       | [row] => Ok (before ++ repeat row (Z.to_nat m) ++ after)
       | _ => Raise ValueError
       end.

End PySeq.

(** ** fastAudio *)

Module FastAudio.
Import PySeq.

(** One stereo frame of 16-bit PCM. *)
Definition sample : Type := Z * Z.
Definition silence : sample := (0, 0).

(** [np.zeros((n, 2), dtype=np.int16)] *)
Definition np_zeros (n : Z) : result (list sample) :=
  if n <? 0 then Raise ValueError else Ok (repeat silence (Z.to_nat n)).
Arguments np_zeros : simpl never.

(** A chunk is the list [[start, end, speed index]]. *)
Record chunk : Type := Chunk { c0 : Z; c1 : Z; c2 : Z }.

(** What the run does to the outside, in order. *)
Inductive event : Type :=
| EvLoadProcessor                          (* the audiotsm2 imports *)
| EvRead                                   (* read(in_file) *)
| EvAlloc (n : Z)                          (* np.zeros((n, 2)) *)
| EvTick (k : nat)                         (* audioProgress.tick(k) *)
| EvDebug (what : string)                  (* log.debug *)
| EvWrite (rate : Z) (data : list sample). (* write(out_file, rate, data) *)

(** A run: the events so far and how it ended. *)
Definition M (A : Type) : Type := list event * result A.

Definition ret {A} (a : A) : M A := ([], Ok a).
Definition bind {A B} (m : M A) (k : A -> M B) : M B :=
  match m with
  | (t, Ok a) => let '(t', r) := k a in (t ++ t', r)
  | (t, Raise e) => (t, Raise e)
  end.
Definition emit (e : event) : M unit := ([e], Ok tt).
Definition lift {A} (r : result A) : M A := ([], r).
Definition raise {A} (e : exn) : M A := ([], Raise e).

Declare Scope run_scope.
Delimit Scope run_scope with run.
Notation "x <- m ;; k" := (bind m (fun x => k))
  (at level 61, m at next level, right associativity) : run_scope.
Notation "m ;; k" := (bind m (fun _ => k))
  (at level 61, right associativity) : run_scope.

Record state : Type := State { newAudio : list sample; yPointer : Z }.

Section Engine.
Context {F : Type} `{PyNum F}.

Definition sentinel : F := lit 99999 1.
Definition unity : F := lit 1 1.

(** [speedsOtherThan1And99999] *)
Definition speedsOtherThan1And99999 (a : list F) : bool :=
  0 <? len (filter (fun x => negb (eqb x unity) && negb (eqb x sentinel)) a).

(** [getNewLength] of usefulFunctions and the phase vocoder of audiotsm2
    are not part of the sources at hand; the engine is modelled for
    any estimator and any processor. *)
Variable getNewLength : list chunk -> list F -> F -> result F.
Variable phasevocoder : F -> Z -> list sample -> result (list sample).

Variable samplerate : Z.
Variable audioData : list sample.
Variable speeds : list F.
Variable fps : F.

Local Open Scope result_scope.

(** [int(chunk[0] / fps * samplerate)] *)
Definition audioSampleStart (c : chunk) : result Z :=
  q <- int_div_float (c0 c) fps ;;
  p <- float_mul_int q samplerate ;;
  to_int p.

(** [int(audioSampleStart + (samplerate / fps) * (chunk[1] - chunk[0]))] *)
Definition audioSampleEnd (c : chunk) (start : Z) : result Z :=
  q <- int_div_float samplerate fps ;;
  p <- float_mul_int q (c1 c - c0 c) ;;
  s <- int_add_float start p ;;
  to_int s.

(** [int(((chunk[1] - chunk[0]) / fps) * samplerate / theSpeed)] *)
Definition newSamples (c : chunk) (theSpeed : F) : result Z :=
  q <- int_div_float (c1 c - c0 c) fps ;;
  mySamples <- float_mul_int q samplerate ;;
  r <- truediv mySamples theSpeed ;;
  to_int r.

(** The body of the loop over the chunks, up to the progress tick. *)
Definition chunk_step (st : state) (c : chunk) : result state :=
  a <- audioSampleStart c ;;
  e <- audioSampleEnd c a ;;
  theSpeed <- index speeds (c2 c) ;;
  if negb (eqb theSpeed sentinel) then
    let spedChunk := slice audioData a e in
    buf <- (if eqb theSpeed unity then
              assign_slice (newAudio st) (yPointer st)
                (yPointer st + len spedChunk) spedChunk
            else
              if speedsOtherThan1And99999 speeds then
                spedupAudio <- phasevocoder theSpeed samplerate spedChunk ;;
                assign_slice (newAudio st) (yPointer st)
                  (yPointer st + len spedupAudio) spedupAudio
              else Raise NameError) ;;
    n <- newSamples c theSpeed ;;
    Ok (State buf (yPointer st + n))
  else
    Ok st.

(** The diagnostics before the write evaluate their arguments:
    [samplerate / fps] and [yPointer / (samplerate / fps)]. *)
Definition samplesPerFrame : result F := int_div_float samplerate fps.

Definition expectedLength (y : Z) : result F :=
  perFrame <- int_div_float samplerate fps ;;
  int_div_float y perFrame.

Definition diagnostics (y : Z) : result unit :=
  _ <- samplesPerFrame ;;
  _ <- expectedLength y ;;
  Ok tt.

(** [int(newL * samplerate * 1.5) + int(samplerate * 2)] *)
Definition estLeng (chunks : list chunk) : result Z :=
  newL <- getNewLength chunks speeds fps ;;
  x <- float_mul_int newL samplerate ;;
  n <- to_int (fmul x (lit 3 2)) ;;
  Ok (n + samplerate * 2).

(** The cursor advance of one chunk: nothing for a dropped chunk,
    [newSamples] for any other. *)
Definition advance (c : chunk) : result Z :=
  theSpeed <- index speeds (c2 c) ;;
  if eqb theSpeed sentinel then Ok 0 else newSamples c theSpeed.

(** The sum of the advances of all chunks, in schedule order. *)
Fixpoint total_advance (chunks : list chunk) : result Z :=
  match chunks with
  | [] => Ok 0
  | c :: rest =>
      n <- advance c ;;
      m <- total_advance rest ;;
      Ok (n + m)
  end.

(** [round((original_frame_count / frame_rate * sample_rate) / speed)],
    the expected length as the description of the engine words it. *)
Definition roundedSamples (c : chunk) (theSpeed : F) : result Z :=
  q <- int_div_float (c1 c - c0 c) fps ;;
  mySamples <- float_mul_int q samplerate ;;
  r <- truediv mySamples theSpeed ;;
  round r.

Local Open Scope run_scope.

(** [for chunkNum, chunk in enumerate(chunks)] *)
Fixpoint loop (chunkNum : nat) (chunks : list chunk) (st : state) : M state :=
  match chunks with
  | [] => ret st
  | c :: rest =>
      st' <- lift (chunk_step st c) ;;
      emit (EvTick chunkNum) ;;
      loop (S chunkNum) rest st'
  end.

(** [if len(chunks) == 1 and chunks[0][2] == 0: log.error(...)] *)
Definition empty_file_guard (chunks : list chunk) : M unit :=
  match chunks with
  | [c] => if c2 c =? 0
           then raise (Fatal "Trying to create an empty file.")
           else ret tt
  | _ => ret tt
  end.

(** [fastAudio].  [samplerate] and [audioData] are what [read(in_file)]
    returns; the file names, the logger and the progress bar options do
    not take part in what is computed.  The outcome is the trace of the
    run, which ends in the [write] when nothing raised. *)
Definition fastAudio (chunks : list chunk) : M unit :=
  (if speedsOtherThan1And99999 speeds then emit EvLoadProcessor else ret tt) ;;
  empty_file_guard chunks ;;
  emit EvRead ;;
  n <- lift (estLeng chunks) ;;
  zeros <- lift (np_zeros n) ;;
  emit (EvAlloc n) ;;
  st <- loop 0 chunks (State zeros 0) ;;
  emit (EvDebug "Total Samples") ;;
  lift samplesPerFrame ;;
  emit (EvDebug "Samples per Frame") ;;
  lift (expectedLength (yPointer st)) ;;
  emit (EvDebug "Expected video length") ;;
  emit (EvWrite samplerate (slice_to (newAudio st) (yPointer st))).

(** The events of a run in which nothing raises, before and after the
    loop. *)
Definition preamble : list event :=
  if speedsOtherThan1And99999 speeds then [EvLoadProcessor] else [].

Definition epilogue (st : state) : list event :=
  [EvDebug "Total Samples"; EvDebug "Samples per Frame";
   EvDebug "Expected video length";
   EvWrite samplerate (slice_to (newAudio st) (yPointer st))].

End Engine.
Arguments samplesPerFrame : simpl never.
Arguments expectedLength : simpl never.

(** Whether the guard lets a schedule through. *)
Definition guard_passes (chunks : list chunk) : bool :=
  match chunks with
  | [c] => negb (c2 c =? 0)
  | _ => true
  end.

(** What a run handed to [write], if it got there. *)
Fixpoint written (t : list event) : option (Z * list sample) :=
  match t with
  | [] => None
  | EvWrite rate data :: _ => Some (rate, data)
  | _ :: rest => written rest
  end.

(** The sample rate and the number of frames a run handed to [write]. *)
Definition written_length (t : list event) : option (Z * Z) :=
  match written t with
  | Some (rate, data) => Some (rate, len data)
  | None => None
  end.

(** The write cursor a pass of the loop body leaves behind. *)
Definition cursor_after (r : result state) : result Z :=
  rbind r (fun st => Ok (yPointer st)).

(** *** Stand-ins for the two collaborators, for running the engine *)

Section StandIns.
Context {F : Type} `{PyNum F}.
Local Open Scope result_scope.

(** Modelled from the spec: [getNewLength] of usefulFunctions, which is
    not among the sources.  The output-length estimator takes the chunk
    schedule, the speed table and the frame rate and returns the
    expected output duration: the frames of every chunk that is not
    dropped, divided by the chunk's speed, converted with the frame
    rate so that the engine's product with the sample rate counts
    samples. *)
Fixpoint timeInFrames (chunks : list chunk) (speeds : list F) (acc : F)
  : result F :=
  match chunks with
  | [] => Ok acc
  | c :: rest =>
      s <- index speeds (c2 c) ;;
      if eqb s sentinel then timeInFrames rest speeds acc
      else
        leng <- of_int (c1 c - c0 c) ;;
        q <- truediv leng s ;;
        timeInFrames rest speeds (fadd acc q)
  end.

(** Modelled from the spec: [getNewLength], the total of [timeInFrames]
    over the frame rate. *)
Definition getNewLength_spec (chunks : list chunk) (speeds : list F)
  (fps : F) : result F :=
  t <- timeInFrames chunks speeds (lit 0 1) ;;
  truediv t fps.


(** A processor that satisfies the length contract of the time-stretch
    capability in the crudest way: it keeps the first
    [int(len(block) / speed)] frames of the block. *)
Definition prefix_processor (speed : F) (samplerate : Z)
  (block : list sample) : result (list sample) :=
  q <- int_div_float (len block) speed ;;
  n <- to_int q ;;
  Ok (firstn (Z.to_nat n) block).

(** A processor that returns twice the block: one that breaks the
    length contract. *)
Definition doubling_processor (speed : F) (samplerate : Z)
  (block : list sample) : result (list sample) :=
  Ok (block ++ block).
End StandIns.

(** Test signal: frame [k] carries [(k + 1, -(k + 1))]. *)
Fixpoint ramp_from (k : Z) (n : nat) : list sample :=
  match n with
  | O => []
  | S n' => (k + 1, - (k + 1)) :: ramp_from (k + 1) n'
  end.
Definition ramp (n : Z) : list sample := ramp_from 0 (Z.to_nat n).

(** A schedule of three chunks: two frames kept, two dropped, two played
    twice as fast. *)
Definition demo_speeds : list PyFloat.float := [lit 99999 1; lit 1 1; lit 2 1].
Definition demo_chunks : list chunk := [Chunk 0 2 1; Chunk 2 4 0; Chunk 4 6 2].

End FastAudio.

(** ** Timeline.end *)

Module Timeline.
Import PySeq.

Section Model.
Context {F : Type} `{PyNum F}.
Local Open Scope result_scope.

(** The clips of a video layer are [VideoObj]s or other visual objects
    (text, image, rectangle, ellipse), which carry no speed. *)
Inductive Visual : Type :=
| VideoObj (start dur : Z) (speed : F)
| OtherObj (start dur : Z).

Record AudioObj : Type := { a_start : Z; a_dur : Z; a_speed : F }.

Record Timeline : Type := {
  timebase : Q;
  samplerate : Z;
  res : Z * Z;
  v : list (list Visual);
  a : list (list AudioObj)
}.

(** [max(1, round(start + (dur / speed)))] *)
Definition speed_finish (start dur : Z) (speed : F) : result Z :=
  q <- int_div_float dur speed ;;
  s <- int_add_float start q ;;
  r <- round s ;;
  Ok (Z.max 1 r).

(** [clips[-1]] under [len(clips) > 0] *)
Definition last_clip {A} (clips : list A) : option A :=
  match rev clips with
  | [] => None
  | c :: _ => Some c
  end.

Definition v_step (end_ : Z) (vclips : list Visual) : result Z :=
  match last_clip vclips with
  | None => Ok end_
  | Some (VideoObj start dur speed) =>
      f <- speed_finish start dur speed ;; Ok (Z.max end_ f)
  | Some (OtherObj start dur) => Ok (Z.max end_ (start + dur))
  end.

Definition a_step (end_ : Z) (aclips : list AudioObj) : result Z :=
  match last_clip aclips with
  | None => Ok end_
  | Some c =>
      f <- speed_finish (a_start c) (a_dur c) (a_speed c) ;;
      Ok (Z.max end_ f)
  end.

Fixpoint for_layers {A} (step : Z -> A -> result Z) (layers : list A)
  (end_ : Z) : result Z :=
  match layers with
  | [] => Ok end_
  | l :: rest => e <- step end_ l ;; for_layers step rest e
  end.

(** The property [Timeline.end]. *)
Definition end_ (tl : Timeline) : result Z :=
  e <- for_layers v_step (v tl) 0 ;;
  for_layers a_step (a tl) e.

(** *** The end of a timeline as a maximum of finish positions *)

(** The finish position of a layer's last clip, [None] for an empty
    layer; [speedy] is the finish position of a clip that has a
    speed. *)
Definition v_finish (speedy : Z -> Z -> F -> result Z)
  (vclips : list Visual) : result (option Z) :=
  match last_clip vclips with
  | None => Ok None
  | Some (VideoObj start dur speed) =>
      f <- speedy start dur speed ;; Ok (Some f)
  | Some (OtherObj start dur) => Ok (Some (start + dur))
  end.

Definition a_finish (speedy : Z -> Z -> F -> result Z)
  (aclips : list AudioObj) : result (option Z) :=
  match last_clip aclips with
  | None => Ok None
  | Some c => f <- speedy (a_start c) (a_dur c) (a_speed c) ;; Ok (Some f)
  end.

Fixpoint finishes {A} (fin : A -> result (option Z)) (layers : list A)
  : result (list Z) :=
  match layers with
  | [] => Ok []
  | l :: rest =>
      f <- fin l ;;
      fs <- finishes fin rest ;;
      Ok (match f with Some x => x :: fs | None => fs end)
  end.

(** The maximum of the finish positions of all layers, video layers
    first; an empty layer contributes nothing and no layer at all
    gives zero. *)
Definition max_finish (speedy : Z -> Z -> F -> result Z) (tl : Timeline)
  : result Z :=
  fv <- finishes (v_finish speedy) (v tl) ;;
  fa <- finishes (a_finish speedy) (a tl) ;;
  Ok (fold_right Z.max 0 (fv ++ fa)).


End Model.

End Timeline.

(** ** FCP7 timebase *)

Module Fcp7.
Local Open Scope string_scope.

(** [Fraction(n, d)], normalised. *)
Definition Fraction (n : Z) (d : positive) : Q := Qred (n # d).

(** [math.ceil] of a fraction: [-(-numerator // denominator)] *)
Definition ceil (q : Q) : Z := - ((- Qnum q) / Zpos (Qden q)).

(** [int] of a fraction: truncation toward zero *)
Definition int_of_fraction (q : Q) : Z := Z.quot (Qnum q) (Zpos (Qden q)).

Definition set_tb_ntsc (tb : Q) : Z * string :=
  if Qeq_bool tb (Fraction 24000 1001) then (24, "TRUE")
  else if Qeq_bool tb (Fraction 30000 1001) then (30, "TRUE")
  else if Qeq_bool tb (Fraction 60000 1001) then (60, "TRUE")
  else
    let ctb := ceil tb in
    if negb ((ctb =? 24) || (ctb =? 30) || (ctb =? 60))%Z
       && Qeq_bool (Qred (inject_Z ctb * Fraction 999 1000)) tb
    then (ctb, "TRUE")
    else (int_of_fraction tb, "FALSE").

(** [xml_bool], which reads the flag back in [fcp7_read_xml]. *)
Definition xml_bool (val : string) : result bool :=
  if String.eqb val "TRUE" then Ok true
  else if String.eqb val "FALSE" then Ok false
  else Raise TypeError.

Definition read_tb_ntsc (tb : Z) (ntsc : bool) : Q :=
  if ntsc then
    if (tb =? 24)%Z then Fraction 24000 1001
    else if (tb =? 30)%Z then Fraction 30000 1001
    else if (tb =? 60)%Z then Fraction 60000 1001
    else Qred (inject_Z tb * Fraction 999 1000)
  else inject_Z tb.

(** What the reader makes of the pair the writer produced. *)
Definition round_trip (tb : Q) : result Q :=
  let '(timebase, ntsc) := set_tb_ntsc tb in
  rbind (xml_bool ntsc) (fun b => Ok (read_tb_ntsc timebase b)).

End Fcp7.

(** ** FCP7: file URIs *)

Module Uri.
Import PySeq.

(** A Python [str]. *)
Definition str : Type := list ascii.

Definition lit_str (x : string) : str := list_ascii_of_string x.

Fixpoint str_eqb (a b : str) : bool :=
  match a, b with
  | [], [] => true
  | x :: a', y :: b' => Ascii.eqb x y && str_eqb a' b'
  | _, _ => false
  end.

Definition percent : ascii := "%"%char.

(** The dictionary [uri_escape] of [de_norm]. *)
Definition uri_escape : list (str * ascii) :=
  [ (lit_str "3C", "<"%char); (lit_str "3E", ">"%char);
    (lit_str "23", "#"%char); (lit_str "25", "%"%char);
    (lit_str "2B", "+"%char); (lit_str "7B", "{"%char);
    (lit_str "7D", "}"%char); (lit_str "7C", "|"%char);
    (lit_str "5C", "\"%char); (lit_str "5E", "^"%char);
    (lit_str "7E", "~"%char); (lit_str "5B", "["%char);
    (lit_str "5D", "]"%char); (lit_str "60", "`"%char);
    (lit_str "3F", "?"%char); (lit_str "3A", ":"%char);
    (lit_str "40", "@"%char); (lit_str "3D", "="%char);
    (lit_str "2A", "*"%char); (lit_str "29", ")"%char);
    (lit_str "28", "("%char); (lit_str "27", "'"%char);
    (lit_str "26", "&"%char); (lit_str "24", "$"%char);
    (lit_str "22", "034"%char); (lit_str "21", "!"%char) ].

(** [uri_escape[tag]] under [tag in uri_escape] *)
Fixpoint lookup (table : list (str * ascii)) (tag : str) : option ascii :=
  match table with
  | [] => None
  | (key, value) :: rest =>
      if str_eqb key tag then Some value else lookup rest tag
  end.

(** What the loop of [de_norm] writes for the character [char] at
    index [i] of [s]. *)
Definition decoded (s : str) (i : Z) (char : ascii) : ascii :=
  if Ascii.eqb char percent && (i + 3 <? len s) then
    match lookup uri_escape (slice s (i + 1) (i + 3)) with
    | Some c => c
    | None => char
    end
  else char.

(** [for i, char in enumerate(s)], writing to the buffer [buf] *)
Fixpoint de_norm_loop (s : str) (i : Z) (rest : str) (buf : str) : str :=
  match rest with
  | [] => buf
  | char :: rest' => de_norm_loop s (i + 1) rest' (buf ++ [decoded s i char])
  end.

Definition de_norm (s : str) : str := de_norm_loop s 0 s [].

(** [s.startswith(prefix)] *)
Definition startswith (s prefix : str) : bool :=
  str_eqb (firstn (List.length prefix) s) prefix.

(** [uri_to_path]; [uri[16:]] and [uri[7:]] drop the first 16 and 7
    characters. *)
Definition uri_to_path (uri : str) : str :=
  if startswith uri (lit_str "file://localhost/") then de_norm (skipn 16 uri)
  else if startswith uri (lit_str "file://") then de_norm (skipn 7 uri)
  else uri.

End Uri.

(** ** Timeline.out_len *)

Module OutLen.
Import Timeline.
Local Open Scope result_scope.

(** The running totals of [out_len] start as the [int] 0 and become
    floats once a quotient has been added: a Python number here is an
    [int] or a [float]. *)
Inductive number : Type :=
| Int (z : Z)
| Float (f : PyFloat.float).

(** [a + b] *)
Definition add (a b : number) : result number :=
  match a, b with
  | Int x, Int y => Ok (Int (x + y))
  | Int x, Float g => f <- of_int x ;; Ok (Float (fadd f g))
  | Float f, Int y => g <- of_int y ;; Ok (Float (fadd f g))
  | Float f, Float g => Ok (Float (fadd f g))
  end.

Definition Qltb (a b : Q) : bool :=
  (Qnum a * Zpos (Qden b) <? Qnum b * Zpos (Qden a))%Z.

(** [a > b]; an [int] and a [float] are compared by their exact values,
    nothing is greater or less than a NaN. *)
Definition gt (a b : number) : bool :=
  match a, b with
  | Int x, Int y => y <? x
  | Float f, Float g => SFltb g f
  | Int x, Float g =>
      match g with
      | S754_nan => false
      | S754_infinity s => s
      | _ => match PyFloat.value g with
             | Some q => Qltb q (inject_Z x)
             | None => false
             end
      end
  | Float f, Int y =>
      match f with
      | S754_nan => false
      | S754_infinity s => negb s
      | _ => match PyFloat.value f with
             | Some q => Qltb (inject_Z y) q
             | None => false
             end
      end
  end.

(** [max(a, b)]: [b] when it is greater, else [a]. *)
Definition py_max (a b : number) : number := if gt b a then b else a.

(** [for v_obj in vclips], adding to [dur] *)
Fixpoint v_total (vclips : list (Visual (F := PyFloat.float))) (dur : number)
  : result number :=
  match vclips with
  | [] => Ok dur
  | VideoObj _ d speed :: rest =>
      q <- int_div_float d speed ;;
      dur' <- add dur (Float q) ;;
      v_total rest dur'
  | OtherObj _ d :: rest =>
      dur' <- add dur (Int d) ;;
      v_total rest dur'
  end.

(** [for aclip in aclips], adding to [dur] *)
Fixpoint a_total (aclips : list (AudioObj (F := PyFloat.float))) (dur : number)
  : result number :=
  match aclips with
  | [] => Ok dur
  | c :: rest =>
      q <- int_div_float (a_dur c) (a_speed c) ;;
      dur' <- add dur (Float q) ;;
      a_total rest dur'
  end.

Fixpoint over_layers {A} (total : list A -> number -> result number)
  (layers : list (list A)) (out_len : number) : result number :=
  match layers with
  | [] => Ok out_len
  | l :: rest =>
      dur <- total l (Int 0) ;;
      over_layers total rest (py_max out_len dur)
  end.

(** [Timeline.out_len] *)
Definition out_len (tl : Timeline (F := PyFloat.float)) : result number :=
  o <- over_layers v_total (v tl) (Int 0) ;;
  over_layers a_total (a tl) o.

(** Zero or more, and a number. *)
Definition is_nonneg (n : number) : bool :=
  match n with
  | Int z => 0 <=? z
  | Float (S754_zero _) => true
  | Float (S754_infinity s) => negb s
  | Float (S754_finite s _ _) => negb s
  | Float S754_nan => false
  end.

End OutLen.

(** ** make_timeline: the sources given by label, the objects added *)

Module MakeTimeline.
Import PySeq Uri Timeline.
Local Open Scope result_scope.

(** [s.split(sep)] for a separator of one character. *)
Fixpoint split (sep : ascii) (s : str) : list str :=
  match s with
  | [] => [[]]
  | c :: rest =>
      if Ascii.eqb c sep then [] :: split sep rest
      else match split sep rest with
           | part :: parts => (c :: part) :: parts
           | [] => [[c]]
           end
  end.

Definition colon : ascii := ":"%char.

(** The characters a label must not hold, in the order the loop tries
    them. *)
Definition ill_chars : str :=
  lit_str ",.;()/\[]}{'" ++ ["034"%char] ++ lit_str "|#&<>^%$_@ ".

(** [c in s] *)
Definition contains (s : str) (c : ascii) : bool := existsb (Ascii.eqb c) s.

(** [for ill_char in ...: if ill_char in label: log.error(...)]: the first
    of the characters that the label holds. *)
Fixpoint first_illegal (chars : str) (label : str) : option ascii :=
  match chars with
  | [] => None
  | c :: rest => if contains label c then Some c else first_illegal rest label
  end.

Definition fatal {A} (msg : str) : result A :=
  Raise (Fatal (string_of_list_ascii msg)).

(** The checks of one [--source] argument, up to the entry it adds to
    [sources]; [isfile] stands for [os.path.isfile]. *)
Definition check_source (isfile : str -> bool) (raw : str)
  : result (str * str) :=
  match split colon raw with
  | [label; path] =>
      if 500 <? len label then
        fatal (lit_str "Label must not exceed 500 characters.")
      else
        match first_illegal ill_chars label with
        | Some c =>
            fatal (label ++ lit_str " Label contains illegal character: "
                   ++ [c])
        | None =>
            match label with
            | [] => Raise IndexError
            | first :: _ =>
                if contains (lit_str "0123456789") first then
                  fatal (label ++ lit_str " Label must not start with a digit")
                else if Ascii.eqb first "-"%char then
                  fatal (label ++ lit_str " Label must not start with a dash")
                else if negb (isfile path) then
                  fatal (lit_str "Path '" ++ path ++ lit_str "' is not a file")
                else Ok (label, path)
            end
        end
  | _ => fatal (lit_str "--source must have one :")
  end.

(** The keys of [sources] are the numbers of the input files and the
    labels. *)
Inductive key : Type :=
| KInt (n : Z)
| KStr (label : str).

Definition key_eqb (a b : key) : bool :=
  match a, b with
  | KInt x, KInt y => x =? y
  | KStr x, KStr y => str_eqb x y
  | _, _ => false
  end.

(** [d[k] = v] and [d.get(k)] on a dictionary kept in insertion order. *)
Fixpoint dict_set {V} (d : list (key * V)) (k : key) (v : V)
  : list (key * V) :=
  match d with
  | [] => [(k, v)]
  | (k', v') :: rest =>
      if key_eqb k' k then (k', v) :: rest else (k', v') :: dict_set rest k v
  end.

Fixpoint dict_get {V} (d : list (key * V)) (k : key) : option V :=
  match d with
  | [] => None
  | (k', v') :: rest => if key_eqb k' k then Some v' else dict_get rest k
  end.

(** [for raw in args.source]; what is kept of a [FileInfo] is the path it
    was made from. *)
Fixpoint add_sources (isfile : str -> bool) (raws : list str)
  (sources : list (key * str)) : result (list (key * str)) :=
  match raws with
  | [] => Ok sources
  | raw :: rest =>
      lp <- check_source isfile raw ;;
      add_sources isfile rest (dict_set sources (KStr (fst lp)) (snd lp))
  end.

(** The first lines of [for obj_attrs_str in args.add]: the name of the
    object and the text of its attributes. *)
Definition explode_add (obj_attrs_str : str) : result (str * str) :=
  match split colon obj_attrs_str with
  | [] => fatal (lit_str "Invalid object syntax")
  | [obj_s] => Ok (obj_s, [])
  | [obj_s; attrs] => Ok (obj_s, attrs)
  | _ => fatal (lit_str "Invalid object syntax")
  end.

(** [timeline.v.append([vobj])] and [timeline.a.append([aobj])] *)
Definition add_visual {F : Type} (tl : Timeline (F := F))
  (vobj : Visual (F := F)) : Timeline (F := F) :=
  {| timebase := timebase tl; samplerate := samplerate tl; res := res tl;
     v := v tl ++ [[vobj]]; a := a tl |}.

Definition add_audio {F : Type} (tl : Timeline (F := F))
  (aobj : AudioObj (F := F)) : Timeline (F := F) :=
  {| timebase := timebase tl; samplerate := samplerate tl; res := res tl;
     v := v tl; a := a tl ++ [[aobj]] |}.

(** A timeline of one video layer, a clip played at twice the speed
    followed by a text object, and one audio layer. *)
Definition demo_timeline : Timeline (F := PyFloat.float) :=
  {| timebase := 30; samplerate := 48000; res := (1920, 1080);
     v := [[VideoObj 0 8 (lit 2 1); OtherObj 4 3]];
     a := [[{| a_start := 0; a_dur := 8; a_speed := lit 2 1 |}]] |}.

End MakeTimeline.

(** ** FCP7: the speed filter and the tracks of a sequence *)

Module Filters.
Import PySeq Uri.
Local Open Scope result_scope.

(** An [xml.etree.ElementTree.Element]: tag, attributes, text, children. *)
#[warnings="-register-all"]
Inductive Element : Type :=
| Elem (tag : str) (attrib : list (str * str)) (text : option str)
       (children : list Element).

Definition tag (e : Element) : str := let (t, _, _, _) := e in t.
Definition attrib (e : Element) : list (str * str) := let (_, a, _, _) := e in a.
Definition text (e : Element) : option str := let (_, _, x, _) := e in x.
Definition children (e : Element) : list Element := let (_, _, _, c) := e in c.

(** [ET.SubElement(parent, tag).text = text], as a child to be listed. *)
Definition sub (tag text : string) : Element :=
  Elem (lit_str tag) [] (Some (lit_str text)) [].

(** [log.error(msg)] as a statement. *)
Definition log_error (msg : str) : result unit :=
  Raise (Fatal (string_of_list_ascii msg)).

Definition SUPPORTED_EFFECTS : list str := [lit_str "timeremap"].

(** [text not in SUPPORTED_EFFECTS] *)
Definition unsupported (text : option str) : bool :=
  match text with
  | Some t => negb (existsb (str_eqb t) SUPPORTED_EFFECTS)
  | None => true
  end.

(** [text != "speed"] *)
Definition is_not (text : option str) (s : string) : bool :=
  match text with
  | Some t => negb (str_eqb t (lit_str s))
  | None => true
  end.

(** The f-string of the message on an unsupported effect. *)
Definition unsupported_message (text : option str) : str :=
  ["`"%char]
  ++ match text with Some t => t | None => lit_str "None" end
  ++ lit_str "` is not a supported effect.".

Section Speed.
Context {F : Type} `{PyNum F}.

(** [str(x)] and [float(s)] of the Python runtime; [float] raises a
    [ValueError] on a text that is no number. *)
Variable str_of_float : F -> str.
Variable float_of_str : str -> option F.

(** [x / n] for a float [x] and an int [n] *)
Definition float_div_int (x : F) (n : Z) : result F :=
  y <- of_int n ;; truediv x y.

Definition parameter (children : list Element) : Element :=
  Elem (lit_str "parameter") [(lit_str "authoringApp", lit_str "PremierePro")]
       None children.

Definition speedup (speed : F) : Element :=
  Elem (lit_str "filter") [] None
    [Elem (lit_str "effect") [] None
       [sub "name" "Time Remap";
        sub "effectid" "timeremap";
        parameter
          [sub "parameterid" "variablespeed";
           sub "name" "variablespeed";
           sub "valuemin" "0";
           sub "valuemax" "1";
           sub "value" "0"];
        parameter
          [sub "parameterid" "speed";
           sub "name" "speed";
           sub "valuemin" "-100000";
           sub "valuemax" "100000";
           Elem (lit_str "value") [] (Some (str_of_float speed)) []];
        parameter
          [sub "parameterid" "frameblending";
           sub "name" "frameblending";
           sub "value" "FALSE"]]].

(** [for j, parms in enumerate(effects)]: [Some x] when the loop returns
    [x] from [read_filters], [None] when it ends or breaks. *)
Fixpoint read_parameter (j : Z) (parms : list Element) : result (option F) :=
  match parms with
  | [] => Ok None
  | p :: rest =>
      if j =? 0 then
        _ <- (if negb (str_eqb (tag p) (lit_str "parameterid"))
              then log_error
                     (lit_str "<parameter>: <parameterid> must be first tag")
              else Ok tt) ;;
        if is_not (text p) "speed" then Ok None
        else read_parameter (j + 1) rest
      else if str_eqb (tag p) (lit_str "value") then
        _ <- (match text p with
              | None => log_error (lit_str "<value>: number required")
              | Some _ => Ok tt
              end) ;;
        match text p with
        | Some t =>
            match float_of_str t with
            | Some x => r <- float_div_int x 100 ;; Ok (Some r)
            | None => Raise ValueError
            end
        | None => Raise TypeError
        end
      else read_parameter (j + 1) rest
  end.

(** [for i, effects in enumerate(effect_tag)] *)
Fixpoint read_effect (i : Z) (effects : list Element) : result (option F) :=
  match effects with
  | [] => Ok None
  | e :: rest =>
      _ <- (if (i =? 0) && negb (str_eqb (tag e) (lit_str "name"))
            then log_error (lit_str "<effect>: <name> must be first tag")
            else Ok tt) ;;
      _ <- (if (i =? 1) && negb (str_eqb (tag e) (lit_str "effectid"))
            then
              _ <- log_error
                     (lit_str "<effect>: <effectid> must be second tag") ;;
              if unsupported (text e)
              then log_error (unsupported_message (text e))
              else Ok tt
            else Ok tt) ;;
      r <- (if 1 <? i then read_parameter 0 (children e) else Ok None) ;;
      match r with
      | Some x => Ok (Some x)
      | None => read_effect (i + 1) rest
      end
  end.

(** [for effect_tag in clipitem], and the [return 1.0] after it *)
Fixpoint read_effects (effect_tags : list Element) : result F :=
  match effect_tags with
  | [] => Ok (lit 1 1)
  | effect_tag :: rest =>
      _ <- (if len (children effect_tag) <? 3
            then log_error
                   (lit_str
                      "effect tag requires: <effectid> <name> and one <parameter>")
            else Ok tt) ;;
      r <- read_effect 0 (children effect_tag) ;;
      match r with
      | Some x => Ok x
      | None => read_effects rest
      end
  end.

Definition read_filters (clipitem : Element) : result F :=
  read_effects (children clipitem).

(** What [log.error] is called with in [read_filters] before the run
    stops there. *)
Definition reported : list str :=
  [lit_str "effect tag requires: <effectid> <name> and one <parameter>";
   lit_str "<effect>: <name> must be first tag";
   lit_str "<effect>: <effectid> must be second tag";
   lit_str "<parameter>: <parameterid> must be first tag";
   lit_str "<value>: number required"].

(** What a run of [read_filters] can end with when it does not return. *)
Definition expected (e : exn) : Prop :=
  e = ValueError \/
  (exists x, float_div_int x 100 = Raise e) \/
  (exists msg, In msg reported /\ e = Fatal (string_of_list_ascii msg)).

End Speed.

(** Stand-ins for [str] and [float] on the one text the examples use. *)
Definition demo_str (x : PyFloat.float) : str := lit_str "150.0".
Definition demo_float (t : str) : option PyFloat.float :=
  if str_eqb t (lit_str "150.0") then Some (lit 150 1) else None.

End Filters.

Module ReadTracks.
Import PySeq.
Local Open Scope result_scope.

(** [l[t].append(x)] on a list of lists *)
Definition append_at {A} (l : list (list A)) (t : Z) (x : A)
  : result (list (list A)) :=
  let j := if t <? 0 then t + len l else t in
  if j <? 0 then Raise IndexError
  else match nth_error l (Z.to_nat j) with
       | Some layer =>
           Ok (firstn (Z.to_nat j) l ++ (layer ++ [x])
                 :: skipn (S (Z.to_nat j)) l)
       | None => Raise IndexError
       end.

Section Tracks.
(** [S] is the dictionary [sources], [C] a parsed [clipitem], [O] a clip
    of the timeline; [clip_step] is the body of the inner loop up to the
    clip it builds: it looks the file up, adds it to [sources] if new,
    reads the speed and computes start, duration and offset. *)
Context {S C O : Type}.
Variable clip_step : S -> C -> result (S * O).

(** [for i, clipitem in enumerate(track["clipitem"])] *)
Fixpoint read_clips (t : Z) (clips : list C) (st : S * list (list O))
  : result (S * list (list O)) :=
  match clips with
  | [] => Ok st
  | c :: rest =>
      so <- clip_step (fst st) c ;;
      objs <- append_at (snd st) t (snd so) ;;
      read_clips t rest (fst so, objs)
  end.

(** [for t, track in enumerate(tracks["track"])] *)
Fixpoint read_tracks (t : Z) (tracks : list (list C)) (st : S * list (list O))
  : result (S * list (list O)) :=
  match tracks with
  | [] => Ok st
  | track :: rest =>
      let st1 := if 0 <? len track then (fst st, snd st ++ [[]]) else st in
      st2 <- read_clips t track st1 ;;
      read_tracks (t + 1) rest st2
  end.

End Tracks.

(** A clip body that counts the clips it has seen and keeps the clip. *)
Definition demo_step (n : Z) (c : Z) : result (Z * Z) := Ok (n + 1, c).

End ReadTracks.

(** ** FCP7: the ids of the files of a sequence *)

Module FileIds.
Import PySeq Uri MakeTimeline.

(** The keys of [key_to_id] are the pairs [(key, stream)]. *)
Definition fkey : Type := key * Z.

Definition fkey_eqb (a b : fkey) : bool :=
  key_eqb (fst a) (fst b) && (snd a =? snd b).

(** [d[k] = x] and [d.get(k)], in insertion order. *)
Fixpoint set (d : list (fkey * Z)) (k : fkey) (x : Z) : list (fkey * Z) :=
  match d with
  | [] => [(k, x)]
  | (k', x') :: rest =>
      if fkey_eqb k' k then (k', x) :: rest else (k', x') :: set rest k x
  end.

Fixpoint get (d : list (fkey * Z)) (k : fkey) : option Z :=
  match d with
  | [] => None
  | (k', x') :: rest => if fkey_eqb k' k then Some x' else get rest k
  end.

(** [range(1, n)] *)
Definition range1 (n : Z) : list Z :=
  map Z.of_nat (seq 1 (Z.to_nat n - 1)).

(** [key_to_id[k] = f"file-{len(key_to_id)+1}"]; an id is kept as its
    number. *)
Definition new_id (d : list (fkey * Z)) (k : fkey) : list (fkey * Z) :=
  set d k (len d + 1).

(** The body of [for key, src in tl.sources.items()], as far as
    [key_to_id] goes; of [src] the number of its audio streams is used. *)
Definition add_source (d : list (fkey * Z)) (source : key * Z)
  : list (fkey * Z) :=
  let (key, audios) := source in
  let d1 := new_id d (key, 0) in
  if 1 <? audios
  then fold_left (fun d i => new_id d (key, i)) (range1 audios) d1
  else d1.

Definition key_to_id (sources : list (key * Z)) : list (fkey * Z) :=
  fold_left add_source sources [].

(** The streams of a source that get an id, and a list of keys numbered
    from 1. *)
Definition stream_keys (source : key * Z) : list fkey :=
  (fst source, 0) :: map (pair (fst source)) (range1 (snd source)).

Definition numbered (ks : list fkey) : list (fkey * Z) :=
  combine ks (map Z.of_nat (seq 1 (List.length ks))).

End FileIds.

(** ** Rounding in double precision

    What is needed to state how far the result of a float operation is
    from the exact one: powers of two, the numbers a double can hold,
    and the relation between a real and the double it is rounded to. *)

Module Rounding.

(** [2^e] *)
Definition bpow (e : Z) : Q := (2 ^ e)%Q.

(** Whether a shift has dropped bits that were not zero. *)
Definition inexact (mrs : shr_record) : bool := shr_r mrs || shr_s mrs.

(** The unit roundoff used below: the distance between neighbouring
    doubles relative to their size is at most [2^-52]. *)
Definition u : Q := bpow (-52).

(** A real that is a 53-bit integer times a power of two. *)
Definition representable (w : Q) : Prop :=
  exists k j, 0 < k < 2 ^ 53 /\ (w == inject_Z k * bpow j)%Q.

(** [v] is [X] rounded: next to [X] in size, and on the same side of
    every representable number as [X]. *)
Definition Rnd (X v : Q) : Prop :=
  ((1 - u) * X <= v)%Q /\ (v <= (1 + u) * X)%Q /\
  (forall w, representable w -> (X <= w)%Q -> (v <= w)%Q) /\
  (forall w, representable w -> (w <= X)%Q -> (w <= v)%Q).

(** A positive normal double and its value. *)
Definition Fpos (x : spec_float) (v : Q) : Prop :=
  exists m e,
    x = S754_finite false m e /\ Zpos (digits2_pos m) = 53 /\
    -1074 <= e <= 971 /\ (v == inject_Z (Zpos m) * bpow e)%Q.

(** [1 + 2^-52] and [1 - 2^-52] *)
Definition up : Q := 1 + (1 # 4503599627370496).
Definition dn : Q := 1 - (1 # 4503599627370496).

End Rounding.

(** * Properties *)

Lemma rbind_Ok_inv {A B} (r : result A) (k : A -> result B) (b : B) :
  rbind r k = Ok b -> exists a, r = Ok a /\ k a = Ok b.
Proof.
  destruct r as [a|e]; simpl; intros H; [eauto | discriminate].
Qed.

Ltac inv_rbind H :=
  let x := fresh "x" in
  let E := fresh "E" in
  apply rbind_Ok_inv in H; destruct H as (x & E & H).

(** ** Doubles *)

Module PyFloatFacts.
Import PyFloat.

(** [int(x)] is the exact value of the double [x] cut toward zero. *)
Lemma int_of_float_truncates (x : float) (q : Q) :
  value x = Some q -> int_of_float x = Ok (Exact.trunc q).
Proof.
  destruct x as [s | s | | s m e]; simpl; try discriminate.
  - intros [= <-]. reflexivity.
  - intros [= <-]. f_equal. unfold Exact.trunc.
    destruct e as [|p|p]; simpl Qnum; simpl Qden.
    + rewrite Z.quot_1_r. destruct s; simpl; lia.
    + now rewrite Z.quot_1_r.
    + rewrite Pos2Z.inj_pow.
      change (Z.pow_pos 2 p) with (2 ^ Z.pos p)%Z.
      assert (0 < 2 ^ Z.pos p)%Z by (apply Z.pow_pos_nonneg; lia).
      destruct s; simpl cond_Zopp.
      * change (Z.neg m) with (- Z.pos m)%Z.
        rewrite Z.quot_opp_l by lia.
        now rewrite Z.quot_div_nonneg by lia.
      * now rewrite Z.quot_div_nonneg by lia.
Qed.

End PyFloatFacts.

(** ** Sequences *)

Module PySeqFacts.
Import PySeq.

Lemma len_nonneg {A} (l : list A) : 0 <= len l.
Proof. unfold len; lia. Qed.

Lemma len_app {A} (l k : list A) : len (l ++ k) = len l + len k.
Proof. unfold len; rewrite length_app; lia. Qed.

Lemma len_repeat {A} (x : A) (n : Z) :
  0 <= n -> len (repeat x (Z.to_nat n)) = n.
Proof. intros; unfold len; rewrite repeat_length; lia. Qed.

Lemma len_firstn {A} (l : list A) (n : Z) :
  0 <= n -> len (firstn (Z.to_nat n) l) = Z.min n (len l).
Proof. intros; unfold len; rewrite length_firstn; lia. Qed.

Lemma len_skipn {A} (l : list A) (n : Z) :
  0 <= n -> len (skipn (Z.to_nat n) l) = Z.max 0 (len l - n).
Proof. intros; unfold len; rewrite length_skipn; lia. Qed.

Lemma norm_index_bounds (n i : Z) :
  0 <= n -> 0 <= norm_index n i <= n.
Proof.
  intros; unfold norm_index; destruct (Z.ltb_spec i 0); lia.
Qed.

Lemma norm_index_inside (n i : Z) :
  0 <= i <= n -> norm_index n i = i.
Proof.
  intros; unfold norm_index; destruct (Z.ltb_spec i 0); lia.
Qed.

(** A slice assignment never changes the size of the array. *)
Lemma assign_slice_len {A} (dst src r : list A) (lo hi : Z) :
  assign_slice dst lo hi src = Ok r -> len r = len dst.
Proof.
  unfold assign_slice.
  pose proof (len_nonneg dst) as Hd.
  pose proof (norm_index_bounds (len dst) lo Hd) as Ha.
  pose proof (norm_index_bounds (len dst) hi Hd) as Hb.
  set (a := norm_index (len dst) lo) in *.
  set (b := norm_index (len dst) hi) in *.
  set (m := Z.max 0 (b - a)).
  assert (Hm : 0 <= m /\ a + m <= len dst) by (unfold m; lia).
  destruct (Z.eqb_spec (len src) m) as [E|E]; intros Hr.
  - injection Hr as <-.
    rewrite !len_app, len_firstn, len_skipn by lia. lia.
  - destruct src as [|row [|]]; try discriminate.
    injection Hr as <-.
    rewrite !len_app, len_firstn, len_skipn, len_repeat by lia. lia.
Qed.

(** Writing a block that fits replaces exactly the frames under it. *)
Lemma assign_slice_fits {A} (dst src : list A) (y : Z) :
  0 <= y -> y + len src <= len dst ->
  assign_slice dst y (y + len src) src =
    Ok (firstn (Z.to_nat y) dst ++ src ++ skipn (Z.to_nat (y + len src)) dst).
Proof.
  intros Hy Hfit. pose proof (len_nonneg src) as Hs.
  unfold assign_slice.
  rewrite !norm_index_inside by lia.
  replace (Z.max 0 (y + len src - y)) with (len src) by lia.
  now rewrite Z.eqb_refl.
Qed.


(** The size of [l[:y]] is a function of the size of [l] and of [y]. *)
Lemma len_slice_to_gen {A} (l : list A) (y : Z) :
  len (slice_to l y) = norm_index (len l) y.
Proof.
  pose proof (len_nonneg l) as Hl.
  pose proof (norm_index_bounds (len l) y Hl) as Hb.
  unfold slice_to, slice.
  rewrite (norm_index_inside (len l) 0) by lia.
  rewrite len_firstn by lia. simpl skipn. lia.
Qed.

Lemma slice_to_firstn {A} (l : list A) (y : Z) :
  0 <= y <= len l -> slice_to l y = firstn (Z.to_nat y) l.
Proof.
  intros Hy. unfold slice_to, slice.
  rewrite (norm_index_inside (len l) 0), (norm_index_inside (len l) y) by lia.
  simpl skipn. now rewrite Z.sub_0_r.
Qed.

Lemma slice_to_0 {A} (l : list A) : slice_to l 0 = [].
Proof.
  pose proof (len_nonneg l). unfold slice_to, slice.
  rewrite (norm_index_inside (len l) 0) by lia. reflexivity.
Qed.

Lemma slice_inside {A} (l : list A) (lo hi : Z) :
  0 <= lo <= hi -> hi <= len l ->
  slice l lo hi = firstn (Z.to_nat (hi - lo)) (skipn (Z.to_nat lo) l).
Proof.
  intros H1 H2. unfold slice.
  now rewrite !norm_index_inside by lia.
Qed.

Lemma len_slice {A} (l : list A) (lo hi : Z) :
  0 <= lo <= hi -> hi <= len l -> len (slice l lo hi) = hi - lo.
Proof.
  intros H1 H2. rewrite slice_inside by assumption.
  rewrite len_firstn, len_skipn by lia. lia.
Qed.

Lemma firstn_app_len {A} (l k : list A) (n : Z) :
  len l = n -> firstn (Z.to_nat n) (l ++ k) = l.
Proof.
  intros <-. unfold len. rewrite Nat2Z.id.
  rewrite firstn_app, Nat.sub_diag, firstn_all. simpl. apply app_nil_r.
Qed.

Lemma firstn_then_firstn {A} (l : list A) (n m : nat) :
  firstn n l ++ firstn m (skipn n l) = firstn (n + m) l.
Proof.
  revert l. induction n as [|n IH]; intros l; [reflexivity|].
  destruct l as [|x l]; simpl.
  - now rewrite firstn_nil.
  - now rewrite IH.
Qed.

Lemma index_In {A} (l : list A) (i : Z) (x : A) :
  index l i = Ok x -> In x l.
Proof.
  unfold index.
  destruct (_ <? 0); [discriminate|].
  destruct (nth_error l _) eqn:E; [|discriminate].
  intros [= <-]. eapply nth_error_In; eauto.
Qed.

End PySeqFacts.

(** ** The loop body of fastAudio *)

Module ChunkFacts.
Import PySeq PySeqFacts FastAudio.

Section Step.
Context {F : Type} `{PyNum F}.
Variable phasevocoder : F -> Z -> list sample -> result (list sample).
Variable samplerate : Z.
Variable audioData : list sample.
Variable speeds : list F.
Variable fps : F.

Abbreviation step := (chunk_step phasevocoder samplerate audioData speeds fps).
Abbreviation sampleStart := (audioSampleStart samplerate fps).
Abbreviation sampleEnd := (audioSampleEnd samplerate fps).

(** A speed found in the table that is neither 1 nor 99999 is one of
    those that made the run load the processor: the branch that calls
    it never meets an unbound name. *)
Lemma processor_loaded (i : Z) (s : F) :
  index speeds i = Ok s ->
  eqb s unity = false -> eqb s sentinel = false ->
  speedsOtherThan1And99999 speeds = true.
Proof.
  intros Hi Hu Hs. apply index_In in Hi.
  unfold speedsOtherThan1And99999.
  apply Z.ltb_lt. unfold len.
  assert (Hin : In s (filter (fun x => negb (eqb x unity) && negb (eqb x sentinel)) speeds)).
  { apply filter_In. split; [assumption|]. now rewrite Hu, Hs. }
  destruct (filter _ speeds); [contradiction | simpl; lia].
Qed.

(** What one pass of the body computes, by the speed of the chunk. *)
Lemma step_dropped (st : state) (c : chunk) (a e : Z) (s : F) :
  sampleStart c = Ok a -> sampleEnd c a = Ok e ->
  index speeds (c2 c) = Ok s -> eqb s sentinel = true ->
  step st c = Ok st.
Proof.
  intros Ha He Hs Hd. unfold chunk_step.
  rewrite Ha; simpl. rewrite He; simpl. rewrite Hs; simpl.
  now rewrite Hd.
Qed.

Lemma step_unity (st : state) (c : chunk) (a e n : Z) (s : F)
  (buf : list sample) :
  sampleStart c = Ok a -> sampleEnd c a = Ok e ->
  index speeds (c2 c) = Ok s ->
  eqb s sentinel = false -> eqb s unity = true ->
  assign_slice (newAudio st) (yPointer st)
    (yPointer st + len (slice audioData a e)) (slice audioData a e) = Ok buf ->
  newSamples samplerate fps c s = Ok n ->
  step st c = Ok (State buf (yPointer st + n)).
Proof.
  intros Ha He Hs Hd Hu Hbuf Hn. unfold chunk_step.
  rewrite Ha; simpl. rewrite He; simpl. rewrite Hs; simpl.
  rewrite Hd, Hu; simpl. rewrite Hbuf; simpl. rewrite Hn; simpl.
  reflexivity.
Qed.

Lemma step_inv (st st' : state) (c : chunk) :
  step st c = Ok st' ->
  exists a e s,
    sampleStart c = Ok a /\ sampleEnd c a = Ok e /\
    index speeds (c2 c) = Ok s /\
    ((eqb s sentinel = true /\ st' = st) \/
     (eqb s sentinel = false /\
      exists buf n,
        newSamples samplerate fps c s = Ok n /\
        st' = State buf (yPointer st + n) /\
        ((eqb s unity = true /\
          assign_slice (newAudio st) (yPointer st)
            (yPointer st + len (slice audioData a e))
            (slice audioData a e) = Ok buf) \/
         (eqb s unity = false /\
          exists out,
            phasevocoder s samplerate (slice audioData a e) = Ok out /\
            assign_slice (newAudio st) (yPointer st)
              (yPointer st + len out) out = Ok buf)))).
Proof.
  unfold chunk_step. intros Hst.
  inv_rbind Hst. rename x into a, E into Ha.
  inv_rbind Hst. rename x into e, E into He.
  inv_rbind Hst. rename x into s, E into Hs.
  exists a, e, s. repeat split; try assumption.
  destruct (eqb s sentinel) eqn:Hd; simpl in Hst.
  - left. split; [reflexivity|]. now injection Hst.
  - right. split; [reflexivity|].
    inv_rbind Hst. rename x into buf, E into Hbuf.
    inv_rbind Hst. rename x into n, E into Hn.
    injection Hst as <-.
    exists buf, n. repeat split; try assumption.
    destruct (eqb s unity) eqn:Hu.
    + left. split; [reflexivity | assumption].
    + right. split; [reflexivity|].
      destruct (speedsOtherThan1And99999 speeds); [|discriminate].
      inv_rbind Hbuf. eauto.
Qed.

Lemma step_len (st st' : state) (c : chunk) :
  step st c = Ok st' -> len (newAudio st') = len (newAudio st).
Proof.
  intros Hst. apply step_inv in Hst.
  destruct Hst as (a & e & s & _ & _ & _ & [[_ ->] | (_ & buf & n & _ & -> & Hw)]).
  - reflexivity.
  - simpl. destruct Hw as [[_ Hw] | (_ & out & _ & Hw)];
      now apply assign_slice_len in Hw.
Qed.

Lemma step_advance (st st' : state) (c : chunk) :
  step st c = Ok st' ->
  exists n, advance samplerate speeds fps c = Ok n /\
            yPointer st' = yPointer st + n.
Proof.
  intros Hst. apply step_inv in Hst.
  destruct Hst as (a & e & s & _ & _ & Hs &
                   [[Hd ->] | (Hd & buf & n & Hn & -> & _)]);
    unfold advance; rewrite Hs; simpl; rewrite Hd.
  - exists 0. split; [reflexivity | lia].
  - exists n. split; [assumption | reflexivity].
Qed.

(** C2. A chunk whose speed-table entry is the drop sentinel 99999 leaves
    the engine's state as it found it: no frame of the output buffer is
    written and the write cursor after the chunk is the cursor before it.
    The pass over such a chunk ends normally as soon as its sample range
    could be computed, and never ends in a different state. *)
Theorem dropped_chunk_keeps_state (st : state) (c : chunk) (s : F) :
  index speeds (c2 c) = Ok s -> eqb s sentinel = true ->
  (forall st', step st c = Ok st' ->
     newAudio st' = newAudio st /\ yPointer st' = yPointer st) /\
  (forall a e, sampleStart c = Ok a -> sampleEnd c a = Ok e ->
     step st c = Ok st).
Proof.
  intros Hs Hd. split.
  - intros st' Hst. apply step_inv in Hst.
    destruct Hst as (a & e & s' & _ & _ & Hs' & [[_ ->] | (Hd' & _)]).
    + split; reflexivity.
    + rewrite Hs in Hs'. injection Hs' as <-. congruence.
  - intros a e Ha He. eapply step_dropped; eauto.
Qed.

(** C3, amended. For a chunk whose speed is neither 1 nor the drop
    sentinel the write cursor advances by
    [int(((end - start) / fps * samplerate) / speed)], the expected length
    truncated toward zero, whatever block the time-stretch processor
    returned: every normal end of the pass has advanced the cursor by that
    number, and the pass ends normally once the processor's block has been
    stored. *)
Theorem stretched_chunk_advance (st : state) (c : chunk) (s : F) :
  index speeds (c2 c) = Ok s ->
  eqb s sentinel = false -> eqb s unity = false ->
  (forall st', step st c = Ok st' ->
     exists n, newSamples samplerate fps c s = Ok n /\
               yPointer st' = yPointer st + n) /\
  (forall a e out buf n,
     sampleStart c = Ok a -> sampleEnd c a = Ok e ->
     phasevocoder s samplerate (slice audioData a e) = Ok out ->
     assign_slice (newAudio st) (yPointer st) (yPointer st + len out) out
       = Ok buf ->
     newSamples samplerate fps c s = Ok n ->
     step st c = Ok (State buf (yPointer st + n))).
Proof.
  intros Hs Hd Hu. split.
  - intros st' Hst. apply step_inv in Hst.
    destruct Hst as (a & e & s' & _ & _ & Hs' & Hcase).
    rewrite Hs in Hs'. injection Hs' as <-.
    destruct Hcase as [[Hd' _] | (_ & buf & n & Hn & -> & _)]; [congruence|].
    exists n. split; [assumption | reflexivity].
  - intros a e out buf n Ha He Hout Hbuf Hn.
    unfold chunk_step.
    rewrite Ha; simpl. rewrite He; simpl. rewrite Hs; simpl.
    rewrite Hd, Hu; simpl.
    rewrite (processor_loaded _ _ Hs Hu Hd).
    rewrite Hout; simpl. rewrite Hbuf; simpl. rewrite Hn; simpl.
    reflexivity.
Qed.

End Step.

(** One chunk of ten frames at 48000 Hz and 30 fps, dropped. *)
Lemma dropped_chunk_keeps_state_witness :
  let speeds : list PyFloat.float := [lit 99999 1; lit 1 1] in
  let st := State (repeat silence 8) 3 in
  let c := Chunk 0 10 0 in
  index speeds (c2 c) = Ok (lit 99999 1) /\
  eqb (lit 99999 1 : PyFloat.float) sentinel = true /\
  (forall st',
     chunk_step prefix_processor 48000 (ramp 8) speeds (lit 30 1) st c
       = Ok st' ->
     newAudio st' = newAudio st /\ yPointer st' = yPointer st) /\
  (forall a e,
     audioSampleStart 48000 (lit 30 1 : PyFloat.float) c = Ok a ->
     audioSampleEnd 48000 (lit 30 1 : PyFloat.float) c a = Ok e ->
     chunk_step prefix_processor 48000 (ramp 8) speeds (lit 30 1) st c
       = Ok st).
Proof.
  intros speeds st c.
  split; [reflexivity|]. split; [reflexivity|].
  apply (dropped_chunk_keeps_state prefix_processor 48000 (ramp 8) speeds
           (lit 30 1) st c (lit 99999 1)); reflexivity.
Defined.

(** Ten frames at 44100 Hz and 30 fps played sixteen times as fast are
    918.75 frames of audio: the cursor moves by 918, and [round] gives
    919. *)
Lemma cursor_advance_is_not_rounded :
  let speeds : list PyFloat.float := [lit 99999 1; lit 16 1] in
  let fps : PyFloat.float := lit 30 1 in
  let c := Chunk 0 10 1 in
  let st := State (repeat silence 2000) 0 in
  let pass := chunk_step prefix_processor 44100 (ramp 14700) speeds fps st c in
  cursor_after pass = Ok (yPointer st + 918) /\
  roundedSamples 44100 fps c (lit 16 1) = Ok 919 /\
  cursor_after pass <>
    rbind (roundedSamples 44100 fps c (lit 16 1))
          (fun r => Ok (yPointer st + r)).
Proof.
  vm_compute. repeat split; discriminate.
Qed.

(** The same chunk with a processor that hands back twice its input. *)
Lemma stretched_chunk_advance_witness :
  let speeds : list PyFloat.float := [lit 99999 1; lit 16 1] in
  let fps : PyFloat.float := lit 30 1 in
  let c := Chunk 0 10 1 in
  let st := State (repeat silence 64) 0 in
  let audio := ramp 20 in
  index speeds (c2 c) = Ok (lit 16 1) /\
  eqb (lit 16 1 : PyFloat.float) sentinel = false /\
  eqb (lit 16 1 : PyFloat.float) unity = false /\
  (forall st',
     chunk_step doubling_processor 44100 audio speeds fps st c = Ok st' ->
     exists n, newSamples 44100 fps c (lit 16 1) = Ok n /\
               yPointer st' = yPointer st + n) /\
  (forall a e out buf n,
     audioSampleStart 44100 fps c = Ok a ->
     audioSampleEnd 44100 fps c a = Ok e ->
     doubling_processor (lit 16 1 : PyFloat.float) 44100 (slice audio a e)
       = Ok out ->
     assign_slice (newAudio st) (yPointer st) (yPointer st + len out) out
       = Ok buf ->
     newSamples 44100 fps c (lit 16 1) = Ok n ->
     chunk_step doubling_processor 44100 audio speeds fps st c
       = Ok (State buf (yPointer st + n))).
Proof.
  intros speeds fps c st audio.
  split; [reflexivity|]. split; [reflexivity|]. split; [reflexivity|].
  apply (stretched_chunk_advance doubling_processor 44100 audio speeds fps
           st c (lit 16 1)); reflexivity.
Defined.

End ChunkFacts.

(** ** Whole runs of fastAudio *)

Module RunFacts.
Import PySeq PySeqFacts FastAudio ChunkFacts.

Lemma written_app (t u : list event) :
  written (t ++ u) =
    match written t with
    | Some w => Some w
    | None => written u
    end.
Proof.
  induction t as [|e t IH]; simpl; [reflexivity|].
  destruct e; auto.
Qed.

Lemma bind_Ok {A B} (t : list event) (a : A) (k : A -> M B) :
  bind (t, Ok a) k = (t ++ fst (k a), snd (k a)).
Proof. simpl. now destruct (k a). Qed.

Lemma bind_Raise {A B} (t : list event) (e : exn) (k : A -> M B) :
  bind (t, Raise e) k = (t, Raise e).
Proof. reflexivity. Qed.

Lemma guard_pass (chunks : list chunk) :
  guard_passes chunks = true -> empty_file_guard chunks = ret tt.
Proof.
  destruct chunks as [|c [|]]; simpl; try reflexivity.
  now destruct (c2 c =? 0).
Qed.

Lemma guard_stop (chunks : list chunk) :
  guard_passes chunks = false ->
  empty_file_guard chunks = raise (Fatal "Trying to create an empty file.").
Proof.
  destruct chunks as [|c [|]]; simpl; try discriminate.
  now destruct (c2 c =? 0).
Qed.

Lemma np_zeros_Ok (n : Z) :
  0 <= n -> np_zeros n = Ok (repeat silence (Z.to_nat n)).
Proof.
  intros Hn. unfold np_zeros. destruct (Z.ltb_spec n 0); [lia | reflexivity].
Qed.

Lemma np_zeros_Raise (n : Z) : n < 0 -> np_zeros n = Raise ValueError.
Proof.
  intros Hn. unfold np_zeros. destruct (Z.ltb_spec n 0); [reflexivity | lia].
Qed.

Section Run.
Context {F : Type} `{PyNum F}.
Variable getNewLength : list chunk -> list F -> F -> result F.
Variable phasevocoder : F -> Z -> list sample -> result (list sample).
Variable samplerate : Z.
Variable audioData : list sample.
Variable speeds : list F.
Variable fps : F.

Abbreviation run_loop := (loop phasevocoder samplerate audioData speeds fps).
Abbreviation run := (fastAudio getNewLength phasevocoder samplerate audioData speeds fps).

(** The loop reports progress and nothing else. *)
Lemma loop_writes_nothing (chunks : list chunk) :
  forall k st, written (fst (run_loop k chunks st)) = None.
Proof.
  induction chunks as [|c rest IH]; intros k st; simpl; [reflexivity|].
  unfold lift.
  destruct (chunk_step _ _ _ _ _ st c) as [st'|e]; simpl; [|reflexivity].
  specialize (IH (S k) st').
  destruct (run_loop (S k) rest st') as [t r]. simpl in *. exact IH.
Qed.

(** A loop that came to its end kept the size of the buffer and moved the
    cursor by the sum of the advances of the chunks. *)
Lemma loop_Ok (chunks : list chunk) :
  forall k st st',
    snd (run_loop k chunks st) = Ok st' ->
    len (newAudio st') = len (newAudio st) /\
    total_advance samplerate speeds fps chunks = Ok (yPointer st' - yPointer st).
Proof.
  induction chunks as [|c rest IH]; intros k st st'; simpl.
  - intros [= <-]. split; [reflexivity | f_equal; lia].
  - unfold lift.
    destruct (chunk_step _ _ _ _ _ st c) as [st1|e] eqn:Hstep; simpl;
      [|discriminate].
    specialize (IH (S k) st1 st').
    destruct (run_loop (S k) rest st1) as [t r]. simpl in *.
    intros Hr. destruct (IH Hr) as [Hlen Hadv].
    pose proof (step_len _ _ _ _ _ _ _ _ Hstep) as Hlen1.
    destruct (step_advance _ _ _ _ _ _ _ _ Hstep) as (n & Hn & Hy).
    split; [congruence|].
    rewrite Hn; simpl. rewrite Hadv; simpl. f_equal. lia.
Qed.

(** A run in which nothing raises. *)
Lemma run_through (chunks : list chunk) (cap : Z) (st : state) :
  guard_passes chunks = true ->
  estLeng getNewLength samplerate speeds fps chunks = Ok cap ->
  0 <= cap ->
  snd (run_loop 0 chunks (State (repeat silence (Z.to_nat cap)) 0)) = Ok st ->
  diagnostics samplerate fps (yPointer st) = Ok tt ->
  run chunks =
    (preamble speeds ++ [EvRead; EvAlloc cap] ++
     fst (run_loop 0 chunks (State (repeat silence (Z.to_nat cap)) 0)) ++
     epilogue samplerate st,
     Ok tt).
Proof.
  intros Hg Hest Hcap Hloop Hdiag.
  unfold fastAudio, preamble.
  rewrite (guard_pass _ Hg), Hest.
  destruct (run_loop 0 chunks _) as [t r] eqn:El. simpl in Hloop. subst r.
  unfold diagnostics in Hdiag.
  destruct (samplesPerFrame samplerate fps) as [pf|e1] eqn:E1;
    [|discriminate].
  destruct (expectedLength samplerate fps (yPointer st)) as [x|e2] eqn:E2;
    [|discriminate].
  destruct (speedsOtherThan1And99999 speeds); simpl;
    rewrite (np_zeros_Ok _ Hcap); simpl;
    rewrite El; simpl; rewrite ?E1; simpl; rewrite E2; simpl;
    unfold epilogue; reflexivity.
Qed.

(** Only such a run gets to [write]. *)
Lemma run_written (chunks : list chunk) (rate : Z) (out : list sample) :
  written (fst (run chunks)) = Some (rate, out) ->
  exists cap st,
    guard_passes chunks = true /\
    estLeng getNewLength samplerate speeds fps chunks = Ok cap /\
    0 <= cap /\
    snd (run_loop 0 chunks (State (repeat silence (Z.to_nat cap)) 0)) = Ok st /\
    diagnostics samplerate fps (yPointer st) = Ok tt /\
    rate = samplerate /\ out = slice_to (newAudio st) (yPointer st).
Proof.
  destruct (guard_passes chunks) eqn:Hg.
  2:{ unfold fastAudio. rewrite (guard_stop _ Hg).
      destruct (speedsOtherThan1And99999 speeds); simpl; discriminate. }
  destruct (estLeng getNewLength samplerate speeds fps chunks) as [cap|e] eqn:Hest.
  2:{ unfold fastAudio. rewrite (guard_pass _ Hg), Hest.
      destruct (speedsOtherThan1And99999 speeds); simpl; discriminate. }
  destruct (Z.ltb_spec cap 0) as [Hneg|Hcap].
  { unfold fastAudio. rewrite (guard_pass _ Hg), Hest.
    destruct (speedsOtherThan1And99999 speeds); simpl;
      rewrite (np_zeros_Raise _ Hneg); discriminate. }
  destruct (run_loop 0 chunks (State (repeat silence (Z.to_nat cap)) 0))
    as [t [st|e]] eqn:El.
  2:{ unfold fastAudio. rewrite (guard_pass _ Hg), Hest.
      pose proof (loop_writes_nothing chunks 0
                    (State (repeat silence (Z.to_nat cap)) 0)) as Hw.
      rewrite El in Hw. simpl in Hw.
      destruct (speedsOtherThan1And99999 speeds); simpl;
        rewrite (np_zeros_Ok _ Hcap); simpl;
        rewrite El; simpl; rewrite Hw; discriminate. }
  pose proof (loop_writes_nothing chunks 0
                (State (repeat silence (Z.to_nat cap)) 0)) as Hw.
  destruct (diagnostics samplerate fps (yPointer st)) as [[]|e] eqn:Hd.
  2:{ unfold fastAudio. rewrite (guard_pass _ Hg), Hest.
      rewrite El in Hw. simpl in Hw.
      unfold diagnostics in Hd.
      destruct (samplesPerFrame samplerate fps) as [pf|e1] eqn:E1.
      - destruct (expectedLength samplerate fps (yPointer st))
          as [x|e2] eqn:E2; [discriminate|].
        destruct (speedsOtherThan1And99999 speeds); simpl;
          rewrite (np_zeros_Ok _ Hcap); simpl;
          rewrite El; simpl; rewrite ?E1; simpl; rewrite E2; simpl;
          rewrite written_app, Hw; discriminate.
      - destruct (speedsOtherThan1And99999 speeds); simpl;
          rewrite (np_zeros_Ok _ Hcap); simpl;
          rewrite El; simpl; rewrite ?E1; simpl;
          rewrite written_app, Hw; discriminate. }
  intros Hwr.
  assert (Hloop : snd (run_loop 0 chunks
                         (State (repeat silence (Z.to_nat cap)) 0)) = Ok st)
    by now rewrite El.
  rewrite (run_through chunks cap st Hg Hest Hcap Hloop Hd) in Hwr.
  unfold preamble in Hwr.
  exists cap, st.
  destruct (speedsOtherThan1And99999 speeds); simpl in Hwr;
    rewrite written_app, Hw in Hwr; simpl in Hwr;
    injection Hwr as <- <-; repeat split; assumption.
Qed.

(** A schedule that passes the guard has its source read, and its buffer
    allocated once the capacity is known. *)
Lemma run_reads (chunks : list chunk) :
  guard_passes chunks = true ->
  exists rest, fst (run chunks) = preamble speeds ++ EvRead :: rest.
Proof.
  intros Hg. unfold fastAudio, preamble. rewrite (guard_pass _ Hg).
  unfold ret, emit.
  destruct (speedsOtherThan1And99999 speeds);
    repeat (rewrite bind_Ok; cbv beta); cbn [fst app];
    eexists; reflexivity.
Qed.

Lemma run_allocates (chunks : list chunk) (cap : Z) :
  guard_passes chunks = true ->
  estLeng getNewLength samplerate speeds fps chunks = Ok cap ->
  0 <= cap ->
  exists rest,
    fst (run chunks) = preamble speeds ++ EvRead :: EvAlloc cap :: rest.
Proof.
  intros Hg Hest Hcap. unfold fastAudio, preamble.
  rewrite (guard_pass _ Hg), Hest.
  unfold ret, emit, lift.
  destruct (speedsOtherThan1And99999 speeds);
    repeat (rewrite bind_Ok; cbv beta); rewrite (np_zeros_Ok _ Hcap);
    repeat (rewrite bind_Ok; cbv beta); cbn [fst app];
    eexists; reflexivity.
Qed.


End Run.

(** C9. The length of what fastAudio writes does not depend on the PCM
    samples: two runs over the same chunks, speeds, frame rate and sample
    rate that both get to [write] hand over buffers of the same length,
    whatever the two source buffers (and the blocks the processor made of
    them) were.  That length is fixed by the estimated capacity and by the
    sum of the cursor advances, neither of which reads a sample. *)
Theorem output_length_ignores_samples {F : Type} `{PyNum F}
  (getNewLength : list chunk -> list F -> F -> result F)
  (pv1 pv2 : F -> Z -> list sample -> result (list sample))
  (samplerate : Z) (speeds : list F) (fps : F) (chunks : list chunk)
  (audio1 audio2 out1 out2 : list sample) (rate1 rate2 : Z) :
  written (fst (fastAudio getNewLength pv1 samplerate audio1 speeds fps chunks))
    = Some (rate1, out1) ->
  written (fst (fastAudio getNewLength pv2 samplerate audio2 speeds fps chunks))
    = Some (rate2, out2) ->
  len out1 = len out2 /\ rate1 = rate2 /\
  exists cap y,
    estLeng getNewLength samplerate speeds fps chunks = Ok cap /\
    total_advance samplerate speeds fps chunks = Ok y /\
    len out1 = norm_index cap y.
Proof.
  intros H1 H2.
  apply run_written in H1.
  destruct H1 as (cap1 & st1 & _ & Hest1 & Hcap1 & Hl1 & _ & -> & ->).
  apply run_written in H2.
  destruct H2 as (cap2 & st2 & _ & Hest2 & Hcap2 & Hl2 & _ & -> & ->).
  rewrite Hest1 in Hest2. injection Hest2 as <-.
  apply loop_Ok in Hl1. destruct Hl1 as [Hlen1 Hadv1].
  apply loop_Ok in Hl2. destruct Hl2 as [Hlen2 Hadv2].
  simpl in Hlen1, Hadv1, Hlen2, Hadv2.
  rewrite len_repeat in Hlen1, Hlen2 by assumption.
  rewrite Z.sub_0_r in Hadv1, Hadv2.
  rewrite Hadv1 in Hadv2. injection Hadv2 as Hy.
  rewrite !len_slice_to_gen, Hlen1, Hlen2, Hy.
  split; [reflexivity|]. split; [reflexivity|].
  exists cap1, (yPointer st2). rewrite <- Hy at 1. auto.
Qed.

(** C1, amended. The schedule [(0,10,i), (10,20,i)] at unity speed
    reproduces the source samples of frames [0,20) byte for byte when the
    frame-to-sample conversions agree (ten frames are [n] samples from
    sample 0 and from sample [n], twenty frames are [n + n], and the
    cursor advances by [n]), the source holds these [n + n] samples and
    the estimated capacity has room for them. *)
Theorem two_unity_chunks_copy_source {F : Type} `{PyNum F}
  (getNewLength : list chunk -> list F -> F -> result F)
  (phasevocoder : F -> Z -> list sample -> result (list sample))
  (samplerate : Z) (audioData : list sample) (speeds : list F) (fps : F)
  (i : Z) (s : F) (n cap : Z) :
  let chunks := [Chunk 0 10 i; Chunk 10 20 i] in
  index speeds i = Ok s ->
  eqb s sentinel = false -> eqb s unity = true ->
  audioSampleStart samplerate fps (Chunk 0 10 i) = Ok 0 ->
  audioSampleEnd samplerate fps (Chunk 0 10 i) 0 = Ok n ->
  audioSampleStart samplerate fps (Chunk 10 20 i) = Ok n ->
  audioSampleEnd samplerate fps (Chunk 10 20 i) n = Ok (n + n) ->
  audioSampleEnd samplerate fps (Chunk 0 20 i) 0 = Ok (n + n) ->
  newSamples samplerate fps (Chunk 0 10 i) s = Ok n ->
  estLeng getNewLength samplerate speeds fps chunks = Ok cap ->
  0 <= n -> n + n <= cap -> n + n <= len audioData ->
  diagnostics samplerate fps (n + n) = Ok tt ->
  snd (fastAudio getNewLength phasevocoder samplerate audioData speeds fps
         chunks) = Ok tt /\
  written (fst (fastAudio getNewLength phasevocoder samplerate audioData
                  speeds fps chunks))
    = Some (samplerate, slice audioData 0 (n + n)).
Proof.
  intros chunks Hs Hd Hu Ha1 He1 Ha2 He2 _ Hn Hest Hn0 Hcap Haudio Hdiag.
  set (zeros := repeat silence (Z.to_nat cap)).
  set (blk1 := slice audioData 0 n).
  set (blk2 := slice audioData n (n + n)).
  assert (Hz : len zeros = cap) by (apply len_repeat; lia).
  assert (Hb1 : len blk1 = n) by (unfold blk1; rewrite len_slice; lia).
  assert (Hb2 : len blk2 = n) by (unfold blk2; rewrite len_slice; lia).
  set (buf1 := firstn (Z.to_nat 0) zeros ++ blk1
               ++ skipn (Z.to_nat (0 + len blk1)) zeros).
  assert (Hw1 : assign_slice zeros 0 (0 + len blk1) blk1 = Ok buf1)
    by (apply assign_slice_fits; lia).
  assert (Hl1 : len buf1 = cap)
    by (rewrite (assign_slice_len _ _ _ _ _ Hw1); exact Hz).
  set (buf2 := firstn (Z.to_nat n) buf1 ++ blk2
               ++ skipn (Z.to_nat (n + len blk2)) buf1).
  assert (Hw2 : assign_slice buf1 n (n + len blk2) blk2 = Ok buf2)
    by (apply assign_slice_fits; lia).
  assert (Hl2 : len buf2 = cap)
    by (rewrite (assign_slice_len _ _ _ _ _ Hw2); exact Hl1).
  assert (Hstep1 : chunk_step phasevocoder samplerate audioData speeds fps
                     (State zeros 0) (Chunk 0 10 i) = Ok (State buf1 n)).
  { exact (step_unity phasevocoder samplerate audioData speeds fps
             (State zeros 0) (Chunk 0 10 i) 0 n n s buf1
             Ha1 He1 Hs Hd Hu Hw1 Hn). }
  assert (Hstep2 : chunk_step phasevocoder samplerate audioData speeds fps
                     (State buf1 n) (Chunk 10 20 i)
                   = Ok (State buf2 (n + n)))
    by exact (step_unity phasevocoder samplerate audioData speeds fps
                (State buf1 n) (Chunk 10 20 i) n (n + n) n s buf2
                Ha2 He2 Hs Hd Hu Hw2 Hn).
  assert (Hloop : loop phasevocoder samplerate audioData speeds fps 0 chunks
                    (State zeros 0)
                  = ([EvTick 0; EvTick 1], Ok (State buf2 (n + n)))).
  { unfold chunks. cbn [loop]. rewrite Hstep1. cbn [lift bind emit].
    rewrite Hstep2. reflexivity. }
  assert (Hrun := run_through getNewLength phasevocoder samplerate audioData
                    speeds fps chunks cap (State buf2 (n + n))).
  fold zeros in Hrun. rewrite Hloop in Hrun. cbn [yPointer fst snd] in Hrun.
  specialize (Hrun eq_refl Hest ltac:(lia) eq_refl Hdiag).
  rewrite Hrun. split; [reflexivity|].
  assert (Hout : slice_to buf2 (n + n) = slice audioData 0 (n + n)).
  { rewrite slice_to_firstn by lia.
    rewrite slice_inside by lia.
    unfold buf2.
    assert (Hpre : firstn (Z.to_nat n) buf1 = blk1).
    { unfold buf1. cbn [Z.to_nat firstn app].
      apply firstn_app_len. lia. }
    rewrite Hpre, app_assoc.
    rewrite firstn_app_len by (rewrite len_app; lia).
    unfold blk1, blk2. rewrite !slice_inside by lia.
    cbn [Z.to_nat skipn].
    replace (n - 0) with n by lia.
    replace (n + n - n) with n by lia.
    replace (n + n - 0) with (n + n) by lia.
    rewrite firstn_then_firstn. f_equal. lia. }
  cbn [fst]. unfold preamble, epilogue. cbn [newAudio yPointer].
  rewrite Hout.
  destruct (speedsOtherThan1And99999 speeds); reflexivity.
Qed.

(** Ten frames at 44100 Hz and 29.97 fps are 14714.7 samples.  Each of
    the two chunks moves the cursor by 14714, so 29428 frames are written,
    while frames [0,20) of the source are its samples [0,29429).  And a
    source that ends before the schedule does (6000 samples for twenty
    frames at 8000 Hz and 25 fps, which are 6400) is written out followed
    by silence. *)
Lemma two_unity_chunks_differ_from_source :
  let speeds : list PyFloat.float := [lit 99999 1; lit 1 1] in
  let chunks := [Chunk 0 10 1; Chunk 10 20 1] in
  let ntsc : PyFloat.float := lit 2997 100 in
  let long_run :=
    fastAudio getNewLength_spec prefix_processor 44100 (ramp 30000) speeds
      ntsc chunks in
  let short_run :=
    fastAudio getNewLength_spec prefix_processor 8000 (ramp 6000) speeds
      (lit 25 1) chunks in
  (audioSampleStart 44100 ntsc (Chunk 0 20 1) = Ok 0 /\
   audioSampleEnd 44100 ntsc (Chunk 0 20 1) 0 = Ok 29429 /\
   len (slice (ramp 30000) 0 29429) = 29429 /\
   snd long_run = Ok tt /\
   written_length (fst long_run) = Some (44100, 29428) /\
   written (fst long_run) <> Some (44100, slice (ramp 30000) 0 29429)) /\
  (audioSampleStart 8000 (lit 25 1 : PyFloat.float) (Chunk 0 20 1) = Ok 0 /\
   audioSampleEnd 8000 (lit 25 1 : PyFloat.float) (Chunk 0 20 1) 0 = Ok 6400 /\
   slice (ramp 6000) 0 6400 = ramp 6000 /\
   slice (ramp 6000) 0 3200 ++ slice (ramp 6000) 3200 6400 = ramp 6000 /\
   snd short_run = Ok tt /\
   written (fst short_run)
     = Some (8000, ramp 6000 ++ repeat silence 400) /\
   written (fst short_run) <> Some (8000, slice (ramp 6000) 0 6400)).
Proof.
  intros speeds chunks ntsc long_run short_run.
  assert (Hlong : written_length (fst long_run) = Some (44100, 29428))
    by (vm_compute; reflexivity).
  assert (Hshort : written_length (fst short_run) = Some (8000, 6400))
    by (vm_compute; reflexivity).
  split.
  - split; [vm_compute; reflexivity|]. split; [vm_compute; reflexivity|].
    split; [vm_compute; reflexivity|]. split; [vm_compute; reflexivity|].
    split; [exact Hlong|].
    intros Heq.
    assert (Hlen : written_length (fst long_run) = Some (44100, 29429))
      by (unfold written_length; rewrite Heq; vm_compute; reflexivity).
    rewrite Hlong in Hlen. discriminate Hlen.
  - split; [vm_compute; reflexivity|]. split; [vm_compute; reflexivity|].
    split; [vm_compute; reflexivity|]. split; [vm_compute; reflexivity|].
    split; [vm_compute; reflexivity|]. split; [vm_compute; reflexivity|].
    intros Heq.
    assert (Hlen : written_length (fst short_run) = Some (8000, 6000))
      by (unfold written_length; rewrite Heq; vm_compute; reflexivity).
    rewrite Hshort in Hlen. discriminate Hlen.
Qed.

(** Twenty frames at 8000 Hz and 25 fps are 6400 samples, ten are 3200. *)
Lemma two_unity_chunks_copy_source_witness :
  let speeds : list PyFloat.float := [lit 99999 1; lit 1 1] in
  let fps : PyFloat.float := lit 25 1 in
  let chunks := [Chunk 0 10 1; Chunk 10 20 1] in
  index speeds 1 = Ok (lit 1 1) /\
  eqb (lit 1 1 : PyFloat.float) sentinel = false /\
  eqb (lit 1 1 : PyFloat.float) unity = true /\
  audioSampleStart 8000 fps (Chunk 0 10 1) = Ok 0 /\
  audioSampleEnd 8000 fps (Chunk 0 10 1) 0 = Ok 3200 /\
  audioSampleStart 8000 fps (Chunk 10 20 1) = Ok 3200 /\
  audioSampleEnd 8000 fps (Chunk 10 20 1) 3200 = Ok (3200 + 3200) /\
  audioSampleEnd 8000 fps (Chunk 0 20 1) 0 = Ok (3200 + 3200) /\
  newSamples 8000 fps (Chunk 0 10 1) (lit 1 1) = Ok 3200 /\
  estLeng getNewLength_spec 8000 speeds fps chunks = Ok 25600 /\
  0 <= 3200 /\ 3200 + 3200 <= 25600 /\ 3200 + 3200 <= len (ramp 7000) /\
  diagnostics 8000 fps (3200 + 3200) = Ok tt /\
  snd (fastAudio getNewLength_spec prefix_processor 8000 (ramp 7000) speeds
         fps chunks) = Ok tt /\
  written (fst (fastAudio getNewLength_spec prefix_processor 8000 (ramp 7000)
                  speeds fps chunks))
    = Some (8000, slice (ramp 7000) 0 (3200 + 3200)).
Proof.
  intros speeds fps chunks.
  pose proof (two_unity_chunks_copy_source getNewLength_spec prefix_processor
                8000 (ramp 7000) speeds fps 1 (lit 1 1) 3200 25600) as Hthm.
  assert (H1 : index speeds 1 = Ok (lit 1 1)) by reflexivity.
  assert (H2 : eqb (lit 1 1 : PyFloat.float) sentinel = false) by reflexivity.
  assert (H3 : eqb (lit 1 1 : PyFloat.float) unity = true) by reflexivity.
  assert (H4 : audioSampleStart 8000 fps (Chunk 0 10 1) = Ok 0)
    by (vm_compute; reflexivity).
  assert (H5 : audioSampleEnd 8000 fps (Chunk 0 10 1) 0 = Ok 3200)
    by (vm_compute; reflexivity).
  assert (H6 : audioSampleStart 8000 fps (Chunk 10 20 1) = Ok 3200)
    by (vm_compute; reflexivity).
  assert (H7 : audioSampleEnd 8000 fps (Chunk 10 20 1) 3200 = Ok (3200 + 3200))
    by (vm_compute; reflexivity).
  assert (H8 : audioSampleEnd 8000 fps (Chunk 0 20 1) 0 = Ok (3200 + 3200))
    by (vm_compute; reflexivity).
  assert (H9 : newSamples 8000 fps (Chunk 0 10 1) (lit 1 1) = Ok 3200)
    by (vm_compute; reflexivity).
  assert (H10 : estLeng getNewLength_spec 8000 speeds fps chunks = Ok 25600)
    by (vm_compute; reflexivity).
  assert (H11 : 0 <= 3200) by lia.
  assert (H12 : 3200 + 3200 <= 25600) by lia.
  assert (H13 : 3200 + 3200 <= len (ramp 7000))
    by (vm_compute; discriminate).
  assert (H14 : diagnostics 8000 fps (3200 + 3200) = Ok tt)
    by (vm_compute; reflexivity).
  split; [exact H1|]. split; [exact H2|]. split; [exact H3|].
  split; [exact H4|]. split; [exact H5|]. split; [exact H6|].
  split; [exact H7|]. split; [exact H8|]. split; [exact H9|].
  split; [exact H10|]. split; [exact H11|]. split; [exact H12|].
  split; [exact H13|]. split; [exact H14|].
  exact (Hthm H1 H2 H3 H4 H5 H6 H7 H8 H9 H10 H11 H12 H13 H14).
Defined.

(** *** Single-chunk schedules *)

(** C4. The guard that reports 'Trying to create an empty file.' looks at
    the speed index of the only chunk, not at the speed the index resolves
    to.  With the speed table [1, 99999] and the single chunk (0, 10, 1),
    whose speed is the drop sentinel, no fatal error is reported: the run
    reads the source, allocates 88200 frames and writes an output of zero
    samples.  With the table [99999, 1] the same chunk at index 0 is
    stopped before the source is read; and so is, with the table [2, 1],
    a chunk at index 0 that would have produced audio. *)
Theorem dropped_single_chunk_is_written_empty :
  let fps : PyFloat.float := lit 2997 100 in
  let engine := fastAudio getNewLength_spec prefix_processor 44100 (ramp 16000) in
  index ([lit 1 1; lit 99999 1] : list PyFloat.float) 1 = Ok sentinel /\
  engine [lit 1 1; lit 99999 1] fps [Chunk 0 10 1]
    = ([EvRead; EvAlloc 88200; EvTick 0; EvDebug "Total Samples";
        EvDebug "Samples per Frame"; EvDebug "Expected video length";
        EvWrite 44100 []],
       Ok tt) /\
  engine [lit 99999 1; lit 1 1] fps [Chunk 0 10 0]
    = ([], Raise (Fatal "Trying to create an empty file.")) /\
  engine [lit 2 1; lit 1 1] fps [Chunk 0 10 0]
    = ([EvLoadProcessor], Raise (Fatal "Trying to create an empty file.")).
Proof.
  vm_compute. repeat split; reflexivity.
Qed.

(** The only chunk spans no frame, and the run goes through. *)
Lemma zero_length_single_chunk_is_processed :
  fastAudio getNewLength_spec prefix_processor 44100 (ramp 16000)
    ([lit 99999 1; lit 1 1] : list PyFloat.float) (lit 2997 100)
    [Chunk 5 5 1]
  = ([EvRead; EvAlloc 88200; EvTick 0; EvDebug "Total Samples";
      EvDebug "Samples per Frame"; EvDebug "Expected video length";
      EvWrite 44100 []],
     Ok tt).
Proof.
  vm_compute. reflexivity.
Qed.

(** In double precision a chunk that spans no frame moves the cursor by
    nothing, whenever the move is computed at all. *)
Lemma zero_length_advance (samplerate : Z) (fps s : PyFloat.float)
  (c : chunk) (n : Z) :
  c0 c = c1 c ->
  newSamples samplerate fps c s = Ok n -> n = 0.
Proof.
  intros Hc. unfold newSamples, int_div_float, float_mul_int, truediv.
  rewrite Hc, Z.sub_diag.
  change (of_int 0) with (Ok (S754_zero false) : result PyFloat.float).
  cbn [rbind is_zero binary64].
  destruct fps as [b | b | | b m e]; cbn; try discriminate;
    destruct (PyFloat.float_of_int samplerate) as [[b' | b' | | b' m' e'] | ];
    cbn; try discriminate;
    destruct s as [b2 | b2 | | b2 m2 e2]; cbn; try discriminate;
    intros [= <-]; reflexivity.
Qed.

(** C5, amended. A schedule whose only chunk spans no frame is not
    rejected for that.  When the speed index of the chunk is not 0, fastAudio
    reads the source and, once the capacity is estimated, allocates the
    output buffer; and a run that gets to [write] hands over an output of
    zero samples. *)
Theorem zero_length_single_chunk_runs
  (getNewLength : list chunk -> list PyFloat.float -> PyFloat.float
                  -> result PyFloat.float)
  (phasevocoder : PyFloat.float -> Z -> list sample -> result (list sample))
  (samplerate : Z) (audioData : list sample) (speeds : list PyFloat.float)
  (fps : PyFloat.float) (c : chunk) :
  c0 c = c1 c -> c2 c <> 0 ->
  let trace :=
    fst (fastAudio getNewLength phasevocoder samplerate audioData speeds fps
           [c]) in
  (exists rest, trace = preamble speeds ++ EvRead :: rest) /\
  (forall cap,
     estLeng getNewLength samplerate speeds fps [c] = Ok cap -> 0 <= cap ->
     exists rest, trace = preamble speeds ++ EvRead :: EvAlloc cap :: rest) /\
  (forall rate out, written trace = Some (rate, out) ->
     rate = samplerate /\ out = []).
Proof.
  intros Hc Hi trace.
  assert (Hg : guard_passes [c] = true).
  { simpl. destruct (Z.eqb_spec (c2 c) 0); [contradiction | reflexivity]. }
  split; [apply run_reads; exact Hg|].
  split; [intros cap Hest Hcap; apply run_allocates; assumption|].
  intros rate out Hw. apply run_written in Hw.
  destruct Hw as (cap & st & _ & _ & _ & Hl & _ & -> & ->).
  split; [reflexivity|].
  apply loop_Ok in Hl. destruct Hl as [_ Hadv].
  cbn [yPointer total_advance] in Hadv.
  inv_rbind Hadv. rename x into n, E into Hn. cbn in Hadv.
  injection Hadv as Hy.
  assert (n = 0).
  { unfold advance in Hn. inv_rbind Hn.
    destruct (eqb x sentinel).
    - now injection Hn.
    - eapply zero_length_advance; eauto. }
  assert (Hy0 : yPointer st = 0) by lia.
  rewrite Hy0. apply slice_to_0.
Qed.

Lemma zero_length_single_chunk_runs_witness :
  let speeds : list PyFloat.float := [lit 99999 1; lit 1 1] in
  let fps : PyFloat.float := lit 2997 100 in
  let c := Chunk 5 5 1 in
  let trace :=
    fst (fastAudio getNewLength_spec prefix_processor 44100 (ramp 16000)
           speeds fps [c]) in
  c0 c = c1 c /\ c2 c <> 0 /\
  (exists rest, trace = preamble speeds ++ EvRead :: rest) /\
  (forall cap,
     estLeng getNewLength_spec 44100 speeds fps [c] = Ok cap -> 0 <= cap ->
     exists rest, trace = preamble speeds ++ EvRead :: EvAlloc cap :: rest) /\
  (forall rate out, written trace = Some (rate, out) ->
     rate = 44100 /\ out = []).
Proof.
  intros speeds fps c trace.
  assert (H1 : c0 c = c1 c) by reflexivity.
  assert (H2 : c2 c <> 0) by discriminate.
  split; [exact H1|]. split; [exact H2|].
  pose proof (zero_length_single_chunk_runs getNewLength_spec prefix_processor
                44100 (ramp 16000) speeds fps c) as Hthm.
  exact (Hthm H1 H2).
Defined.

(** *** Runs at 8000 Hz and 25 fps *)

Abbreviation demo_run audio :=
  (fastAudio getNewLength_spec prefix_processor 8000 audio demo_speeds
     (lit 25 1) demo_chunks).



Lemma output_length_ignores_samples_witness :
  let out (audio : list sample) :=
    match written (fst (demo_run audio)) with
    | Some (_, data) => data
    | None => []
    end in
  let quiet := repeat silence 1500 in
  written (fst (demo_run (ramp 2000))) = Some (8000, out (ramp 2000)) /\
  written (fst (demo_run quiet)) = Some (8000, out quiet) /\
  len (out (ramp 2000)) = len (out quiet) /\ 8000 = 8000 /\
  exists cap y,
    estLeng getNewLength_spec 8000 demo_speeds (lit 25 1) demo_chunks = Ok cap /\
    total_advance 8000 demo_speeds (lit 25 1) demo_chunks = Ok y /\
    len (out (ramp 2000)) = norm_index cap y.
Proof.
  intros out quiet.
  assert (H1 : written (fst (demo_run (ramp 2000)))
               = Some (8000, out (ramp 2000))) by (vm_compute; reflexivity).
  assert (H2 : written (fst (demo_run quiet)) = Some (8000, out quiet))
    by (vm_compute; reflexivity).
  split; [assumption|]. split; [assumption|].
  pose proof (output_length_ignores_samples getNewLength_spec
                prefix_processor prefix_processor 8000 demo_speeds (lit 25 1)
                demo_chunks (ramp 2000) quiet (out (ramp 2000)) (out quiet)
                8000 8000) as Hthm.
  exact (Hthm H1 H2).
Defined.

End RunFacts.

(** ** The cursor advance against the exact quotient *)

Module ExactFacts.
Import PySeq FastAudio.
Local Open Scope Q_scope.

Lemma trunc_floor (q : Q) : 0 <= q -> Exact.trunc q = Qfloor q.
Proof.
  destruct q as [n d]. unfold Qle, Exact.trunc, Qfloor. simpl.
  intros Hn. rewrite Z.mul_1_r in Hn.
  apply Z.quot_div_nonneg; lia.
Qed.

(** In double precision the bound breaks where the conversions round
    apart.  At 48000 Hz and 30 fps the chunk of the one frame 2^54 has no
    source sample at all, because adding its 1600 samples to the start
    sample is lost in rounding, yet at speed 2 the cursor advances by 800.
    And at 96000 Hz and 30 fps the 1003 frames from 0 are 3209600 source
    samples, but at speed 1.7 the cursor advances by 1887999, more than one
    sample less than 3209600 divided by the double 1.7. *)
Lemma advance_breaks_bound_in_double_precision :
  let fps : PyFloat.float := lit 30 1 in
  let far := Chunk (2 ^ 54) (2 ^ 54 + 1) 1 in
  let near := Chunk 0 1003 1 in
  (audioSampleStart 48000 fps far = Ok 28823037615171174400%Z /\
   audioSampleEnd 48000 fps far 28823037615171174400
     = Ok 28823037615171174400%Z /\
   newSamples 48000 fps far (lit 2 1) = Ok 800%Z /\
   ~ (800 <= 28823037615171174400 - 28823037615171174400)%Z) /\
  (PyFloat.value (lit 17 10) = Some (7656119366529843 # 4503599627370496) /\
   1 < 7656119366529843 # 4503599627370496 /\
   audioSampleStart 96000 fps near = Ok 0%Z /\
   audioSampleEnd 96000 fps near 0 = Ok 3209600%Z /\
   newSamples 96000 fps near (lit 17 10) = Ok 1887999%Z /\
   ~ (inject_Z (3209600 - 0) / (7656119366529843 # 4503599627370496) - 1
      < inject_Z 1887999)).
Proof.
  intros fps far near. split.
  - split; [vm_compute; reflexivity|]. split; [vm_compute; reflexivity|].
    split; [vm_compute; reflexivity|]. lia.
  - split; [vm_compute; reflexivity|]. split; [reflexivity|].
    split; [vm_compute; reflexivity|]. split; [vm_compute; reflexivity|].
    split; [vm_compute; reflexivity|].
    vm_compute. intros E. discriminate E.
Qed.

End ExactFacts.

(** ** Doubles: how the operations round *)

Module FloatFacts.
Import PySeq FastAudio Rounding PyFloatFacts ExactFacts.

Lemma digits2_size (p : positive) : digits2_pos p = Pos.size p.
Proof. induction p; simpl; congruence. Qed.

Lemma digits_bounds (p : positive) :
  2 ^ (Zpos (digits2_pos p) - 1) <= Zpos p < 2 ^ Zpos (digits2_pos p).
Proof.
  rewrite digits2_size.
  pose proof (Pos.size_gt p) as Hgt. pose proof (Pos.size_le p) as Hle.
  apply Pos2Z.pos_lt_pos in Hgt. apply Pos2Z.pos_le_pos in Hle.
  rewrite Pos2Z.inj_pow in Hgt, Hle.
  change (Z.pos p~0) with (2 * Z.pos p) in Hle.
  split; [|exact Hgt].
  replace (Z.pos (Pos.size p)) with (Z.pos (Pos.size p) - 1 + 1) in Hle by lia.
  rewrite Z.pow_add_r, Z.pow_1_r in Hle by lia. lia.
Qed.

Lemma digits_unique (p : positive) (d : Z) :
  2 ^ (d - 1) <= Zpos p < 2 ^ d -> Zpos (digits2_pos p) = d.
Proof.
  intros [Hlo Hhi]. pose proof (digits_bounds p) as [Blo Bhi].
  set (k := Zpos (digits2_pos p)) in *.
  assert (Hd : 0 < d).
  { destruct (Z.ltb_spec 0 d); [assumption|].
    assert (2 ^ d <= 1).
    { destruct (Z.eqb_spec d 0) as [->|]; [simpl; lia|].
      rewrite Z.pow_neg_r by lia. lia. }
    lia. }
  assert (k - 1 < d).
  { apply (Z.pow_lt_mono_r_iff 2); lia. }
  assert (d - 1 < k).
  { apply (Z.pow_lt_mono_r_iff 2); lia. }
  lia.
Qed.

Lemma iter_pos_nat {A} (f : A -> A) (p : positive) :
  forall x, iter_pos f p x = Nat.iter (Pos.to_nat p) f x.
Proof.
  induction p as [p IH|p IH|]; intros x; cbn [iter_pos].
  - rewrite !IH, Pos2Nat.inj_xI.
    rewrite <- Nat.iter_succ_r, <- Nat.iter_add. f_equal. lia.
  - rewrite !IH, Pos2Nat.inj_xO. rewrite <- Nat.iter_add. f_equal. lia.
  - reflexivity.
Qed.

Lemma shr_1_spec (mrs : shr_record) :
  0 <= shr_m mrs ->
  shr_m (shr_1 mrs) = shr_m mrs / 2 /\
  inexact (shr_1 mrs) = inexact mrs || Z.odd (shr_m mrs).
Proof.
  destruct mrs as [m r s]. unfold inexact. simpl. intros Hm.
  destruct m as [|[p|p|]|p]; simpl; try lia.
  - split; [reflexivity|]. now rewrite orb_false_r.
  - split.
    + rewrite Pos2Z.inj_xI. apply (Z.div_unique _ _ _ 1); lia.
    + now rewrite orb_comm.
  - split.
    + rewrite Pos2Z.inj_xO. apply (Z.div_unique _ _ _ 0); lia.
    + now rewrite orb_false_r.
  - split; [reflexivity|]. now rewrite orb_comm.
Qed.

Lemma shr_iter_spec (n : nat) (mrs : shr_record) :
  0 <= shr_m mrs ->
  shr_m (Nat.iter n shr_1 mrs) = shr_m mrs / 2 ^ Z.of_nat n /\
  inexact (Nat.iter n shr_1 mrs)
  = inexact mrs || negb (shr_m mrs mod 2 ^ Z.of_nat n =? 0).
Proof.
  intros Hm. induction n as [|n [IHm IHi]].
  - simpl. rewrite Z.div_1_r, Z.mod_1_r. simpl. now rewrite orb_false_r.
  - rewrite Nat.iter_succ.
    assert (Hpos : 0 <= shr_m (Nat.iter n shr_1 mrs)).
    { rewrite IHm. apply Z.div_pos; [assumption|]. apply Z.pow_pos_nonneg; lia. }
    destruct (shr_1_spec _ Hpos) as [Sm Si].
    rewrite Sm, Si, IHm, IHi.
    rewrite Nat2Z.inj_succ, Z.pow_succ_r, (Z.mul_comm 2) by lia.
    assert (H2n : 0 < 2 ^ Z.of_nat n) by (apply Z.pow_pos_nonneg; lia).
    split.
    + rewrite Z.div_div by lia. reflexivity.
    + rewrite <- orb_assoc. f_equal.
      rewrite Z.rem_mul_r by lia.
      set (a := shr_m mrs mod 2 ^ Z.of_nat n).
      set (q := shr_m mrs / 2 ^ Z.of_nat n).
      assert (Ha : 0 <= a < 2 ^ Z.of_nat n) by (apply Z.mod_pos_bound; lia).
      assert (Hq : 0 <= q mod 2 < 2) by (apply Z.mod_pos_bound; lia).
      rewrite Zodd_mod.
      destruct (Z.eqb_spec a 0) as [Ea|Na]; simpl.
      * rewrite Ea. simpl.
        destruct (Z.eqb_spec (q mod 2) 1) as [E1|N1].
        -- rewrite E1. destruct (Z.eqb_spec (2 ^ Z.of_nat n * 1) 0); [lia|reflexivity].
        -- assert (q mod 2 = 0) by lia.
           destruct (Z.eqb_spec (2 ^ Z.of_nat n * (q mod 2)) 0); [reflexivity|nia].
      * destruct (Z.eqb_spec (a + 2 ^ Z.of_nat n * (q mod 2)) 0); [nia|reflexivity].
Qed.

Lemma shr_spec (mrs : shr_record) (e n : Z) :
  0 <= shr_m mrs -> 0 <= n ->
  exists mrs',
    shr mrs e n = (mrs', e + n) /\
    shr_m mrs' = shr_m mrs / 2 ^ n /\
    inexact mrs' = inexact mrs || negb (shr_m mrs mod 2 ^ n =? 0).
Proof.
  intros Hm Hn. destruct n as [|p|p]; [| |lia].
  - exists mrs. simpl. rewrite Z.add_0_r, Z.div_1_r, Z.mod_1_r. simpl.
    now rewrite orb_false_r.
  - exists (iter_pos shr_1 p mrs). simpl. split; [reflexivity|].
    rewrite iter_pos_nat.
    destruct (shr_iter_spec (Pos.to_nat p) mrs Hm) as [A B].
    rewrite positive_nat_Z in A, B. auto.
Qed.

Lemma loc_of_record_exact (mrs : shr_record) :
  loc_of_shr_record mrs = loc_Exact <-> inexact mrs = false.
Proof.
  destruct mrs as [m [|] [|]]; unfold inexact; simpl; split;
    intros; try discriminate; reflexivity.
Qed.

Lemma record_of_loc (m : Z) (l : location) :
  shr_m (shr_record_of_loc m l) = m /\
  (inexact (shr_record_of_loc m l) = false <-> l = loc_Exact).
Proof.
  destruct l as [|[| |]]; unfold inexact; simpl; split; try reflexivity;
    split; intros; try discriminate; reflexivity.
Qed.

Lemma round_nearest_even_spec (m : Z) (l : location) :
  (round_nearest_even m l = m \/ round_nearest_even m l = m + 1) /\
  (l = loc_Exact -> round_nearest_even m l = m).
Proof.
  destruct l as [|[| |]]; simpl; try (split; [auto | intros; try discriminate; auto]).
  destruct (Z.even m); auto.
Qed.

Lemma bpow_pos (e : Z) : (0 < bpow e)%Q.
Proof. unfold bpow. apply Qpower_0_lt. reflexivity. Qed.

Lemma bpow_plus (a b : Z) : (bpow (a + b) == bpow a * bpow b)%Q.
Proof. unfold bpow. apply Qpower_plus. discriminate. Qed.

Lemma bpow_Z (k : Z) : 0 <= k -> (bpow k == inject_Z (2 ^ k))%Q.
Proof. intros Hk. unfold bpow. now rewrite Zpower_Qpower. Qed.

Lemma bpow_le (a b : Z) : a <= b -> (bpow a <= bpow b)%Q.
Proof. intros H. unfold bpow. apply Qpower_le_compat_l; [assumption|]. discriminate. Qed.

Lemma bpow_lt (a b : Z) : a < b -> (bpow a < bpow b)%Q.
Proof. intros H. unfold bpow. apply Qpower_lt_compat_l; [assumption|]. reflexivity. Qed.

Lemma bpow_lt_inv (a b : Z) : (bpow a < bpow b)%Q -> a < b.
Proof. intros H. unfold bpow in H. apply Qpower_lt_compat_l_inv in H; [assumption|reflexivity]. Qed.

Lemma bpow_le_inv (a b : Z) : (bpow a <= bpow b)%Q -> a <= b.
Proof. intros H. unfold bpow in H. apply Qpower_le_compat_l_inv in H; [assumption|reflexivity]. Qed.

Lemma scale_le (a b e : Z) :
  (inject_Z a * bpow e <= inject_Z b * bpow e)%Q <-> a <= b.
Proof.
  rewrite Qmult_le_r by apply bpow_pos. rewrite <- Zle_Qle. reflexivity.
Qed.

Lemma scale_lt (a b e : Z) :
  (inject_Z a * bpow e < inject_Z b * bpow e)%Q <-> a < b.
Proof.
  rewrite Qmult_lt_r by apply bpow_pos. rewrite <- Zlt_Qlt. reflexivity.
Qed.

(** [k * 2^j] on the grid of step [2^e], [e <= j]. *)
Lemma rescale (k j e : Z) :
  e <= j -> (inject_Z k * bpow j == inject_Z (k * 2 ^ (j - e)) * bpow e)%Q.
Proof.
  intros H. rewrite inject_Z_mult, <- bpow_Z by lia.
  rewrite <- Qmult_assoc, <- bpow_plus.
  replace (j - e + e) with j by lia. reflexivity.
Qed.

Lemma fexp_eq (x : Z) : fexp 53 1024 x = Z.max (x - 53) (-1074).
Proof. reflexivity. Qed.

Lemma Rnd_comp (X X' v v' : Q) :
  (X == X')%Q -> (v == v')%Q -> Rnd X v -> Rnd X' v'.
Proof.
  intros EX Ev (A & B & C & D). unfold Rnd.
  rewrite <- EX, <- Ev. split; [assumption|]. split; [assumption|].
  split; intros w Hw Hle.
  - rewrite <- Ev. apply C; [assumption|]. now rewrite EX.
  - rewrite <- Ev. apply D; [assumption|]. now rewrite EX.
Qed.

(** The rounding of the operations, where the result is a normal number:
    the real [X] lies in the cell of [mx] at the exponent [ex], and is
    known to be at its lower end when the location is exact. *)
Lemma round_aux_normal (p : positive) (ex : Z) (lx : location) (X : Q) :
  let d := Zpos (digits2_pos p) in
  let e' := d + ex - 53 in
  53 <= d -> -1074 <= e' <= 970 ->
  (inject_Z (Zpos p) * bpow ex <= X)%Q ->
  (X < inject_Z (Zpos p + 1) * bpow ex)%Q ->
  (lx = loc_Exact \/ inject_Z (Zpos p) * bpow ex < X)%Q ->
  exists m e,
    binary_round_aux 53 1024 false (Zpos p) ex lx = S754_finite false m e /\
    Zpos (digits2_pos m) = 53 /\ -1074 <= e <= 971 /\
    Rnd X (inject_Z (Zpos m) * bpow e).
Proof.
  intros d e' Hd He Hlo Hhi Hex.
  pose proof (digits_bounds p) as [Dlo Dhi]. fold d in Dlo, Dhi.
  set (n := d - 53).
  assert (Hn : 0 <= n) by (unfold n; lia).
  assert (H2n : 0 < 2 ^ n) by (apply Z.pow_pos_nonneg; lia).
  set (m1 := Zpos p / 2 ^ n).
  assert (Hdiv : Zpos p = 2 ^ n * m1 + Zpos p mod 2 ^ n)
    by (apply Z.div_mod; lia).
  assert (Hmod : 0 <= Zpos p mod 2 ^ n < 2 ^ n)
    by (apply Z.mod_pos_bound; lia).
  assert (Hpow : 2 ^ d = 2 ^ n * 2 ^ 53).
  { rewrite <- Z.pow_add_r by lia. f_equal. unfold n. lia. }
  assert (Hpow' : 2 ^ (d - 1) = 2 ^ n * 2 ^ 52).
  { rewrite <- Z.pow_add_r by lia. f_equal. unfold n. lia. }
  assert (Hm1 : 2 ^ 52 <= m1 < 2 ^ 53) by nia.
  (* the first shift *)
  unfold binary_round_aux, shr_fexp.
  change (Zdigits2 (Zpos p)) with d.
  rewrite fexp_eq.
  replace (Z.max (d + ex - 53) (-1074) - ex) with n by (unfold n, e' in *; lia).
  destruct (record_of_loc (Zpos p) lx) as [R0m R0i].
  destruct (shr_spec (shr_record_of_loc (Zpos p) lx) ex n) as (mrs1 & -> & S1m & S1i);
    [rewrite R0m; lia | lia |].
  rewrite R0m in S1m, S1i. fold m1 in S1m.
  replace (ex + n) with e' by (unfold n, e'; lia).
  set (l1 := loc_of_shr_record mrs1).
  set (m2 := round_nearest_even (shr_m mrs1) l1).
  destruct (round_nearest_even_spec (shr_m mrs1) l1) as [Hm2 Hexact].
  fold m2 in Hm2, Hexact. rewrite S1m in Hm2, Hexact.
  (* where X lies on the grid of step 2^e' *)
  assert (Eex : (bpow ex * inject_Z (2 ^ n) == bpow e')%Q).
  { rewrite <- bpow_Z by lia. rewrite <- bpow_plus. unfold e', n.
    replace (ex + (d - 53)) with (d + ex - 53) by lia. reflexivity. }
  assert (Hgrid : forall k : Z,
            (inject_Z k * bpow e' == inject_Z (k * 2 ^ n) * bpow ex)%Q).
  { intros k. rewrite <- Eex, inject_Z_mult. ring. }
  assert (Xlo : (inject_Z m1 * bpow e' <= X)%Q).
  { rewrite Hgrid. eapply Qle_trans; [|exact Hlo]. apply scale_le. nia. }
  assert (Xhi : (X < inject_Z (m1 + 1) * bpow e')%Q).
  { rewrite Hgrid. eapply Qlt_le_trans; [exact Hhi|]. apply scale_le. nia. }
  assert (Xstrict : m2 = m1 + 1 -> (inject_Z m1 * bpow e' < X)%Q).
  { intros E2.
    assert (Hl1 : l1 <> loc_Exact).
    { intros El. specialize (Hexact El). lia. }
    assert (Hi1 : inexact mrs1 = true).
    { destruct (inexact mrs1) eqn:Ei; [reflexivity|].
      exfalso. apply Hl1. now apply loc_of_record_exact. }
    rewrite S1i in Hi1. apply orb_true_iff in Hi1.
    destruct Hi1 as [Hi0 | Hrem].
    - destruct Hex as [-> | Hs].
      + destruct R0i as [_ R0i]. rewrite R0i in Hi0 by reflexivity. discriminate.
      + eapply Qle_lt_trans; [|exact Hs]. rewrite Hgrid. apply scale_le. nia.
    - apply negb_true_iff, Z.eqb_neq in Hrem.
      eapply Qlt_le_trans; [|exact Hlo]. rewrite Hgrid. apply scale_lt. nia. }
  (* the value of the result *)
  assert (Hval : exists m e,
            (let '(mrs'', e'') :=
               shr (shr_record_of_loc m2 loc_Exact) e'
                 (fexp 53 1024 (Zdigits2 m2 + e') - e') in
             match shr_m mrs'' with
             | 0 => S754_zero false
             | Z.pos m => if e'' <=? 1024 - 53 then S754_finite false m e''
                          else S754_infinity false
             | Z.neg _ => S754_nan
             end) = S754_finite false m e /\
            Zpos (digits2_pos m) = 53 /\ -1074 <= e <= 971 /\
            (inject_Z (Zpos m) * bpow e == inject_Z m2 * bpow e')%Q).
  { destruct (Z.ltb_spec m2 (2 ^ 53)) as [Hsmall|Hbig].
    - assert (Hp2 : 0 < m2) by lia.
      destruct m2 as [|q|q]; try lia.
      assert (Dq : Zpos (digits2_pos q) = 53) by (apply digits_unique; lia).
      exists q, e'. cbn [Zdigits2]. rewrite Dq, fexp_eq.
      replace (Z.max (53 + e' - 53) (-1074) - e') with 0 by lia.
      cbn [shr shr_record_of_loc shr_m].
      destruct (Z.leb_spec e' (1024 - 53)); [|lia].
      split; [reflexivity|]. split; [reflexivity|]. split; [lia | reflexivity].
    - assert (E2 : m2 = 2 ^ 53) by lia.
      exists (2 ^ 52)%positive, (e' + 1). rewrite E2.
      change (Zdigits2 (2 ^ 53)) with 54. rewrite fexp_eq.
      replace (Z.max (54 + e' - 53) (-1074) - e') with 1 by lia.
      cbn [shr shr_record_of_loc iter_pos].
      change (shr_m (shr_1 {| shr_m := 2 ^ 53; shr_r := false; shr_s := false |}))
        with (Zpos (2 ^ 52)).
      cbv iota beta.
      destruct (Z.leb_spec (e' + 1) (1024 - 53)); [|lia].
      split; [reflexivity|]. split; [reflexivity|]. split; [lia|].
      rewrite bpow_plus. change (bpow 1) with 2%Q.
      change (inject_Z (2 ^ 53)) with (inject_Z (Zpos (2 ^ 52)) * 2)%Q. ring. }
  destruct Hval as (m & e & Hres & Dm & Hrange & Hv).
  exists m, e. split; [exact Hres|]. split; [exact Dm|]. split; [exact Hrange|].
  apply (Rnd_comp X X (inject_Z m2 * bpow e') _ (Qeq_refl X));
    [symmetry; exact Hv|].
  assert (Hu : (bpow e' <= u * X)%Q).
  { apply Qle_trans with (u * (inject_Z m1 * bpow e'))%Q.
    - apply Qle_trans with (u * (inject_Z (2 ^ 52) * bpow e'))%Q.
      + rewrite <- bpow_Z by lia. unfold u.
        rewrite Qmult_assoc, <- bpow_plus. simpl (-52 + 52).
        change (bpow 0) with 1%Q. lra.
      + apply Qmult_le_l; [apply bpow_pos|]. apply scale_le. lia.
    - apply Qmult_le_l; [apply bpow_pos | exact Xlo]. }
  assert (Hm2lo : (inject_Z m1 * bpow e' <= inject_Z m2 * bpow e')%Q)
    by (apply scale_le; lia).
  assert (Hm2hi : (inject_Z m2 * bpow e' <= inject_Z (m1 + 1) * bpow e')%Q)
    by (apply scale_le; lia).
  assert (Hstep : (inject_Z (m1 + 1) * bpow e' == inject_Z m1 * bpow e' + bpow e')%Q).
  { rewrite inject_Z_plus. change (inject_Z 1) with 1%Q. ring. }
  repeat split.
  - lra.
  - lra.
  - intros w (k & j & Hk & ->) Hw.
    assert (Hj : e' <= j).
    { assert (H1 : (bpow (52 + e') < bpow (53 + j))%Q).
      { apply Qle_lt_trans with X.
        - eapply Qle_trans; [|exact Xlo].
          rewrite (bpow_plus 52 e'), (bpow_Z 52) by lia. apply scale_le. lia.
        - eapply Qle_lt_trans; [exact Hw|].
          rewrite (bpow_plus 53 j), (bpow_Z 53) by lia. apply scale_lt. lia. }
      apply bpow_lt_inv in H1. lia. }
    rewrite (rescale k j e' Hj) in *. apply scale_le.
    destruct Hm2 as [-> | E2].
    + apply (scale_le _ _ e'). lra.
    + specialize (Xstrict E2).
      assert (m1 < k * 2 ^ (j - e')); [|lia].
      apply (scale_lt _ _ e'). lra.
  - intros w (k & j & Hk & ->) Hw.
    destruct (Z.le_gt_cases e' j) as [Hj|Hj].
    + rewrite (rescale k j e' Hj) in *. apply scale_le.
      assert (k * 2 ^ (j - e') < m1 + 1); [|lia].
      apply (scale_lt _ _ e'). lra.
    + apply Qle_trans with (inject_Z m1 * bpow e')%Q; [|exact Hm2lo].
      apply Qle_trans with (bpow (53 + j)).
      * rewrite (bpow_plus 53 j), (bpow_Z 53) by lia. apply scale_le. lia.
      * apply Qle_trans with (bpow (52 + e')); [apply bpow_le; lia|].
        rewrite (bpow_plus 52 e'), (bpow_Z 52) by lia. apply scale_le. lia.
Qed.


Lemma Fpos_comp (x : spec_float) (v v' : Q) :
  (v == v')%Q -> Fpos x v -> Fpos x v'.
Proof.
  intros E (m & e & Hx & Hd & He & Hv). exists m, e.
  repeat split; try assumption; try lia. now rewrite <- E.
Qed.

Lemma mantissa_bounds (m : positive) :
  Zpos (digits2_pos m) = 53 -> 2 ^ 52 <= Zpos m < 2 ^ 53.
Proof.
  intros Hd. pose proof (digits_bounds m) as H. rewrite Hd in H. exact H.
Qed.

Lemma cell_bounds (m : positive) (e : Z) :
  Zpos (digits2_pos m) = 53 ->
  (bpow (52 + e) <= inject_Z (Zpos m) * bpow e)%Q /\
  (inject_Z (Zpos m) * bpow e < bpow (53 + e))%Q.
Proof.
  intros Hd. apply mantissa_bounds in Hd.
  rewrite (bpow_plus 52 e), (bpow_plus 53 e), (bpow_Z 52), (bpow_Z 53) by lia.
  split; [apply scale_le | apply scale_lt]; lia.
Qed.

Lemma Fpos_representable (x : spec_float) (v : Q) :
  Fpos x v -> representable v.
Proof.
  intros (m & e & _ & Hd & _ & Hv). exists (Zpos m), e.
  apply mantissa_bounds in Hd. split; [lia | exact Hv].
Qed.

Lemma Fpos_pos (x : spec_float) (v : Q) : Fpos x v -> (0 < v)%Q.
Proof.
  intros (m & e & _ & Hd & _ & Hv). rewrite Hv.
  apply Qmult_lt_0_compat; [reflexivity | apply bpow_pos].
Qed.

Lemma digits_ge (p : positive) (k : Z) :
  0 <= k -> 2 ^ k <= Zpos p -> k + 1 <= Zpos (digits2_pos p).
Proof.
  intros Hk Hp. pose proof (digits_bounds p) as [_ Hhi].
  assert (k < Zpos (digits2_pos p)); [|lia].
  apply (Z.pow_lt_mono_r_iff 2); lia.
Qed.

(** Magnitude of the real against the cell it lies in. *)
Lemma cell_exponent (p : positive) (ex : Z) (X : Q) (lo hi : Z) :
  (inject_Z (Zpos p) * bpow ex <= X)%Q ->
  (X < inject_Z (Zpos p + 1) * bpow ex)%Q ->
  (bpow lo <= X)%Q -> (X <= bpow hi)%Q ->
  lo < Zpos (digits2_pos p) + ex /\ Zpos (digits2_pos p) + ex - 1 <= hi.
Proof.
  intros Hlo Hhi Blo Bhi.
  pose proof (digits_bounds p) as [Dlo Dhi].
  set (d := Zpos (digits2_pos p)) in *.
  assert (Hd : 1 <= d) by (unfold d; lia).
  split.
  - assert (H : (bpow lo < bpow (d + ex))%Q).
    { eapply Qle_lt_trans; [exact Blo|]. eapply Qlt_le_trans; [exact Hhi|].
      rewrite (bpow_plus d ex), (bpow_Z d) by lia. apply scale_le. lia. }
    apply bpow_lt_inv in H. lia.
  - assert (H : (bpow (d - 1 + ex) <= bpow hi)%Q).
    { eapply Qle_trans; [|exact Bhi]. eapply Qle_trans; [|exact Hlo].
      rewrite (bpow_plus (d - 1) ex), (bpow_Z (d - 1)) by lia.
      apply scale_le. lia. }
    apply bpow_le_inv in H. lia.
Qed.

Lemma mul_normal (x y : spec_float) (vx vy : Q) :
  Fpos x vx -> Fpos y vy ->
  (bpow (-1000) <= vx * vy)%Q -> (vx * vy <= bpow 900)%Q ->
  exists v, Fpos (SFmul 53 1024 x y) v /\ Rnd (vx * vy) v.
Proof.
  intros (mx & ex & -> & Dx & Ex & Vx) (my & ey & -> & Dy & Ey & Vy) Blo Bhi.
  cbn [SFmul xorb].
  pose proof (mantissa_bounds _ Dx) as Mx.
  pose proof (mantissa_bounds _ Dy) as My.
  assert (EX : (vx * vy == inject_Z (Zpos (mx * my)) * bpow (ex + ey))%Q).
  { rewrite Vx, Vy, Pos2Z.inj_mul, inject_Z_mult, bpow_plus. ring. }
  assert (Hlo : (inject_Z (Zpos (mx * my)) * bpow (ex + ey) <= vx * vy)%Q)
    by (rewrite EX; apply Qle_refl).
  assert (Hhi : (vx * vy < inject_Z (Zpos (mx * my) + 1) * bpow (ex + ey))%Q)
    by (rewrite EX; apply scale_lt; lia).
  destruct (cell_exponent _ _ _ _ _ Hlo Hhi Blo Bhi) as [C1 C2].
  assert (Hd : 105 <= Zpos (digits2_pos (mx * my))).
  { apply (digits_ge _ 104); [lia|]. rewrite Pos2Z.inj_mul.
    change (2 ^ 104) with (2 ^ 52 * 2 ^ 52). nia. }
  destruct (round_aux_normal (mx * my) (ex + ey) loc_Exact (vx * vy))
    as (m & e & Hres & Dm & He & HR); try assumption; try lia.
  - now left.
  - exists (inject_Z (Zpos m) * bpow e)%Q. split; [|exact HR].
    exists m, e. rewrite Hres. repeat split; try lia.
Qed.

Lemma new_location_exact (n r : Z) :
  r = 0 -> new_location n r = loc_Exact.
Proof.
  intros ->. unfold new_location, new_location_even, new_location_odd.
  destruct (Z.even n); reflexivity.
Qed.

Lemma div_normal (x y : spec_float) (vx vy : Q) :
  Fpos x vx -> Fpos y vy ->
  (bpow (-1000) <= vx / vy)%Q -> (vx / vy <= bpow 900)%Q ->
  exists v, Fpos (SFdiv 53 1024 x y) v /\ Rnd (vx / vy) v.
Proof.
  intros (mx & ex & -> & Dx & Ex & Vx) (my & ey & -> & Dy & Ey & Vy) Blo Bhi.
  pose proof (mantissa_bounds _ Dx) as Mx.
  pose proof (mantissa_bounds _ Dy) as My.
  assert (Hvy : (0 < vy)%Q).
  { rewrite Vy. apply Qmult_lt_0_compat; [reflexivity | apply bpow_pos]. }
  (* the magnitude of the quotient fixes the exponents *)
  assert (Q1 : (vx / vy < bpow (ex - ey + 1))%Q).
  { apply Qlt_shift_div_r; [exact Hvy|].
    destruct (cell_bounds mx ex Dx) as [_ Hx].
    destruct (cell_bounds my ey Dy) as [Hy _].
    rewrite <- Vx in Hx. rewrite <- Vy in Hy.
    eapply Qlt_le_trans; [exact Hx|].
    apply Qle_trans with (bpow (ex - ey + 1) * bpow (52 + ey))%Q.
    - rewrite <- bpow_plus. apply bpow_le. lia.
    - apply Qmult_le_l; [apply bpow_pos | exact Hy]. }
  assert (Q2 : (bpow (ex - ey - 1) < vx / vy)%Q).
  { apply Qlt_shift_div_l; [exact Hvy|].
    destruct (cell_bounds mx ex Dx) as [Hx _].
    destruct (cell_bounds my ey Dy) as [_ Hy].
    rewrite <- Vx in Hx. rewrite <- Vy in Hy.
    eapply Qlt_le_trans; [|exact Hx].
    apply Qlt_le_trans with (bpow (ex - ey - 1) * bpow (53 + ey))%Q.
    - apply Qmult_lt_l; [apply bpow_pos | exact Hy].
    - rewrite <- bpow_plus. apply bpow_le. lia. }
  assert (E1 : -1000 < ex - ey + 1).
  { apply bpow_lt_inv. eapply Qle_lt_trans; eauto. }
  assert (E2 : ex - ey - 1 < 900).
  { apply bpow_lt_inv. eapply Qlt_le_trans; eauto. }
  cbn [SFdiv xorb]. unfold SFdiv_core_binary.
  cbn [Zdigits2]. rewrite Dx, Dy, fexp_eq.
  replace (Z.min (Z.max (53 + ex - (53 + ey) - 53) (-1074)) (ex - ey))
    with (ex - ey - 53) by lia.
  replace (ex - ey - (ex - ey - 53)) with 53 by lia.
  cbv iota beta.
  rewrite Z.shiftl_mul_pow2 by lia.
  set (m' := Zpos mx * 2 ^ 53).
  set (e0 := ex - ey - 53).
  destruct (Z.div_eucl m' (Zpos my)) as [q r] eqn:Hqr.
  assert (Hdm : m' = Zpos my * q + r /\ 0 <= r < Zpos my).
  { pose proof (Z.div_eucl_eq m' (Zpos my)) as A.
    pose proof (Z.mod_pos_bound m' (Zpos my)) as B.
    unfold Z.modulo in B. rewrite Hqr in A, B. split; [apply A; lia | apply B; lia]. }
  destruct Hdm as [Hm' Hr].
  assert (Hq : 2 ^ 52 <= q < 2 ^ 54).
  { unfold m' in Hm'. change (2 ^ 54) with (2 * 2 ^ 53).
    change (2 ^ 53) with (2 * 2 ^ 52) in *. nia. }
  destruct q as [|pq|pq]; try lia.
  assert (Dq : 53 <= Zpos (digits2_pos pq)) by (apply (digits_ge _ 52); lia).
  assert (Dq' : Zpos (digits2_pos pq) <= 54).
  { pose proof (digits_bounds pq) as [Dlo _].
    assert (Zpos (digits2_pos pq) - 1 < 54); [|lia].
    apply (Z.pow_lt_mono_r_iff 2); lia. }
  (* the quotient on the grid of step 2^e0 *)
  assert (Hcell : forall k : Z,
            (inject_Z k * bpow e0 * vy == inject_Z (k * Zpos my) * bpow (ex - 53))%Q).
  { intros k. rewrite Vy, inject_Z_mult. unfold e0.
    replace (ex - 53) with (ex - ey - 53 + ey) by lia.
    rewrite (bpow_plus (ex - ey - 53) ey). ring. }
  assert (Hvx : (vx == inject_Z m' * bpow (ex - 53))%Q).
  { rewrite Vx. unfold m'. rewrite inject_Z_mult, <- (bpow_Z 53) by lia.
    rewrite <- Qmult_assoc, <- bpow_plus.
    replace (53 + (ex - 53)) with ex by lia. reflexivity. }
  assert (Hlo : (inject_Z (Zpos pq) * bpow e0 <= vx / vy)%Q).
  { apply Qle_shift_div_l; [exact Hvy|]. rewrite Hcell, Hvx.
    apply scale_le. lia. }
  assert (Hhi : (vx / vy < inject_Z (Zpos pq + 1) * bpow e0)%Q).
  { apply Qlt_shift_div_r; [exact Hvy|]. rewrite Hcell, Hvx.
    apply scale_lt. nia. }
  assert (Hloc : new_location (Zpos my) r = loc_Exact \/
                 (inject_Z (Zpos pq) * bpow e0 < vx / vy)%Q).
  { destruct (Z.eq_dec r 0) as [E|N].
    - left. now apply new_location_exact.
    - right. apply Qlt_shift_div_l; [exact Hvy|]. rewrite Hcell, Hvx.
      apply scale_lt. lia. }
  destruct (round_aux_normal pq e0 (new_location (Zpos my) r) (vx / vy))
    as (m & e & Hres & Dm & He & HR); try assumption; try (unfold e0; lia).
  exists (inject_Z (Zpos m) * bpow e)%Q. split; [|exact HR].
  exists m, e. rewrite Hres. repeat split; try lia.
Qed.

Lemma iter_xO (d m : positive) :
  Zpos (Pos.iter xO m d) = Zpos m * 2 ^ Zpos d.
Proof.
  induction d as [|d IH] using Pos.peano_ind.
  - simpl. lia.
  - rewrite Pos.iter_succ, Pos2Z.inj_xO, IH, Pos2Z.inj_succ, Z.pow_succ_r by lia.
    lia.
Qed.

Lemma shl_align_down (m : positive) (e e' : Z) :
  e' <= e -> Zpos (fst (shl_align m e e')) = Zpos m * 2 ^ (e - e').
Proof.
  intros H. unfold shl_align.
  destruct (e' - e) as [|d|d] eqn:E; try lia.
  - replace (e - e') with 0 by lia. simpl. lia.
  - cbn [fst]. rewrite iter_xO. f_equal. f_equal. lia.
Qed.

Lemma shl_align_id (m : positive) (e e' : Z) :
  e <= e' -> shl_align m e e' = (m, e).
Proof.
  intros H. unfold shl_align. destruct (e' - e) as [|d|d] eqn:E; try lia; reflexivity.
Qed.

Lemma add_normal (x y : spec_float) (vx vy : Q) :
  Fpos x vx -> Fpos y vy -> (vx + vy <= bpow 900)%Q ->
  exists v, Fpos (SFadd 53 1024 x y) v /\ Rnd (vx + vy) v.
Proof.
  intros (mx & ex & -> & Dx & Ex & Vx) (my & ey & -> & Dy & Ey & Vy) Bhi.
  pose proof (mantissa_bounds _ Dx) as Mx.
  pose proof (mantissa_bounds _ Dy) as My.
  cbn [SFadd cond_Zopp].
  set (ez := Z.min ex ey).
  pose proof (shl_align_down mx ex ez ltac:(unfold ez; lia)) as Ax.
  pose proof (shl_align_down my ey ez ltac:(unfold ez; lia)) as Ay.
  set (px := fst (shl_align mx ex ez)) in *.
  set (py := fst (shl_align my ey ez)) in *.
  change (Zpos px + Zpos py) with (Zpos (px + py)).
  cbn [binary_normalize]. unfold binary_round.
  assert (Hx2 : 0 < 2 ^ (ex - ez)) by (apply Z.pow_pos_nonneg; unfold ez; lia).
  assert (Hy2 : 0 < 2 ^ (ey - ez)) by (apply Z.pow_pos_nonneg; unfold ez; lia).
  assert (Dp : 53 <= Zpos (digits2_pos (px + py))).
  { apply (digits_ge _ 52); [lia|]. rewrite Pos2Z.inj_add. nia. }
  rewrite shl_align_id by (rewrite fexp_eq; lia).
  assert (EX : (vx + vy == inject_Z (Zpos (px + py)) * bpow ez)%Q).
  { rewrite Pos2Z.inj_add, inject_Z_plus, Ax, Ay, Vx, Vy.
    rewrite (rescale (Zpos mx) ex ez), (rescale (Zpos my) ey ez)
      by (unfold ez; lia).
    ring. }
  assert (Hlo : (inject_Z (Zpos (px + py)) * bpow ez <= vx + vy)%Q)
    by (rewrite EX; apply Qle_refl).
  assert (Hhi : (vx + vy < inject_Z (Zpos (px + py) + 1) * bpow ez)%Q)
    by (rewrite EX; apply scale_lt; lia).
  assert (Blo : (bpow (ez + 52) <= vx + vy)%Q).
  { rewrite EX, (bpow_plus ez 52), (bpow_Z 52), Qmult_comm by lia.
    apply scale_le. rewrite Pos2Z.inj_add. nia. }
  destruct (cell_exponent _ _ _ _ _ Hlo Hhi Blo Bhi) as [C1 C2].
  destruct (round_aux_normal (px + py) ez loc_Exact (vx + vy))
    as (m & e & Hres & Dm & He & HR); try assumption; try (unfold ez in *; lia).
  - now left.
  - exists (inject_Z (Zpos m) * bpow e)%Q. split; [|exact HR].
    exists m, e. rewrite Hres. repeat split; try lia.
Qed.

Lemma representable_Z (n : Z) : 0 < n < 2 ^ 53 -> representable (inject_Z n).
Proof.
  intros Hn. exists n, 0. split; [exact Hn|].
  change (bpow 0) with 1%Q. ring.
Qed.

Lemma Rnd_exact (X v : Q) : representable X -> Rnd X v -> (v == X)%Q.
Proof.
  intros HX (_ & _ & Hup & Hdown).
  apply Qle_antisym; [apply Hup | apply Hdown]; try assumption; apply Qle_refl.
Qed.

Lemma of_Z_normal (n : Z) :
  0 < n < 2 ^ 53 -> Fpos (PyFloat.of_Z n) (inject_Z n).
Proof.
  intros Hn. destruct n as [|p|p]; try lia.
  unfold PyFloat.of_Z, PyFloat.prec, PyFloat.emax.
  cbn [binary_normalize]. unfold binary_round.
  pose proof (digits_bounds p) as [Dlo Dhi].
  set (d := Zpos (digits2_pos p)) in *.
  assert (Hd : 1 <= d <= 53).
  { split; [unfold d; lia|].
    assert (d - 1 < 53); [|lia]. apply (Z.pow_lt_mono_r_iff 2); lia. }
  rewrite fexp_eq, Z.add_0_r.
  replace (Z.max (d - 53) (-1074)) with (d - 53) by lia.
  assert (Hsh : exists q,
            shl_align p 0 (d - 53) = (q, d - 53) /\
            Zpos q = Zpos p * 2 ^ (53 - d)).
  { unfold shl_align. destruct (d - 53 - 0) as [|k|k] eqn:E; try lia.
    - exists p. replace (d - 53) with 0 by lia.
      replace (53 - d) with 0 by lia. split; [reflexivity | simpl; lia].
    - exists (Pos.iter xO p k). split; [reflexivity|].
      rewrite iter_xO. f_equal. f_equal. lia. }
  destruct Hsh as (q & -> & Hq).
  assert (Hpw : 2 ^ 53 = 2 ^ d * 2 ^ (53 - d)).
  { rewrite <- Z.pow_add_r by lia. f_equal. lia. }
  assert (Hpw' : 2 ^ 52 = 2 ^ (d - 1) * 2 ^ (53 - d)).
  { rewrite <- Z.pow_add_r by lia. f_equal. lia. }
  assert (H2 : 0 < 2 ^ (53 - d)) by (apply Z.pow_pos_nonneg; lia).
  assert (Dq : Zpos (digits2_pos q) = 53).
  { apply digits_unique. change (53 - 1) with 52. nia. }
  assert (EX : (inject_Z (Zpos p) == inject_Z (Zpos q) * bpow (d - 53))%Q).
  { rewrite Hq, inject_Z_mult, <- (bpow_Z (53 - d)) by lia.
    rewrite <- Qmult_assoc, <- bpow_plus.
    replace (53 - d + (d - 53)) with 0 by lia. change (bpow 0) with 1%Q. ring. }
  destruct (round_aux_normal q (d - 53) loc_Exact (inject_Z (Zpos p)))
    as (m & e & Hres & Dm & He & HR); try (rewrite Dq; lia).
  - rewrite EX. apply Qle_refl.
  - rewrite EX. apply scale_lt. lia.
  - now left.
  - apply (Fpos_comp _ (inject_Z (Zpos m) * bpow e)).
    + apply Rnd_exact; [|exact HR]. apply representable_Z. lia.
    + exists m, e. rewrite Hres. repeat split; try lia.
Qed.

(** The value and the integer part of a positive double. *)
Lemma value_pos (m : positive) (e : Z) :
  exists q, PyFloat.value (S754_finite false m e) = Some q /\
            (q == inject_Z (Zpos m) * bpow e)%Q.
Proof.
  unfold PyFloat.value. eexists. split; [reflexivity|].
  destruct e as [|p|p]; cbn [cond_Zopp].
  - change (bpow 0) with 1%Q. rewrite Z.pow_0_r, Z.mul_1_r. ring.
  - rewrite inject_Z_mult, <- bpow_Z by lia. reflexivity.
  - change (bpow (Zneg p)) with (/ (inject_Z 2 ^ Zpos p))%Q.
    rewrite <- (Zpower_Qpower 2 (Zpos p)) by lia.
    rewrite <- Pos2Z.inj_pow, Qmake_Qdiv. reflexivity.
Qed.

Lemma int_of_Fpos (x : spec_float) (v : Q) :
  Fpos x v -> PyFloat.int_of_float x = Ok (Qfloor v).
Proof.
  intros (m & e & -> & Hd & He & Hv).
  destruct (value_pos m e) as (q & Hq & Eq).
  rewrite (int_of_float_truncates _ _ Hq).
  f_equal. rewrite trunc_floor.
  - apply Qfloor_comp. now rewrite Eq, Hv.
  - rewrite Eq. apply Qmult_le_0_compat; [discriminate | apply Qlt_le_weak, bpow_pos].
Qed.

(** *** The conversions of a chunk *)

Lemma value_neg (m : positive) (e : Z) (q : Q) :
  PyFloat.value (S754_finite true m e) = Some q -> (q < 0)%Q.
Proof.
  unfold PyFloat.value. intros Hq.
  assert (Hp : 0 <= e -> 0 < Z.pos m * 2 ^ e).
  { intros He. pose proof (Z.pow_pos_nonneg 2 e). nia. }
  remember (Z.pos m * 2 ^ e) as x eqn:Hx. clear Hx.
  assert (Hq' : q = match e with
                    | Zneg p => cond_Zopp true (Zpos m) # (2 ^ p)
                    | _ => inject_Z (cond_Zopp true x)
                    end) by congruence.
  subst q. clear Hq.
  destruct e as [|p|p]; unfold Qlt; cbn [cond_Zopp inject_Z Qnum Qden]; lia.
Qed.

Lemma valid_Fpos (x : spec_float) (q : Q) :
  valid_binary 53 1024 x = true -> PyFloat.value x = Some q ->
  (bpow (-1000) <= q)%Q -> Fpos x q.
Proof.
  intros Hv Hq Hlo.
  pose proof (bpow_pos (-1000)) as Hp.
  assert (Hq0 : (0 < q)%Q) by (eapply Qlt_le_trans; eauto).
  destruct x as [s|s| |s m e]; try discriminate.
  - injection Hq as <-. exfalso. apply (Qlt_irrefl 0). exact Hq0.
  - destruct s.
    + exfalso. apply value_neg in Hq. apply (Qlt_irrefl 0).
      eapply Qlt_trans; eauto.
    + destruct (value_pos m e) as (q' & Hq' & Eq).
      rewrite Hq in Hq'. injection Hq' as <-.
      cbn [valid_binary] in Hv. unfold bounded, canonical_mantissa in Hv.
      apply andb_prop in Hv. destruct Hv as [Hc He].
      apply Z.eqb_eq in Hc. apply Z.leb_le in He. rewrite fexp_eq in Hc.
      change (1024 - 53) with 971 in He.
      pose proof (digits_bounds m) as [Dlo Dhi].
      set (d := Zpos (digits2_pos m)) in *.
      assert (Hd : d = 53).
      { destruct (Z.eq_dec d 53) as [E|N]; [exact E|]. exfalso.
        assert (He' : e = -1074) by lia.
        assert (Hd' : d <= 52) by lia.
        assert (Hlt : (q < bpow (-1000))%Q).
        { rewrite Eq. apply Qlt_le_trans with (bpow (52 + e)).
          - rewrite (bpow_plus 52 e), (bpow_Z 52) by lia. apply scale_lt.
            apply Z.lt_le_trans with (2 ^ d); [exact Dhi|].
            apply Z.pow_le_mono_r; lia.
          - apply bpow_le. lia. }
        apply (Qlt_irrefl q). eapply Qlt_le_trans; eauto. }
      exists m, e. repeat split; try assumption; try lia.
Qed.


Lemma Rnd_bounds (X v : Q) : Rnd X v -> (dn * X <= v)%Q /\ (v <= up * X)%Q.
Proof.
  intros (A & B & _).
  assert (E : (u == 1 # 4503599627370496)%Q) by reflexivity.
  unfold dn, up. rewrite <- E. split; assumption.
Qed.

Lemma mag_ok (X : Q) :
  (1 # 1267650600228229401496703205376 <= X)%Q ->
  (X <= inject_Z (2 ^ 100))%Q ->
  (bpow (-1000) <= X)%Q /\ (X <= bpow 900)%Q.
Proof.
  intros Hlo Hhi. split.
  - eapply Qle_trans; [|exact Hlo].
    apply Qle_trans with (bpow (-100)); [apply bpow_le; lia|].
    apply Qle_lteq. right. reflexivity.
  - eapply Qle_trans; [exact Hhi|]. rewrite <- (bpow_Z 100) by lia.
    apply bpow_le. lia.
Qed.

Abbreviation zero := (S754_zero false).

Lemma of_int_pos (n : Z) :
  0 < n < 2 ^ 53 ->
  exists f, PyFloat.float_of_int n = Ok f /\ Fpos f (inject_Z n).
Proof.
  intros Hn. pose proof (of_Z_normal n Hn) as HF.
  destruct HF as (m & e & E & HF).
  unfold PyFloat.float_of_int. rewrite E.
  eexists. split; [reflexivity|]. exists m, e. tauto.
Qed.

Lemma int_div_float_pos (n : Z) (y : PyFloat.float) (vy : Q) :
  0 < n < 2 ^ 53 -> Fpos y vy ->
  (1 # 1267650600228229401496703205376 <= inject_Z n / vy)%Q ->
  (inject_Z n / vy <= inject_Z (2 ^ 100))%Q ->
  exists f v, int_div_float n y = Ok f /\ Fpos f v /\ Rnd (inject_Z n / vy) v.
Proof.
  intros Hn Hy Hlo Hhi.
  destruct (of_int_pos n Hn) as (fn & En & Fn).
  destruct (mag_ok _ Hlo Hhi) as [Mlo Mhi].
  destruct (div_normal fn y _ _ Fn Hy Mlo Mhi) as (v & Fv & Rv).
  exists (SFdiv 53 1024 fn y), v.
  unfold int_div_float, truediv. cbn [of_int is_zero fdiv binary64].
  rewrite En. cbn [rbind].
  destruct Hy as (m & e & -> & _). cbn [PyFloat.float_is_zero].
  split; [reflexivity|]. split; assumption.
Qed.

Lemma int_div_float_zero (y : PyFloat.float) (vy : Q) :
  Fpos y vy -> int_div_float 0 y = Ok zero.
Proof.
  intros (m & e & -> & _). reflexivity.
Qed.

Lemma float_mul_int_pos (x : PyFloat.float) (vx : Q) (n : Z) :
  Fpos x vx -> 0 < n < 2 ^ 53 ->
  (1 # 1267650600228229401496703205376 <= vx * inject_Z n)%Q ->
  (vx * inject_Z n <= inject_Z (2 ^ 100))%Q ->
  exists f v, float_mul_int x n = Ok f /\ Fpos f v /\ Rnd (vx * inject_Z n) v.
Proof.
  intros Hx Hn Hlo Hhi.
  destruct (of_int_pos n Hn) as (fn & En & Fn).
  destruct (mag_ok _ Hlo Hhi) as [Mlo Mhi].
  destruct (mul_normal x fn _ _ Hx Fn Mlo Mhi) as (v & Fv & Rv).
  exists (SFmul 53 1024 x fn), v.
  unfold float_mul_int. cbn [of_int fmul binary64].
  rewrite En. cbn [rbind]. split; [reflexivity|]. split; assumption.
Qed.

Lemma float_mul_int_zero_l (n : Z) :
  0 < n < 2 ^ 53 -> float_mul_int (F := PyFloat.float) zero n = Ok zero.
Proof.
  intros Hn. destruct (of_int_pos n Hn) as (fn & En & (m & e & -> & _)).
  unfold float_mul_int. cbn [of_int fmul binary64]. rewrite En. reflexivity.
Qed.

Lemma float_mul_int_zero_r (x : PyFloat.float) (vx : Q) :
  Fpos x vx -> float_mul_int x 0 = Ok zero.
Proof.
  intros (m & e & -> & _). reflexivity.
Qed.

Lemma truediv_pos (x y : PyFloat.float) (vx vy : Q) :
  Fpos x vx -> Fpos y vy ->
  (1 # 1267650600228229401496703205376 <= vx / vy)%Q ->
  (vx / vy <= inject_Z (2 ^ 100))%Q ->
  exists f v, truediv x y = Ok f /\ Fpos f v /\ Rnd (vx / vy) v.
Proof.
  intros Hx Hy Hlo Hhi.
  destruct (mag_ok _ Hlo Hhi) as [Mlo Mhi].
  destruct (div_normal x y _ _ Hx Hy Mlo Mhi) as (v & Fv & Rv).
  exists (SFdiv 53 1024 x y), v.
  unfold truediv. cbn [is_zero fdiv binary64].
  destruct Hy as (m & e & -> & _). cbn [PyFloat.float_is_zero].
  split; [reflexivity|]. split; assumption.
Qed.

Lemma truediv_zero (y : PyFloat.float) (vy : Q) :
  Fpos y vy -> truediv (F := PyFloat.float) zero y = Ok zero.
Proof.
  intros (m & e & -> & _). reflexivity.
Qed.

Lemma to_int_pos (x : PyFloat.float) (v : Q) :
  Fpos x v -> to_int x = Ok (Qfloor v).
Proof. apply int_of_Fpos. Qed.

(** [start + p] for an integer [start] and the float [p] of value [vy],
    and its integer part. *)
Lemma int_add_float_floor (n : Z) (y : PyFloat.float) (vy : Q) :
  0 <= n <= 2 ^ 33 -> Fpos y vy -> (vy <= inject_Z (2 ^ 33))%Q ->
  exists f w,
    int_add_float n y = Ok f /\ to_int f = Ok w /\
    n + Qfloor vy <= w /\
    (inject_Z (w - n) <= vy + (1 # 262144))%Q.
Proof.
  intros Hn Hy Hhi.
  pose proof (Fpos_pos _ _ Hy) as Hy0.
  pose proof (Qfloor_le vy) as Fl.
  destruct (Z.eq_dec n 0) as [->|Hn0].
  - exists y, (Qfloor vy).
    split.
    + destruct Hy as (m & e & -> & _). reflexivity.
    + split; [now apply to_int_pos|]. split; [lia|].
      rewrite Z.sub_0_r. lra.
  - assert (Hn' : 0 < n < 2 ^ 53) by lia.
    destruct (of_int_pos n Hn') as (fn & En & Fn).
    assert (Hsum : (inject_Z n + vy <= bpow 900)%Q).
    { apply Qle_trans with (inject_Z (2 ^ 100)).
      - assert (inject_Z n <= inject_Z (2 ^ 33))%Q by (rewrite <- Zle_Qle; lia).
        assert (inject_Z (2 ^ 33) + inject_Z (2 ^ 33) <= inject_Z (2 ^ 100))%Q
          by (rewrite <- inject_Z_plus, <- Zle_Qle; lia).
        lra.
      - rewrite <- (bpow_Z 100) by lia. apply bpow_le. lia. }
    destruct (add_normal fn y _ _ Fn Hy Hsum) as (v & Fv & Rv).
    exists (SFadd 53 1024 fn y), (Qfloor v).
    split.
    + unfold int_add_float. cbn [of_int fadd binary64]. rewrite En. reflexivity.
    + split; [now apply to_int_pos|].
      destruct Rv as (_ & Rup & _ & Rdown).
      assert (Hfl0 : 0 <= Qfloor vy).
      { change 0 with (Qfloor 0). apply Qfloor_resp_le. lra. }
      assert (Hflhi : Qfloor vy <= 2 ^ 33).
      { rewrite <- (Qfloor_Z (2 ^ 33)). now apply Qfloor_resp_le. }
      split.
      * rewrite <- (Qfloor_Z (n + Qfloor vy)). apply Qfloor_resp_le.
        apply Rdown.
        -- apply representable_Z. lia.
        -- rewrite inject_Z_plus. lra.
      * pose proof (Qfloor_le v) as Fv'.
        assert (E : (u == 1 # 4503599627370496)%Q) by reflexivity.
        rewrite E in Rup.
        assert (inject_Z n <= inject_Z (2 ^ 33))%Q by (rewrite <- Zle_Qle; lia).
        change (inject_Z (2 ^ 33)) with (8589934592 # 1)%Q in *.
        unfold Zminus. rewrite inject_Z_plus, inject_Z_opp. lra.
Qed.

Lemma int_add_float_zero (n : Z) :
  0 <= n <= 2 ^ 33 ->
  exists f : PyFloat.float,
    int_add_float (F := PyFloat.float) n zero = Ok f /\ to_int f = Ok n.
Proof.
  intros Hn. destruct (Z.eq_dec n 0) as [->|Hn0].
  - exists zero. split; reflexivity.
  - assert (Hn' : 0 < n < 2 ^ 53) by lia.
    destruct (of_int_pos n Hn') as (fn & En & Fn).
    exists fn. split.
    + unfold int_add_float. cbn [of_int fadd binary64]. rewrite En.
      destruct Fn as (m & e & -> & _). reflexivity.
    + pose proof (to_int_pos _ _ Fn) as Hti. rewrite Qfloor_Z in Hti.
      exact Hti.
Qed.

Lemma quot_le (a q k : Q) : (0 < q -> a <= k * q -> a / q <= k)%Q.
Proof. intros. now apply Qle_shift_div_r. Qed.

Lemma quot_ge (a q k : Q) : (0 < q -> k * q <= a -> k <= a / q)%Q.
Proof. intros. now apply Qle_shift_div_l. Qed.

Lemma quot_mul (a q : Q) : (0 < q -> a / q * q == a)%Q.
Proof. intros. field. lra. Qed.

Lemma floor_bounds (v : Q) (lo hi : Z) :
  (inject_Z lo <= v)%Q -> (v < inject_Z hi)%Q -> lo <= Qfloor v < hi.
Proof.
  intros Hlo Hhi. split.
  - rewrite <- (Qfloor_Z lo). now apply Qfloor_resp_le.
  - pose proof (Qfloor_le v) as H. rewrite Zlt_Qlt. lra.
Qed.

Section Chunk.
Variable samplerate : Z.
Variables fps s : PyFloat.float.
Variables qf qs : Q.
Variable c : chunk.
Hypothesis Ffps : Fpos fps qf.
Hypothesis Hqf : (1 # 1024 <= qf)%Q /\ (qf <= 1024)%Q.
Hypothesis Fs : Fpos s qs.
Hypothesis Hqs : (1 + (1 # 1099511627776) <= qs)%Q /\ (qs <= 1048576)%Q.

(** [int(n / fps * k)] before the [int]: the product is the exact one up
    to two roundings. *)
Lemma conversion (n k : Z) :
  1 <= n <= 2 ^ 42 -> 1 <= k <= 2 ^ 42 ->
  (inject_Z n * inject_Z k <= 4294967296 * qf)%Q ->
  exists (f : PyFloat.float) (v : Q),
    rbind (int_div_float n fps) (fun q => float_mul_int q k) = Ok f /\
    Fpos f v /\
    (dn * dn * (inject_Z n * inject_Z k / qf) <= v)%Q /\
    (v <= up * up * (inject_Z n * inject_Z k / qf))%Q /\
    (inject_Z n * inject_Z k / qf <= 4294967296)%Q /\
    (1 # 1024 <= inject_Z n * inject_Z k / qf)%Q.
Proof.
  intros Hn Hk Hnk. destruct Hqf as [Hf1 Hf2].
  assert (Hq0 : (0 < qf)%Q) by lra.
  assert (Nlo : (1 <= inject_Z n)%Q) by (change 1%Q with (inject_Z 1); rewrite <- Zle_Qle; lia).
  assert (Nhi : (inject_Z n <= 4398046511104)%Q)
    by (change 4398046511104%Q with (inject_Z (2 ^ 42)); rewrite <- Zle_Qle; lia).
  assert (Klo : (1 <= inject_Z k)%Q) by (change 1%Q with (inject_Z 1); rewrite <- Zle_Qle; lia).
  assert (Khi : (inject_Z k <= 4398046511104)%Q)
    by (change 4398046511104%Q with (inject_Z (2 ^ 42)); rewrite <- Zle_Qle; lia).
  set (N := inject_Z n) in *. set (K := inject_Z k) in *.
  set (B := (N / qf)%Q).
  assert (HB : (B * qf == N)%Q) by (apply quot_mul; exact Hq0).
  assert (Blo : (1 # 1024 <= B)%Q) by (apply quot_ge; [exact Hq0 | lra]).
  assert (Bhi : (B <= 4503599627370496)%Q) by (apply quot_le; [exact Hq0 | lra]).
  destruct (int_div_float_pos n fps qf) as (f1 & v1 & E1 & F1 & R1);
    [lia | exact Ffps | | |].
  { fold N. fold B. lra. }
  { fold N. fold B. change (inject_Z (2 ^ 100)) with (1267650600228229401496703205376 # 1)%Q. lra. }
  fold N in R1. fold B in R1.
  destruct (Rnd_bounds _ _ R1) as [R1lo R1hi]. unfold dn, up in R1lo, R1hi.
  destruct (float_mul_int_pos f1 v1 k F1) as (f2 & v2 & E2 & F2 & R2);
    [lia | | |].
  { fold K. nra. }
  { fold K. change (inject_Z (2 ^ 100)) with (1267650600228229401496703205376 # 1)%Q. nra. }
  fold K in R2.
  destruct (Rnd_bounds _ _ R2) as [R2lo R2hi]. unfold dn, up in R2lo, R2hi.
  exists f2, v2. rewrite E1. cbn [rbind]. split; [exact E2|]. split; [exact F2|].
  assert (ET : (N * K / qf == B * K)%Q) by (unfold B; field; lra).
  rewrite ET. unfold dn, up.
  assert (TK : (B * K <= 4294967296)%Q).
  { rewrite <- ET. apply quot_le; [exact Hq0 | exact Hnk]. }
  repeat split; nra.
Qed.

Hypothesis Hsr : 1 <= samplerate <= 2 ^ 20.
Hypothesis Hc : 0 <= c0 c <= c1 c.
Hypothesis Hend :
  (inject_Z (c1 c) * inject_Z samplerate <= 4294967296 * qf)%Q.

Lemma end_frame_bound : c1 c <= 2 ^ 42.
Proof.
  destruct Hqf as [Hf1 Hf2].
  assert (Slo : (1 <= inject_Z samplerate)%Q)
    by (change 1%Q with (inject_Z 1); rewrite <- Zle_Qle; lia).
  assert (Clo : (0 <= inject_Z (c1 c))%Q)
    by (change 0%Q with (inject_Z 0); rewrite <- Zle_Qle; lia).
  assert (H : (inject_Z (c1 c) <= inject_Z (2 ^ 42))%Q).
  { change (inject_Z (2 ^ 42)) with 4398046511104%Q. nra. }
  now rewrite <- Zle_Qle in H.
Qed.

Lemma part_bound (n : Z) :
  0 <= n <= c1 c ->
  (inject_Z n * inject_Z samplerate <= 4294967296 * qf)%Q /\
  (inject_Z samplerate * inject_Z n <= 4294967296 * qf)%Q.
Proof.
  intros Hn.
  assert (Slo : (1 <= inject_Z samplerate)%Q)
    by (change 1%Q with (inject_Z 1); rewrite <- Zle_Qle; lia).
  assert (N0 : (0 <= inject_Z n)%Q)
    by (change 0%Q with (inject_Z 0); rewrite <- Zle_Qle; lia).
  assert (N1 : (inject_Z n <= inject_Z (c1 c))%Q) by (rewrite <- Zle_Qle; lia).
  split; nra.
Qed.

Lemma start_ok :
  exists a, audioSampleStart samplerate fps c = Ok a /\ 0 <= a <= 2 ^ 32.
Proof.
  unfold audioSampleStart.
  destruct (Z.eq_dec (c0 c) 0) as [E0|N0].
  - exists 0. rewrite E0, (int_div_float_zero _ _ Ffps). cbn [rbind].
    rewrite float_mul_int_zero_l by lia. split; [reflexivity | lia].
  - pose proof end_frame_bound as Hc1.
    destruct (part_bound (c0 c)) as [Hp _]; [lia|].
    destruct (conversion (c0 c) samplerate) as (f & v & E & F & Vlo & Vhi & Thi & Tlo);
      [lia | lia | exact Hp |].
    exists (Qfloor v).
    destruct (int_div_float (c0 c) fps) as [q|x]; [|discriminate].
    cbn [rbind] in E |- *. rewrite E. cbn [rbind].
    split; [now apply to_int_pos|].
    assert (Hb : 0 <= Qfloor v < 2 ^ 32 + 1).
    { apply floor_bounds.
      - pose proof (Fpos_pos _ _ F). change (inject_Z 0) with 0%Q. lra.
      - change (inject_Z (2 ^ 32 + 1)) with 4294967297%Q.
        unfold up in Vhi. lra. }
    lia.
Qed.

Abbreviation L := (c1 c - c0 c).
Abbreviation T := (inject_Z L * inject_Z samplerate / qf)%Q.

Lemma end_ok (a : Z) :
  0 <= a <= 2 ^ 32 ->
  (L = 0 -> audioSampleEnd samplerate fps c a = Ok a) /\
  (0 < L ->
   exists (y : Q) (e : Z),
     audioSampleEnd samplerate fps c a = Ok e /\
     representable y /\
     (dn * dn * T <= y)%Q /\ (y <= up * up * T)%Q /\
     a + Qfloor y <= e /\
     (inject_Z (e - a) <= y + (1 # 262144))%Q).
Proof.
  intros Ha. unfold audioSampleEnd.
  pose proof end_frame_bound as Hc1. destruct Hqf as [Hf1 Hf2].
  split.
  - intros HL. rewrite HL.
    destruct (int_div_float_pos samplerate fps qf) as (f1 & v1 & E1 & F1 & R1);
      [lia | exact Ffps | | |].
    { apply quot_ge; [lra|].
      assert (1 <= inject_Z samplerate)%Q
        by (change 1%Q with (inject_Z 1); rewrite <- Zle_Qle; lia).
      lra. }
    { apply quot_le; [lra|].
      assert (inject_Z samplerate <= inject_Z (2 ^ 20))%Q by (rewrite <- Zle_Qle; lia).
      change (inject_Z (2 ^ 20)) with 1048576%Q in *.
      change (inject_Z (2 ^ 100)) with (1267650600228229401496703205376 # 1)%Q. lra. }
    rewrite E1. cbn [rbind]. rewrite (float_mul_int_zero_r _ _ F1). cbn [rbind].
    destruct (int_add_float_zero a) as (f & E & Ei); [lia|].
    rewrite E. cbn [rbind]. exact Ei.
  - intros HL.
    destruct (part_bound L) as [_ Hp]; [lia|].
    destruct (conversion samplerate L) as (f & y & E & F & Ylo & Yhi & Thi & Tlo);
      [lia | lia | exact Hp |].
    assert (ET : (inject_Z samplerate * inject_Z L / qf == T)%Q) by (field; lra).
    rewrite ET in Ylo, Yhi, Thi.
    destruct (int_add_float_floor a f y) as (g & w & Eg & Ew & W1 & W2);
      [lia | exact F | |].
    { change (inject_Z (2 ^ 33)) with 8589934592%Q. unfold up in Yhi. lra. }
    exists y, w.
    destruct (int_div_float samplerate fps) as [q|x]; [|discriminate].
    cbn [rbind] in E |- *. rewrite E. cbn [rbind]. rewrite Eg. cbn [rbind].
    split; [exact Ew|]. split; [eapply Fpos_representable; eauto|].
    repeat split; assumption.
Qed.

Lemma advance_ok :
  (L = 0 -> newSamples samplerate fps c s = Ok 0) /\
  (0 < L ->
   exists (x v : Q),
     newSamples samplerate fps c s = Ok (Qfloor v) /\
     (dn * dn * T <= x)%Q /\ (x <= up * up * T)%Q /\
     (T <= 4294967296)%Q /\ (1 # 1024 <= T)%Q /\
     Rnd (x / qs) v).
Proof.
  unfold newSamples.
  pose proof end_frame_bound as Hc1. destruct Hqs as [Hs1 Hs2].
  split.
  - intros HL. rewrite HL, (int_div_float_zero _ _ Ffps). cbn [rbind].
    rewrite float_mul_int_zero_l by lia. cbn [rbind].
    rewrite (truediv_zero _ _ Fs). reflexivity.
  - intros HL.
    destruct (part_bound L) as [Hp _]; [lia|].
    destruct (conversion L samplerate) as (f & x & E & F & Xlo & Xhi & Thi & Tlo);
      [lia | lia | exact Hp |].
    destruct (truediv_pos f s x qs F Fs) as (g & v & Eg & Fg & Rg).
    { apply quot_ge; [lra|]. unfold dn in Xlo. lra. }
    { apply quot_le; [lra|]. unfold up in Xhi.
      change (inject_Z (2 ^ 100)) with (1267650600228229401496703205376 # 1)%Q. lra. }
    exists x, v.
    destruct (int_div_float L fps) as [q|e]; [|discriminate].
    cbn [rbind] in E |- *. rewrite E. cbn [rbind]. rewrite Eg. cbn [rbind].
    split; [now apply to_int_pos|].
    split; [exact Xlo|]. split; [exact Xhi|]. split; [exact Thi|].
    split; [exact Tlo | exact Rg].
Qed.

Lemma advance_bounds :
  exists a e n,
    audioSampleStart samplerate fps c = Ok a /\
    audioSampleEnd samplerate fps c a = Ok e /\
    newSamples samplerate fps c s = Ok n /\
    n <= e - a /\
    (inject_Z (e - a) / qs - (1001 # 1000) < inject_Z n)%Q /\
    (inject_Z n < inject_Z (e - a) / qs + (1001 # 1000))%Q.
Proof.
  destruct start_ok as (a & Ea & Ha).
  destruct (end_ok a Ha) as [End0 EndL].
  destruct advance_ok as [Adv0 AdvL].
  destruct Hqs as [Hs1 Hs2].
  assert (Hs0 : (0 < qs)%Q) by lra.
  destruct (Z.eq_dec L 0) as [HL|HL].
  - exists a, a, 0. rewrite (End0 HL), (Adv0 HL), Z.sub_diag.
    assert (Z0 : (inject_Z 0 / qs == 0)%Q).
    { change (inject_Z 0) with 0%Q. unfold Qdiv. apply Qmult_0_l. }
    split; [exact Ea|]. split; [reflexivity|]. split; [reflexivity|].
    split; [lia|]. rewrite Z0. change (inject_Z 0) with 0%Q. split; reflexivity.
  - assert (HL' : 0 < L) by lia.
    destruct (EndL HL') as (y & e & Ee & Ry & Ylo & Yhi & E1 & E2).
    destruct (AdvL HL') as (x & v & En & Xlo & Xhi & Thi & Tlo & Rv).
    exists a, e, (Qfloor v).
    split; [exact Ea|]. split; [exact Ee|]. split; [exact En|].
    set (C := inject_Z (e - a)) in *.
    set (X5 := (x / qs)%Q) in *.
    assert (HX5 : (X5 * qs == x)%Q) by (apply quot_mul; exact Hs0).
    destruct (Rnd_bounds _ _ Rv) as [Vlo Vhi].
    destruct Rv as (_ & _ & Rup & _).
    unfold dn, up in *.
    pose proof (Qfloor_le v) as Fv1. pose proof (Qlt_floor v) as Fv2.
    pose proof (Qfloor_le y) as Fy1. pose proof (Qlt_floor y) as Fy2.
    rewrite inject_Z_plus in Fv2, Fy2. change (inject_Z 1) with 1%Q in Fv2, Fy2.
    assert (Hy0 : (0 <= y)%Q) by nra.
    assert (HC1 : (inject_Z (Qfloor y) <= C)%Q).
    { unfold C. rewrite <- Zle_Qle. lia. }
    assert (HX50 : (0 <= X5)%Q).
    { unfold X5. apply quot_ge; [exact Hs0 | nra]. }
    split; [|split].
    + assert (Hxy : (X5 <= y)%Q).
      { unfold X5. apply quot_le; [exact Hs0 | nra]. }
      specialize (Rup y Ry Hxy).
      assert (Qfloor v <= Qfloor y) by now apply Qfloor_resp_le.
      lia.
    + apply Qlt_minus_iff.
      assert (G : (C / qs < inject_Z (Qfloor v) + (1001 # 1000))%Q).
      { apply Qlt_shift_div_r; [exact Hs0|]. nra. }
      lra.
    + assert (G : (inject_Z (Qfloor v) - (1001 # 1000) < C / qs)%Q).
      { apply Qlt_shift_div_l; [exact Hs0|]. nra. }
      lra.
Qed.

End Chunk.

(** C6, amended. In double precision, for frame rates between 1/1024 and
    1024, sample rates up to 2^20, speeds from [1 + 2^-40] to 2^20 and a
    chunk with [0 <= start <= end] that ends within the first 2^32
    samples of the source: the three conversions return, the cursor
    advance [int(((end - start) / fps * samplerate) / s)] is never
    greater than the chunk's source sample count
    [audioSampleEnd - audioSampleStart], and it is less than 1.001
    samples away from that count divided by [s]. *)
Theorem advance_within_tolerance
  (samplerate : Z) (fps s : PyFloat.float) (qf qs : Q) (c : chunk) :
  valid_binary 53 1024 fps = true -> PyFloat.value fps = Some qf ->
  (1 # 1024 <= qf)%Q /\ (qf <= 1024)%Q ->
  valid_binary 53 1024 s = true -> PyFloat.value s = Some qs ->
  (1 + (1 # 1099511627776) <= qs)%Q /\ (qs <= 1048576)%Q ->
  1 <= samplerate <= 2 ^ 20 ->
  0 <= c0 c <= c1 c ->
  (inject_Z (c1 c) * inject_Z samplerate <= 4294967296 * qf)%Q ->
  exists a e n,
    audioSampleStart samplerate fps c = Ok a /\
    audioSampleEnd samplerate fps c a = Ok e /\
    newSamples samplerate fps c s = Ok n /\
    n <= e - a /\
    (inject_Z (e - a) / qs - (1001 # 1000) < inject_Z n)%Q /\
    (inject_Z n < inject_Z (e - a) / qs + (1001 # 1000))%Q.
Proof.
  intros Vf Ef Hqf Vs Es Hqs Hsr Hc Hend.
  assert (Ff : Fpos fps qf).
  { apply valid_Fpos; [exact Vf | exact Ef |].
    apply Qle_trans with (bpow (-10)); [apply bpow_le; lia|].
    change (bpow (-10)) with (1 # 1024)%Q. tauto. }
  assert (Fs : Fpos s qs).
  { apply valid_Fpos; [exact Vs | exact Es |].
    apply Qle_trans with (bpow 0); [apply bpow_le; lia|].
    change (bpow 0) with 1%Q. destruct Hqs as [Hs1 _]. lra. }
  exact (advance_bounds samplerate fps s qf qs c Ff Hqf Fs Hqs Hsr Hc Hend).
Qed.

(** Frames 10 to 20 at 44100 Hz and 29.97 fps, one and a half times as
    fast. *)
Lemma advance_within_tolerance_witness :
  let fps : PyFloat.float := lit 2997 100 in
  let s : PyFloat.float := lit 3 2 in
  let qf := 8435805052018360 # 281474976710656 in
  let qs := 6755399441055744 # 4503599627370496 in
  let c := Chunk 10 20 1 in
  valid_binary 53 1024 fps = true /\ PyFloat.value fps = Some qf /\
  ((1 # 1024 <= qf)%Q /\ (qf <= 1024)%Q) /\
  valid_binary 53 1024 s = true /\ PyFloat.value s = Some qs /\
  ((1 + (1 # 1099511627776) <= qs)%Q /\ (qs <= 1048576)%Q) /\
  1 <= 44100 <= 2 ^ 20 /\
  0 <= c0 c <= c1 c /\
  (inject_Z (c1 c) * inject_Z 44100 <= 4294967296 * qf)%Q /\
  exists a e n,
    audioSampleStart 44100 fps c = Ok a /\
    audioSampleEnd 44100 fps c a = Ok e /\
    newSamples 44100 fps c s = Ok n /\
    n <= e - a /\
    (inject_Z (e - a) / qs - (1001 # 1000) < inject_Z n)%Q /\
    (inject_Z n < inject_Z (e - a) / qs + (1001 # 1000))%Q.
Proof.
  intros fps s qf qs c.
  assert (H1 : valid_binary 53 1024 fps = true) by (vm_compute; reflexivity).
  assert (H2 : PyFloat.value fps = Some qf) by (vm_compute; reflexivity).
  assert (H3 : (1 # 1024 <= qf)%Q /\ (qf <= 1024)%Q)
    by (split; vm_compute; discriminate).
  assert (H4 : valid_binary 53 1024 s = true) by (vm_compute; reflexivity).
  assert (H5 : PyFloat.value s = Some qs) by (vm_compute; reflexivity).
  assert (H6 : (1 + (1 # 1099511627776) <= qs)%Q /\ (qs <= 1048576)%Q)
    by (split; vm_compute; discriminate).
  assert (H7 : 1 <= 44100 <= 2 ^ 20) by lia.
  assert (H8 : 0 <= c0 c <= c1 c) by (simpl; lia).
  assert (H9 : (inject_Z (c1 c) * inject_Z 44100 <= 4294967296 * qf)%Q)
    by (vm_compute; discriminate).
  split; [exact H1|]. split; [exact H2|]. split; [exact H3|].
  split; [exact H4|]. split; [exact H5|]. split; [exact H6|].
  split; [exact H7|]. split; [exact H8|]. split; [exact H9|].
  pose proof (advance_within_tolerance 44100 fps s qf qs c) as Hthm.
  exact (Hthm H1 H2 H3 H4 H5 H6 H7 H8 H9).
Defined.

End FloatFacts.

(** ** Timeline.end *)

Module TimelineFacts.
Import Timeline.

Section End.
Context {F : Type} `{PyNum F}.

Lemma for_layers_finishes {A} (step : Z -> A -> result Z)
  (fin : A -> result (option Z)) :
  (forall e l,
     step e l = rbind (fin l) (fun f =>
                  Ok (match f with Some x => Z.max e x | None => e end))) ->
  forall layers e,
    for_layers step layers e
    = rbind (finishes fin layers) (fun fs => Ok (fold_left Z.max fs e)).
Proof.
  intros Hstep layers. induction layers as [|l rest IH]; intros e; simpl.
  - reflexivity.
  - rewrite Hstep. destruct (fin l) as [f|x]; simpl; [|reflexivity].
    rewrite IH. destruct (finishes fin rest) as [fs|x]; simpl; [|reflexivity].
    destruct f; reflexivity.
Qed.

Lemma v_step_finish (e : Z) (vclips : list Visual) :
  v_step e vclips
  = rbind (v_finish speed_finish vclips) (fun f =>
      Ok (match f with Some x => Z.max e x | None => e end)).
Proof.
  unfold v_step, v_finish.
  destruct (last_clip vclips) as [[start dur speed | start dur]|]; simpl;
    try reflexivity.
  destruct (speed_finish start dur speed); reflexivity.
Qed.

Lemma a_step_finish (e : Z) (aclips : list AudioObj) :
  a_step e aclips
  = rbind (a_finish speed_finish aclips) (fun f =>
      Ok (match f with Some x => Z.max e x | None => e end)).
Proof.
  unfold a_step, a_finish.
  destruct (last_clip aclips) as [c|]; simpl; try reflexivity.
  destruct (speed_finish _ _ _); reflexivity.
Qed.

Lemma fold_max (l : list Z) (e : Z) :
  fold_left Z.max l e = fold_right Z.max e l.
Proof.
  apply fold_symmetric; intros; lia.
Qed.


End End.


End TimelineFacts.

(** ** FCP7 timebase *)

Module Fcp7Facts.
Import Fcp7.

Lemma ntsc_fractions :
  Fraction 24000 1001 = 24000 # 1001 /\
  Fraction 30000 1001 = 30000 # 1001 /\
  Fraction 60000 1001 = 60000 # 1001 /\
  Fraction 999 1000 = 999 # 1000.
Proof. repeat split; reflexivity. Qed.

Lemma round_trip_integer (n : Z) : round_trip (inject_Z n) = Ok (inject_Z n).
Proof.
  unfold round_trip, set_tb_ntsc.
  destruct ntsc_fractions as (-> & -> & -> & ->).
  assert (H24 : Qeq_bool (inject_Z n) (24000 # 1001) = false).
  { apply not_true_is_false. intros E. apply Qeq_bool_iff in E.
    unfold Qeq in E. simpl in E. lia. }
  assert (H30 : Qeq_bool (inject_Z n) (30000 # 1001) = false).
  { apply not_true_is_false. intros E. apply Qeq_bool_iff in E.
    unfold Qeq in E. simpl in E. lia. }
  assert (H60 : Qeq_bool (inject_Z n) (60000 # 1001) = false).
  { apply not_true_is_false. intros E. apply Qeq_bool_iff in E.
    unfold Qeq in E. simpl in E. lia. }
  rewrite H24, H30, H60.
  assert (Hceil : ceil (inject_Z n) = n).
  { unfold ceil. simpl. rewrite Z.div_1_r. lia. }
  assert (Hint : int_of_fraction (inject_Z n) = n).
  { unfold int_of_fraction. simpl. apply Z.quot_1_r. }
  rewrite Hceil, Hint.
  destruct (negb ((n =? 24) || (n =? 30) || (n =? 60))%Z
            && Qeq_bool (Qred (inject_Z n * (999 # 1000))) (inject_Z n))
    eqn:Hcond.
  - apply andb_prop in Hcond. destruct Hcond as [_ E].
    apply Qeq_bool_iff in E. rewrite Qred_correct in E.
    assert (n = 0%Z).
    { unfold Qeq in E. simpl in E. lia. }
    subst n. reflexivity.
  - reflexivity.
Qed.

(** C10. For each of the NTSC timebases 24000/1001, 30000/1001 and
    60000/1001 and for every integer timebase, reading back with
    [read_tb_ntsc] the timebase and the flag that [set_tb_ntsc] wrote (the
    flag through [xml_bool], as the FCP7 reader does) gives the original
    timebase. *)
Theorem tb_ntsc_round_trip (tb : Q) :
  tb = Fraction 24000 1001 \/ tb = Fraction 30000 1001 \/
  tb = Fraction 60000 1001 \/ (exists n : Z, tb = inject_Z n) ->
  exists (timebase : Z) (flag : string) (ntsc : bool),
    set_tb_ntsc tb = (timebase, flag) /\
    xml_bool flag = Ok ntsc /\
    read_tb_ntsc timebase ntsc = tb.
Proof.
  assert (Hrt : forall q, round_trip q = Ok q ->
            exists (timebase : Z) (flag : string) (ntsc : bool),
              set_tb_ntsc q = (timebase, flag) /\
              xml_bool flag = Ok ntsc /\
              read_tb_ntsc timebase ntsc = q).
  { intros q. unfold round_trip.
    destruct (set_tb_ntsc q) as [timebase flag].
    destruct (xml_bool flag) as [ntsc|e] eqn:Hx; simpl; [|discriminate].
    intros [= E]. exists timebase, flag, ntsc.
    split; [reflexivity|]. split; [exact Hx | exact E]. }
  intros [-> | [-> | [-> | [n ->]]]]; apply Hrt.
  - reflexivity.
  - reflexivity.
  - reflexivity.
  - apply round_trip_integer.
Qed.

Lemma tb_ntsc_round_trip_witness :
  (Fraction 25 1 = Fraction 24000 1001 \/ Fraction 25 1 = Fraction 30000 1001 \/
   Fraction 25 1 = Fraction 60000 1001 \/
   (exists n : Z, Fraction 25 1 = inject_Z n)) /\
  exists (timebase : Z) (flag : string) (ntsc : bool),
    set_tb_ntsc (Fraction 25 1) = (timebase, flag) /\
    xml_bool flag = Ok ntsc /\
    read_tb_ntsc timebase ntsc = Fraction 25 1.
Proof.
  assert (H : Fraction 25 1 = Fraction 24000 1001 \/
              Fraction 25 1 = Fraction 30000 1001 \/
              Fraction 25 1 = Fraction 60000 1001 \/
              (exists n : Z, Fraction 25 1 = inject_Z n)).
  { right. right. right. exists 25%Z. reflexivity. }
  split; [exact H|].
  exact (tb_ntsc_round_trip (Fraction 25 1) H).
Defined.

End Fcp7Facts.

(** ** More on the FCP7 timebase *)

Module Fcp7MoreFacts.
Import Fcp7 Fcp7Facts.
Local Open Scope Q_scope.

Lemma ceil_Qceiling (q : Q) : ceil q = Qceiling q.
Proof. destruct q as [n d]. reflexivity. Qed.

Lemma Qceiling_unique (q : Q) (z : Z) :
  inject_Z (z - 1) < q -> q <= inject_Z z -> Qceiling q = z.
Proof.
  intros Hlo Hhi.
  pose proof (Qle_ceiling q) as H1. pose proof (Qceiling_lt q) as H2.
  assert (Hz1 : (z - 1 < Qceiling q)%Z).
  { rewrite Zlt_Qlt. eapply Qlt_le_trans; eauto. }
  assert (Hz2 : (Qceiling q - 1 < z)%Z).
  { rewrite Zlt_Qlt. eapply Qlt_le_trans; eauto. }
  lia.
Qed.

Lemma flag_reads (b : bool) :
  xml_bool (if b then "TRUE" else "FALSE")%string = Ok b.
Proof. destruct b; reflexivity. Qed.

(** What [set_tb_ntsc] makes of the integer [n], and of 999/1000 of it. *)
Lemma set_integer (n : Z) :
  n <> 0%Z -> set_tb_ntsc (inject_Z n) = (n, "FALSE"%string).
Proof.
  intros Hn. unfold set_tb_ntsc.
  destruct ntsc_fractions as (-> & -> & -> & ->).
  assert (H24 : Qeq_bool (inject_Z n) (24000 # 1001) = false).
  { apply not_true_is_false. intros E. apply Qeq_bool_iff in E.
    unfold Qeq in E. simpl in E. lia. }
  assert (H30 : Qeq_bool (inject_Z n) (30000 # 1001) = false).
  { apply not_true_is_false. intros E. apply Qeq_bool_iff in E.
    unfold Qeq in E. simpl in E. lia. }
  assert (H60 : Qeq_bool (inject_Z n) (60000 # 1001) = false).
  { apply not_true_is_false. intros E. apply Qeq_bool_iff in E.
    unfold Qeq in E. simpl in E. lia. }
  rewrite H24, H30, H60.
  assert (Hceil : ceil (inject_Z n) = n).
  { unfold ceil. simpl. rewrite Z.div_1_r. lia. }
  assert (Hint : int_of_fraction (inject_Z n) = n).
  { unfold int_of_fraction. simpl. apply Z.quot_1_r. }
  rewrite Hceil, Hint.
  assert (E : Qeq_bool (Qred (inject_Z n * (999 # 1000))) (inject_Z n) = false).
  { apply not_true_is_false. intros E. apply Qeq_bool_iff in E.
    rewrite Qred_correct in E. unfold Qeq in E. simpl in E. lia. }
  rewrite E, andb_false_r. reflexivity.
Qed.

Lemma set_pulled_down (n : Z) :
  (0 < n < 1000)%Z -> n <> 24%Z -> n <> 30%Z -> n <> 60%Z ->
  set_tb_ntsc (Qred (inject_Z n * (999 # 1000))) = (n, "TRUE"%string).
Proof.
  intros Hn N24 N30 N60. unfold set_tb_ntsc.
  destruct ntsc_fractions as (-> & -> & -> & ->).
  set (q := Qred (inject_Z n * (999 # 1000))).
  assert (Hq : q == inject_Z n * (999 # 1000)) by apply Qred_correct.
  assert (H24 : Qeq_bool q (24000 # 1001) = false).
  { apply not_true_is_false. intros E. apply Qeq_bool_iff in E.
    rewrite Hq in E. unfold Qeq in E. simpl in E. lia. }
  assert (H30 : Qeq_bool q (30000 # 1001) = false).
  { apply not_true_is_false. intros E. apply Qeq_bool_iff in E.
    rewrite Hq in E. unfold Qeq in E. simpl in E. lia. }
  assert (H60 : Qeq_bool q (60000 # 1001) = false).
  { apply not_true_is_false. intros E. apply Qeq_bool_iff in E.
    rewrite Hq in E. unfold Qeq in E. simpl in E. lia. }
  rewrite H24, H30, H60.
  assert (Hceil : ceil q = n).
  { rewrite ceil_Qceiling, Hq. apply Qceiling_unique.
    - unfold Qlt. simpl. lia.
    - unfold Qle. simpl. lia. }
  rewrite Hceil.
  assert (Hnot : negb ((n =? 24) || (n =? 30) || (n =? 60))%Z = true).
  { destruct (Z.eqb_spec n 24); [contradiction|].
    destruct (Z.eqb_spec n 30); [contradiction|].
    destruct (Z.eqb_spec n 60); [contradiction|]. reflexivity. }
  assert (E : Qeq_bool (Qred (inject_Z n * (999 # 1000))) q = true).
  { apply Qeq_bool_iff. reflexivity. }
  now rewrite Hnot, E.
Qed.

(** Reading a timebase tag between 1 and 999 with either flag and writing
    the outcome back gives the tag and the flag again; so every timebase
    the reader produces from such a tag, such as 25 * 999/1000, survives a
    round trip through the writer. *)
Theorem tb_ntsc_read_then_set (tb : Z) (ntsc : bool) :
  (0 < tb < 1000)%Z ->
  set_tb_ntsc (read_tb_ntsc tb ntsc)
    = (tb, (if ntsc then "TRUE" else "FALSE")%string) /\
  round_trip (read_tb_ntsc tb ntsc) = Ok (read_tb_ntsc tb ntsc).
Proof.
  intros Htb.
  assert (Hset : set_tb_ntsc (read_tb_ntsc tb ntsc)
                 = (tb, (if ntsc then "TRUE" else "FALSE")%string)).
  { destruct ntsc; unfold read_tb_ntsc.
    - destruct (Z.eqb_spec tb 24) as [->|N24]; [reflexivity|].
      destruct (Z.eqb_spec tb 30) as [->|N30]; [reflexivity|].
      destruct (Z.eqb_spec tb 60) as [->|N60]; [reflexivity|].
      destruct ntsc_fractions as (_ & _ & _ & ->).
      now apply set_pulled_down.
    - apply set_integer. lia. }
  split; [exact Hset|].
  unfold round_trip. rewrite Hset, flag_reads. reflexivity.
Qed.

Lemma tb_ntsc_read_then_set_witness :
  (0 < 25 < 1000)%Z /\
  set_tb_ntsc (read_tb_ntsc 25 true) = (25%Z, "TRUE"%string) /\
  round_trip (read_tb_ntsc 25 true) = Ok (read_tb_ntsc 25 true).
Proof.
  assert (H : (0 < 25 < 1000)%Z) by lia.
  split; [exact H|].
  exact (tb_ntsc_read_then_set 25 true H).
Defined.

(** Whatever the timebase, the flag [set_tb_ntsc] writes is one [xml_bool]
    reads, so reading back never raises.  Under the flag TRUE the reader
    returns the timebase that was written; under FALSE it returns the
    integer part of it, which is the timebase only if that was an
    integer. *)
Theorem tb_ntsc_round_trip_outcome (tb : Q) :
  exists (timebase : Z) (ntsc : bool),
    set_tb_ntsc tb = (timebase, (if ntsc then "TRUE" else "FALSE")%string) /\
    round_trip tb = Ok (read_tb_ntsc timebase ntsc) /\
    (ntsc = true -> read_tb_ntsc timebase ntsc == tb) /\
    (ntsc = false ->
     read_tb_ntsc timebase ntsc = inject_Z (int_of_fraction tb) /\
     (read_tb_ntsc timebase ntsc == tb <->
      tb == inject_Z (int_of_fraction tb))).
Proof.
  assert (Hrt : forall (k : Z) (b : bool),
            set_tb_ntsc tb = (k, (if b then "TRUE" else "FALSE")%string) ->
            round_trip tb = Ok (read_tb_ntsc k b)).
  { intros k b E. unfold round_trip. rewrite E, flag_reads. reflexivity. }
  unfold set_tb_ntsc in *.
  destruct (Qeq_bool tb (Fraction 24000 1001)) eqn:E24.
  { exists 24%Z, true. split; [reflexivity|]. split; [now apply Hrt|].
    split; [|discriminate]. intros _. apply Qeq_bool_iff in E24.
    symmetry. exact E24. }
  destruct (Qeq_bool tb (Fraction 30000 1001)) eqn:E30.
  { exists 30%Z, true. split; [reflexivity|]. split; [now apply Hrt|].
    split; [|discriminate]. intros _. apply Qeq_bool_iff in E30.
    symmetry. exact E30. }
  destruct (Qeq_bool tb (Fraction 60000 1001)) eqn:E60.
  { exists 60%Z, true. split; [reflexivity|]. split; [now apply Hrt|].
    split; [|discriminate]. intros _. apply Qeq_bool_iff in E60.
    symmetry. exact E60. }
  destruct (negb ((ceil tb =? 24) || (ceil tb =? 30) || (ceil tb =? 60))%Z
            && Qeq_bool (Qred (inject_Z (ceil tb) * Fraction 999 1000)) tb)
    eqn:Hcond.
  - exists (ceil tb), true. split; [reflexivity|]. split; [now apply Hrt|].
    split; [|discriminate]. intros _.
    apply andb_prop in Hcond. destruct Hcond as [Hnot E].
    apply Qeq_bool_iff in E.
    unfold read_tb_ntsc.
    destruct (ceil tb =? 24)%Z; [discriminate|].
    destruct (ceil tb =? 30)%Z; [discriminate|].
    destruct (ceil tb =? 60)%Z; [discriminate|].
    exact E.
  - exists (int_of_fraction tb), false.
    split; [reflexivity|]. split; [now apply Hrt|].
    split; [discriminate|]. intros _. split; [reflexivity|].
    simpl. split; intros E; symmetry; exact E.
Qed.

End Fcp7MoreFacts.

(** ** FCP7: file URIs *)

Module UriFacts.
Import PySeq PySeqFacts Uri.

Lemma str_eqb_eq (a b : str) : str_eqb a b = true <-> a = b.
Proof.
  revert b. induction a as [|x a IH]; intros [|y b]; simpl;
    try (split; [discriminate | discriminate]); try tauto.
  rewrite andb_true_iff, Ascii.eqb_eq, IH.
  split; [intros [-> ->]; reflexivity | intros [= -> ->]; auto].
Qed.

Lemma startswith_app (prefix rest : str) :
  startswith (prefix ++ rest) prefix = true.
Proof.
  unfold startswith. apply str_eqb_eq.
  rewrite firstn_app, Nat.sub_diag, firstn_all. simpl. apply app_nil_r.
Qed.

(** The buffer only grows at its end. *)
Lemma de_norm_loop_buf (s : str) (rest : str) :
  forall i buf, de_norm_loop s i rest buf = buf ++ de_norm_loop s i rest [].
Proof.
  induction rest as [|c rest IH]; intros i buf; simpl.
  - now rewrite app_nil_r.
  - rewrite IH, (IH _ [decoded s i c]). now rewrite <- app_assoc.
Qed.

Lemma de_norm_loop_cons (s : str) (i : Z) (c : ascii) (rest : str) :
  de_norm_loop s i (c :: rest) []
  = decoded s i c :: de_norm_loop s (i + 1) rest [].
Proof. simpl. now rewrite de_norm_loop_buf. Qed.

Lemma de_norm_loop_length (s : str) (rest : str) :
  forall i, List.length (de_norm_loop s i rest []) = List.length rest.
Proof.
  induction rest as [|c rest IH]; intros i; [reflexivity|].
  rewrite de_norm_loop_cons. simpl. now rewrite IH.
Qed.

Lemma de_norm_loop_nth (s : str) (rest : str) :
  forall i k,
    nth_error (de_norm_loop s i rest []) k
    = option_map (decoded s (i + Z.of_nat k)) (nth_error rest k).
Proof.
  induction rest as [|c rest IH]; intros i k.
  - destruct k; reflexivity.
  - rewrite de_norm_loop_cons. destruct k as [|k]; simpl.
    + now rewrite Z.add_0_r.
    + rewrite IH. destruct (nth_error rest k); simpl; [|reflexivity].
      do 2 f_equal. lia.
Qed.

Lemma de_norm_nth (s : str) (k : nat) :
  nth_error (de_norm s) k
  = option_map (decoded s (Z.of_nat k)) (nth_error s k).
Proof. unfold de_norm. now rewrite de_norm_loop_nth. Qed.

(** [de_norm] returns a string of the length of its argument: an
    escape is replaced at its percent sign and its two digits stay where
    they were. *)
Theorem de_norm_keeps_length (s : str) :
  List.length (de_norm s) = List.length s.
Proof.
  unfold de_norm. apply de_norm_loop_length.
Qed.

Lemma de_norm_other (s : str) (k : nat) (c : ascii) :
  nth_error s k = Some c -> c <> percent ->
  nth_error (de_norm s) k = Some c.
Proof.
  intros E Hc. rewrite de_norm_nth, E. simpl. unfold decoded.
  destruct (Ascii.eqb_spec c percent); [contradiction | reflexivity].
Qed.

Lemma de_norm_plain (s : str) : ~ In percent s -> de_norm s = s.
Proof.
  intros Hno. apply nth_error_ext. intros k.
  destruct (nth_error s k) as [c|] eqn:E.
  - apply de_norm_other; [assumption|]. intros ->. apply Hno.
    eapply nth_error_In; eauto.
  - rewrite de_norm_nth, E. reflexivity.
Qed.

(** [de_norm] alters no character other than a percent sign; a string
    without a percent sign comes back as it is. *)
Theorem de_norm_touches_percent_only (s : str) :
  (forall k c, nth_error s k = Some c -> c <> percent ->
               nth_error (de_norm s) k = Some c) /\
  (~ In percent s -> de_norm s = s).
Proof.
  split; [apply de_norm_other | apply de_norm_plain].
Qed.

(** A percent sign is decoded only when at least three characters follow
    it, and only when the two characters after it are a key of the table:
    with fewer than three characters after it, or with two that are not a
    key, it is written as it is. *)
Theorem de_norm_escape (s : str) (k : nat) :
  nth_error s k = Some percent ->
  (len s <= Z.of_nat k + 3 -> nth_error (de_norm s) k = Some percent) /\
  (Z.of_nat k + 3 < len s ->
   nth_error (de_norm s) k
   = Some (match lookup uri_escape
                   (slice s (Z.of_nat k + 1) (Z.of_nat k + 3)) with
           | Some c => c
           | None => percent
           end)).
Proof.
  intros E. rewrite de_norm_nth, E. simpl. unfold decoded.
  rewrite Ascii.eqb_refl. simpl. split; intros Hk.
  - destruct (Z.ltb_spec (Z.of_nat k + 3) (len s)); [lia | reflexivity].
  - destruct (Z.ltb_spec (Z.of_nat k + 3) (len s)); [reflexivity | lia].
Qed.

Lemma de_norm_escape_witness :
  let s := lit_str "a%3Cb%3C" in
  nth_error s 1 = Some percent /\
  (len s <= Z.of_nat 1 + 3 -> nth_error (de_norm s) 1 = Some percent) /\
  (Z.of_nat 1 + 3 < len s ->
   nth_error (de_norm s) 1
   = Some (match lookup uri_escape
                   (slice s (Z.of_nat 1 + 1) (Z.of_nat 1 + 3)) with
           | Some c => c
           | None => percent
           end)).
Proof.
  intros s.
  assert (H : nth_error s 1 = Some percent) by reflexivity.
  split; [exact H|].
  exact (de_norm_escape s 1 H).
Defined.

(** The three spellings of an absolute path that the source lists, the
    plain path, [file://] before it and [file://localhost] before it,
    name the same path: the two URIs give [de_norm] of the path, slash
    included, and the plain path is returned as it is, which is the same
    when it holds no percent sign. *)
Theorem uri_to_path_spellings (p : str) :
  let path := "/"%char :: p in
  uri_to_path (lit_str "file://localhost" ++ path) = de_norm path /\
  uri_to_path (lit_str "file://" ++ path) = de_norm path /\
  uri_to_path path = path /\
  (~ In percent p -> de_norm path = path).
Proof.
  intros path. split; [|split; [|split]].
  - unfold uri_to_path.
    change (lit_str "file://localhost" ++ path)
      with (lit_str "file://localhost/" ++ p).
    now rewrite startswith_app.
  - unfold uri_to_path.
    assert (H1 : startswith (lit_str "file://" ++ path)
                   (lit_str "file://localhost/") = false) by reflexivity.
    rewrite H1, startswith_app. reflexivity.
  - reflexivity.
  - intros Hno. apply de_norm_plain.
    intros [E | Hin]; [discriminate | contradiction].
Qed.

End UriFacts.

(** ** More on the engine *)

Module EngineFacts.
Import PySeq PySeqFacts FastAudio ChunkFacts RunFacts.

Lemma assign_slice_overflow {A} (dst src : list A) (y : Z) :
  0 <= y -> len dst < y + len src -> 2 <= len src ->
  assign_slice dst y (y + len src) src = Raise ValueError.
Proof.
  intros Hy Hover Hsrc. pose proof (len_nonneg dst) as Hd.
  unfold assign_slice.
  set (a := norm_index (len dst) y).
  set (b := norm_index (len dst) (y + len src)).
  assert (Ha : a = Z.min y (len dst)).
  { unfold a, norm_index. destruct (Z.ltb_spec y 0); lia. }
  assert (Hb : b = len dst).
  { unfold b, norm_index. destruct (Z.ltb_spec (y + len src) 0); lia. }
  destruct (Z.eqb_spec (len src) (Z.max 0 (b - a))) as [E|_]; [lia|].
  destruct src as [|x [|x' src]]; try reflexivity;
    unfold len in Hsrc; simpl in Hsrc; lia.
Qed.

Lemma slice_middle {A} (before blk after : list A) (y : Z) :
  len before = y ->
  slice (before ++ blk ++ after) y (y + len blk) = blk.
Proof.
  intros Hb. pose proof (len_nonneg before). pose proof (len_nonneg blk).
  pose proof (len_nonneg after).
  rewrite slice_inside by (rewrite ?len_app; lia).
  replace (y + len blk - y) with (len blk) by lia.
  rewrite <- Hb. unfold len at 2. rewrite Nat2Z.id.
  rewrite skipn_app, Nat.sub_diag, skipn_all. simpl.
  now apply firstn_app_len.
Qed.

Section Engine.
Context {F : Type} `{PyNum F}.
Variable getNewLength : list chunk -> list F -> F -> result F.
Variable phasevocoder : F -> Z -> list sample -> result (list sample).
Variable samplerate : Z.
Variable audioData : list sample.
Variable speeds : list F.
Variable fps : F.

Abbreviation step := (chunk_step phasevocoder samplerate audioData speeds fps).
Abbreviation run_loop := (loop phasevocoder samplerate audioData speeds fps).
Abbreviation run :=
  (fastAudio getNewLength phasevocoder samplerate audioData speeds fps).

Lemma loop_ticks (chunks : list chunk) :
  forall k st,
    (forall st', snd (run_loop k chunks st) = Ok st' ->
                 fst (run_loop k chunks st)
                 = map EvTick (seq k (List.length chunks))) /\
    (forall e, snd (run_loop k chunks st) = Raise e ->
       exists before c after stc,
         chunks = before ++ c :: after /\
         run_loop k before st
         = (map EvTick (seq k (List.length before)), Ok stc) /\
         step stc c = Raise e /\
         fst (run_loop k chunks st)
         = map EvTick (seq k (List.length before))).
Proof.
  induction chunks as [|c rest IH]; intros k st; simpl.
  - split; [reflexivity | discriminate].
  - unfold lift. destruct (step st c) as [st1|e0] eqn:Hstep; simpl.
    + destruct (IH (S k) st1) as [Hok Hraise].
      destruct (run_loop (S k) rest st1) as [t r] eqn:Hrest. simpl in *.
      split.
      * intros st' Hr. now rewrite (Hok st' Hr).
      * intros e Hr.
        destruct (Hraise e Hr) as (before & c' & after & stc & -> & Hb & Hc & Ht).
        exists (c :: before), c', after, stc.
        split; [reflexivity|]. split; [|split; [exact Hc|]].
        -- simpl. unfold lift. rewrite Hstep. simpl. rewrite Hb. reflexivity.
        -- simpl. now rewrite Ht.
    + split; [discriminate|].
      intros e [= <-]. exists [], c, rest, st.
      split; [reflexivity|]. split; [reflexivity|]. split; [exact Hstep|].
      reflexivity.
Qed.

(** The progress bar is ticked once for every chunk whose pass came to
    its end, with the chunk numbers 0, 1, 2, ... in order, dropped chunks
    included, and for no other: a loop that went through the whole
    schedule has ticked once per chunk and done nothing else, and a loop
    that raised has ticked the chunks before the one whose pass raised,
    each once and in order, and has not ticked that chunk. *)
Theorem progress_ticks_once_per_chunk (chunks : list chunk) (st : state) :
  (forall st', snd (run_loop 0 chunks st) = Ok st' ->
               fst (run_loop 0 chunks st)
               = map EvTick (seq 0 (List.length chunks))) /\
  (forall e, snd (run_loop 0 chunks st) = Raise e ->
     exists before c after stc,
       chunks = before ++ c :: after /\
       run_loop 0 before st
       = (map EvTick (seq 0 (List.length before)), Ok stc) /\
       step stc c = Raise e /\
       fst (run_loop 0 chunks st)
       = map EvTick (seq 0 (List.length before))).
Proof. apply loop_ticks. Qed.

(** The guard decides alone whether the source is read: a schedule of one
    chunk whose third entry is 0 ends the run with the fatal error before
    anything is read, allocated or written, whatever the frame range and
    the speed table are; every other schedule, the empty one included,
    has its source read. *)
Theorem guard_alone_stops_before_read (chunks : list chunk) :
  (guard_passes chunks = false ->
   run chunks
   = (preamble speeds, Raise (Fatal "Trying to create an empty file."))) /\
  (guard_passes chunks = true ->
   exists rest, fst (run chunks) = preamble speeds ++ EvRead :: rest).
Proof.
  split.
  - intros Hg. unfold fastAudio, preamble. rewrite (guard_stop _ Hg).
    destruct (speedsOtherThan1And99999 speeds); reflexivity.
  - apply run_reads.
Qed.

(** An empty schedule is not rejected: once the capacity is estimated and
    the diagnostics are computed, the run allocates the buffer and writes
    an output of zero samples. *)
Theorem empty_schedule_writes_nothing (cap : Z) :
  estLeng getNewLength samplerate speeds fps [] = Ok cap ->
  0 <= cap ->
  diagnostics samplerate fps 0 = Ok tt ->
  run []
  = (preamble speeds
     ++ [EvRead; EvAlloc cap; EvDebug "Total Samples";
         EvDebug "Samples per Frame"; EvDebug "Expected video length";
         EvWrite samplerate []],
     Ok tt).
Proof.
  intros Hest Hcap Hdiag.
  rewrite (run_through getNewLength phasevocoder samplerate audioData speeds
             fps [] cap (State (repeat silence (Z.to_nat cap)) 0)
             eq_refl Hest Hcap eq_refl Hdiag).
  simpl. unfold epilogue. simpl. now rewrite slice_to_0.
Qed.

Lemma dropped_loop (chunks : list chunk) :
  Forall (fun c => exists a e s,
            audioSampleStart samplerate fps c = Ok a /\
            audioSampleEnd samplerate fps c a = Ok e /\
            index speeds (c2 c) = Ok s /\ eqb s sentinel = true) chunks ->
  forall k st,
    run_loop k chunks st = (map EvTick (seq k (List.length chunks)), Ok st).
Proof.
  induction 1 as [|c rest (a & e & s & Ha & He & Hs & Hd) _ IH];
    intros k st; simpl; [reflexivity|].
  rewrite (step_dropped _ _ _ _ _ st c a e s Ha He Hs Hd). simpl.
  now rewrite IH.
Qed.

(** A schedule all of whose chunks are dropped, and which the guard lets
    through (two chunks or more, or one whose speed index is not 0), is
    processed without an error: every chunk is ticked and an output of
    zero samples is written. *)
Theorem dropped_schedule_writes_nothing (chunks : list chunk) (cap : Z) :
  guard_passes chunks = true ->
  estLeng getNewLength samplerate speeds fps chunks = Ok cap ->
  0 <= cap ->
  Forall (fun c => exists a e s,
            audioSampleStart samplerate fps c = Ok a /\
            audioSampleEnd samplerate fps c a = Ok e /\
            index speeds (c2 c) = Ok s /\ eqb s sentinel = true) chunks ->
  diagnostics samplerate fps 0 = Ok tt ->
  run chunks
  = (preamble speeds
     ++ [EvRead; EvAlloc cap] ++ map EvTick (seq 0 (List.length chunks))
     ++ [EvDebug "Total Samples"; EvDebug "Samples per Frame";
         EvDebug "Expected video length"; EvWrite samplerate []],
     Ok tt).
Proof.
  intros Hg Hest Hcap Hall Hdiag.
  pose proof (dropped_loop chunks Hall 0
                (State (repeat silence (Z.to_nat cap)) 0)) as Hloop.
  assert (Hrun := run_through getNewLength phasevocoder samplerate audioData
                    speeds fps chunks cap
                    (State (repeat silence (Z.to_nat cap)) 0) Hg Hest Hcap).
  rewrite Hloop in Hrun. specialize (Hrun eq_refl Hdiag).
  rewrite Hrun. unfold epilogue. simpl newAudio. simpl yPointer.
  now rewrite slice_to_0.
Qed.

(** What is handed to [write] is never longer than the buffer that was
    allocated: a cursor that has run past the estimated capacity yields
    the whole buffer, not more. *)
Theorem output_fits_capacity (chunks : list chunk) (rate : Z)
  (out : list sample) :
  written (fst (run chunks)) = Some (rate, out) ->
  exists cap,
    estLeng getNewLength samplerate speeds fps chunks = Ok cap /\
    0 <= len out <= cap.
Proof.
  intros Hw. apply run_written in Hw.
  destruct Hw as (cap & st & _ & Hest & Hcap & Hl & _ & _ & ->).
  exists cap. split; [assumption|].
  apply loop_Ok in Hl. destruct Hl as [Hlen _].
  simpl in Hlen. rewrite len_repeat in Hlen by assumption.
  rewrite len_slice_to_gen, Hlen.
  now apply norm_index_bounds.
Qed.

(** A unity chunk whose block of two frames or more does not fit between
    the cursor and the end of the buffer ends the run with a ValueError:
    the block is neither cut nor written past the buffer. *)
Theorem block_past_buffer_raises (st : state) (c : chunk) (a e : Z) (s : F) :
  audioSampleStart samplerate fps c = Ok a ->
  audioSampleEnd samplerate fps c a = Ok e ->
  index speeds (c2 c) = Ok s ->
  eqb s sentinel = false -> eqb s unity = true ->
  0 <= yPointer st ->
  2 <= len (slice audioData a e) ->
  len (newAudio st) < yPointer st + len (slice audioData a e) ->
  step st c = Raise ValueError.
Proof.
  intros Ha He Hs Hd Hu Hy Hblk Hover. unfold chunk_step.
  rewrite Ha; simpl. rewrite He; simpl. rewrite Hs; simpl.
  rewrite Hd, Hu; simpl.
  now rewrite assign_slice_overflow.
Qed.

(** A unity chunk whose block fits is copied verbatim: after the pass the
    frames of the buffer from the cursor on are the source samples of the
    chunk's range, the frames before and after them are what they were,
    and the cursor has moved by [newSamples], not by the number of frames
    copied. *)
Theorem unity_chunk_copies_block (st : state) (c : chunk) (a e n : Z)
  (s : F) :
  audioSampleStart samplerate fps c = Ok a ->
  audioSampleEnd samplerate fps c a = Ok e ->
  index speeds (c2 c) = Ok s ->
  eqb s sentinel = false -> eqb s unity = true ->
  newSamples samplerate fps c s = Ok n ->
  0 <= yPointer st ->
  yPointer st + len (slice audioData a e) <= len (newAudio st) ->
  exists buf,
    step st c = Ok (State buf (yPointer st + n)) /\
    len buf = len (newAudio st) /\
    slice buf (yPointer st) (yPointer st + len (slice audioData a e))
      = slice audioData a e /\
    firstn (Z.to_nat (yPointer st)) buf
      = firstn (Z.to_nat (yPointer st)) (newAudio st) /\
    skipn (Z.to_nat (yPointer st + len (slice audioData a e))) buf
      = skipn (Z.to_nat (yPointer st + len (slice audioData a e)))
          (newAudio st).
Proof.
  intros Ha He Hs Hd Hu Hn Hy Hfit.
  set (blk := slice audioData a e) in *.
  set (y := yPointer st) in *.
  pose proof (len_nonneg blk) as Hb.
  set (before := firstn (Z.to_nat y) (newAudio st)).
  set (after := skipn (Z.to_nat (y + len blk)) (newAudio st)).
  assert (Hw : assign_slice (newAudio st) y (y + len blk) blk
               = Ok (before ++ blk ++ after))
    by (apply assign_slice_fits; assumption).
  assert (Hlb : len before = y)
    by (unfold before; rewrite len_firstn; lia).
  exists (before ++ blk ++ after).
  split; [exact (step_unity phasevocoder samplerate audioData speeds fps
                   st c a e n s _ Ha He Hs Hd Hu Hw Hn)|].
  split; [now apply assign_slice_len in Hw|].
  split; [now apply slice_middle|].
  split.
  - now apply firstn_app_len.
  - rewrite app_assoc.
    assert (Hl2 : len (before ++ blk) = y + len blk)
      by (rewrite len_app; lia).
    rewrite <- Hl2 at 1. unfold len at 1. rewrite Nat2Z.id.
    rewrite skipn_app, Nat.sub_diag, skipn_all. reflexivity.
Qed.

End Engine.

Lemma empty_schedule_writes_nothing_witness :
  let fps : PyFloat.float := lit 25 1 in
  estLeng getNewLength_spec 8000 demo_speeds fps [] = Ok 16000 /\
  0 <= 16000 /\
  diagnostics 8000 fps 0 = Ok tt /\
  fastAudio getNewLength_spec prefix_processor 8000 (ramp 2000) demo_speeds
    fps []
  = (preamble demo_speeds
     ++ [EvRead; EvAlloc 16000; EvDebug "Total Samples";
         EvDebug "Samples per Frame"; EvDebug "Expected video length";
         EvWrite 8000 []],
     Ok tt).
Proof.
  intros fps.
  assert (H1 : estLeng getNewLength_spec 8000 demo_speeds fps [] = Ok 16000)
    by (vm_compute; reflexivity).
  assert (H2 : 0 <= 16000) by lia.
  assert (H3 : diagnostics 8000 fps 0 = Ok tt) by (vm_compute; reflexivity).
  split; [exact H1|]. split; [exact H2|]. split; [exact H3|].
  pose proof (empty_schedule_writes_nothing getNewLength_spec prefix_processor
                8000 (ramp 2000) demo_speeds fps 16000) as Hthm.
  exact (Hthm H1 H2 H3).
Defined.

Lemma dropped_schedule_writes_nothing_witness :
  let fps : PyFloat.float := lit 25 1 in
  let chunks := [Chunk 0 2 0; Chunk 2 4 0] in
  guard_passes chunks = true /\
  estLeng getNewLength_spec 8000 demo_speeds fps chunks = Ok 16000 /\
  0 <= 16000 /\
  Forall (fun c => exists a e s,
            audioSampleStart 8000 fps c = Ok a /\
            audioSampleEnd 8000 fps c a = Ok e /\
            index demo_speeds (c2 c) = Ok s /\ eqb s sentinel = true) chunks /\
  diagnostics 8000 fps 0 = Ok tt /\
  fastAudio getNewLength_spec prefix_processor 8000 (ramp 2000) demo_speeds
    fps chunks
  = (preamble demo_speeds
     ++ [EvRead; EvAlloc 16000] ++ map EvTick (seq 0 (List.length chunks))
     ++ [EvDebug "Total Samples"; EvDebug "Samples per Frame";
         EvDebug "Expected video length"; EvWrite 8000 []],
     Ok tt).
Proof.
  intros fps chunks.
  assert (H1 : guard_passes chunks = true) by reflexivity.
  assert (H2 : estLeng getNewLength_spec 8000 demo_speeds fps chunks
               = Ok 16000) by (vm_compute; reflexivity).
  assert (H3 : 0 <= 16000) by lia.
  assert (H4 : Forall (fun c => exists a e s,
                         audioSampleStart 8000 fps c = Ok a /\
                         audioSampleEnd 8000 fps c a = Ok e /\
                         index demo_speeds (c2 c) = Ok s /\
                         eqb s sentinel = true) chunks).
  { constructor.
    - exists 0, 640, (lit 99999 1). repeat split; vm_compute; reflexivity.
    - constructor; [|constructor].
      exists 640, 1280, (lit 99999 1). repeat split; vm_compute; reflexivity. }
  assert (H5 : diagnostics 8000 fps 0 = Ok tt) by (vm_compute; reflexivity).
  split; [exact H1|]. split; [exact H2|]. split; [exact H3|].
  split; [exact H4|]. split; [exact H5|].
  pose proof (dropped_schedule_writes_nothing getNewLength_spec
                prefix_processor 8000 (ramp 2000) demo_speeds fps chunks
                16000) as Hthm.
  exact (Hthm H1 H2 H3 H4 H5).
Defined.

Lemma output_fits_capacity_witness :
  let run :=
    fastAudio getNewLength_spec prefix_processor 8000 (ramp 2000) demo_speeds
      (lit 25 1) demo_chunks in
  let out :=
    match written (fst run) with
    | Some (_, data) => data
    | None => []
    end in
  written (fst run) = Some (8000, out) /\
  exists cap,
    estLeng getNewLength_spec 8000 demo_speeds (lit 25 1) demo_chunks
      = Ok cap /\
    0 <= len out <= cap.
Proof.
  intros run out.
  assert (H1 : written (fst run) = Some (8000, out))
    by (vm_compute; reflexivity).
  split; [exact H1|].
  pose proof (output_fits_capacity getNewLength_spec prefix_processor 8000
                (ramp 2000) demo_speeds (lit 25 1) demo_chunks 8000 out)
    as Hthm.
  exact (Hthm H1).
Defined.

Lemma block_past_buffer_raises_witness :
  let fps : PyFloat.float := lit 25 1 in
  let st := State (repeat silence 10) 5 in
  let c := Chunk 0 2 1 in
  audioSampleStart 8000 fps c = Ok 0 /\
  audioSampleEnd 8000 fps c 0 = Ok 640 /\
  index demo_speeds (c2 c) = Ok (lit 1 1) /\
  eqb (lit 1 1 : PyFloat.float) sentinel = false /\
  eqb (lit 1 1 : PyFloat.float) unity = true /\
  0 <= yPointer st /\
  2 <= len (slice (ramp 2000) 0 640) /\
  len (newAudio st) < yPointer st + len (slice (ramp 2000) 0 640) /\
  chunk_step prefix_processor 8000 (ramp 2000) demo_speeds fps st c
  = Raise ValueError.
Proof.
  intros fps st c.
  assert (H1 : audioSampleStart 8000 fps c = Ok 0) by (vm_compute; reflexivity).
  assert (H2 : audioSampleEnd 8000 fps c 0 = Ok 640)
    by (vm_compute; reflexivity).
  assert (H3 : index demo_speeds (c2 c) = Ok (lit 1 1)) by reflexivity.
  assert (H4 : eqb (lit 1 1 : PyFloat.float) sentinel = false) by reflexivity.
  assert (H5 : eqb (lit 1 1 : PyFloat.float) unity = true) by reflexivity.
  assert (H6 : 0 <= yPointer st) by (simpl; lia).
  assert (H7 : 2 <= len (slice (ramp 2000) 0 640))
    by (vm_compute; discriminate).
  assert (H8 : len (newAudio st) < yPointer st + len (slice (ramp 2000) 0 640))
    by (vm_compute; reflexivity).
  split; [exact H1|]. split; [exact H2|]. split; [exact H3|].
  split; [exact H4|]. split; [exact H5|]. split; [exact H6|].
  split; [exact H7|]. split; [exact H8|].
  pose proof (block_past_buffer_raises prefix_processor 8000 (ramp 2000)
                demo_speeds fps st c 0 640 (lit 1 1)) as Hthm.
  exact (Hthm H1 H2 H3 H4 H5 H6 H7 H8).
Defined.

Lemma unity_chunk_copies_block_witness :
  let fps : PyFloat.float := lit 25 1 in
  let st := State (repeat silence 1000) 100 in
  let c := Chunk 0 2 1 in
  let blk := slice (ramp 2000) 0 640 in
  audioSampleStart 8000 fps c = Ok 0 /\
  audioSampleEnd 8000 fps c 0 = Ok 640 /\
  index demo_speeds (c2 c) = Ok (lit 1 1) /\
  eqb (lit 1 1 : PyFloat.float) sentinel = false /\
  eqb (lit 1 1 : PyFloat.float) unity = true /\
  newSamples 8000 fps c (lit 1 1) = Ok 640 /\
  0 <= yPointer st /\
  yPointer st + len blk <= len (newAudio st) /\
  exists buf,
    chunk_step prefix_processor 8000 (ramp 2000) demo_speeds fps st c
    = Ok (State buf (yPointer st + 640)) /\
    len buf = len (newAudio st) /\
    slice buf (yPointer st) (yPointer st + len blk) = blk /\
    firstn (Z.to_nat (yPointer st)) buf
      = firstn (Z.to_nat (yPointer st)) (newAudio st) /\
    skipn (Z.to_nat (yPointer st + len blk)) buf
      = skipn (Z.to_nat (yPointer st + len blk)) (newAudio st).
Proof.
  intros fps st c blk.
  assert (H1 : audioSampleStart 8000 fps c = Ok 0) by (vm_compute; reflexivity).
  assert (H2 : audioSampleEnd 8000 fps c 0 = Ok 640)
    by (vm_compute; reflexivity).
  assert (H3 : index demo_speeds (c2 c) = Ok (lit 1 1)) by reflexivity.
  assert (H4 : eqb (lit 1 1 : PyFloat.float) sentinel = false) by reflexivity.
  assert (H5 : eqb (lit 1 1 : PyFloat.float) unity = true) by reflexivity.
  assert (H6 : newSamples 8000 fps c (lit 1 1) = Ok 640)
    by (vm_compute; reflexivity).
  assert (H7 : 0 <= yPointer st) by (simpl; lia).
  assert (H8 : yPointer st + len blk <= len (newAudio st))
    by (vm_compute; discriminate).
  split; [exact H1|]. split; [exact H2|]. split; [exact H3|].
  split; [exact H4|]. split; [exact H5|]. split; [exact H6|].
  split; [exact H7|]. split; [exact H8|].
  pose proof (unity_chunk_copies_block prefix_processor 8000 (ramp 2000)
                demo_speeds fps st c 0 640 640 (lit 1 1)) as Hthm.
  exact (Hthm H1 H2 H3 H4 H5 H6 H7 H8).
Defined.

End EngineFacts.

(** ** More on Timeline.end *)

Module TimelineMoreFacts.
Import Timeline TimelineFacts MakeTimeline.

Lemma fold_max_nonneg (l : list Z) : 0 <= fold_right Z.max 0 l.
Proof. induction l as [|x l IH]; simpl; lia. Qed.

Lemma fold_max_In (l : list Z) (x : Z) :
  In x l -> x <= fold_right Z.max 0 l.
Proof.
  induction l as [|y l IH]; simpl; [contradiction|].
  intros [-> | Hin]; [lia | specialize (IH Hin); lia].
Qed.

Lemma fold_max_app (l k : list Z) :
  fold_right Z.max 0 (l ++ k)
  = Z.max (fold_right Z.max 0 l) (fold_right Z.max 0 k).
Proof.
  induction l as [|x l IH]; simpl.
  - pose proof (fold_max_nonneg k). lia.
  - rewrite IH. lia.
Qed.

Section End.
Context {F : Type} `{PyNum F}.

Lemma end_max (tl : Timeline) : end_ tl = max_finish speed_finish tl.
Proof.
  unfold end_, max_finish.
  rewrite (for_layers_finishes v_step (v_finish speed_finish) v_step_finish).
  destruct (finishes (v_finish speed_finish) (v tl)) as [fv|x]; simpl;
    [|reflexivity].
  rewrite (for_layers_finishes a_step (a_finish speed_finish) a_step_finish).
  destruct (finishes (a_finish speed_finish) (a tl)) as [fa|x]; simpl;
    [|reflexivity].
  now rewrite <- fold_left_app, fold_max.
Qed.

Lemma finishes_app {A} (fin : A -> result (option Z)) (l k : list A) :
  finishes fin (l ++ k)
  = rbind (finishes fin l) (fun fl =>
      rbind (finishes fin k) (fun fk => Ok (fl ++ fk))).
Proof.
  induction l as [|x l IH]; simpl.
  - destruct (finishes fin k); reflexivity.
  - destruct (fin x) as [f|e]; simpl; [|reflexivity].
    rewrite IH. destruct (finishes fin l) as [fl|e]; simpl; [|reflexivity].
    destruct (finishes fin k) as [fk|e]; simpl; [|reflexivity].
    destruct f; reflexivity.
Qed.

Lemma finishes_In {A} (fin : A -> result (option Z)) (layers : list A)
  (fs : list Z) (l : A) (f : Z) :
  finishes fin layers = Ok fs -> In l layers -> fin l = Ok (Some f) ->
  In f fs.
Proof.
  revert fs. induction layers as [|x layers IH]; intros fs; simpl;
    [contradiction|].
  intros Hfs Hin Hf.
  inv_rbind Hfs. rename x0 into fx, E into Hx.
  inv_rbind Hfs. rename x0 into frest, E into Hrest.
  injection Hfs as <-.
  destruct Hin as [-> | Hin].
  - rewrite Hf in Hx. injection Hx as <-. now left.
  - specialize (IH frest Hrest Hin Hf).
    destruct fx; [right|]; assumption.
Qed.

Lemma speed_finish_pos (start dur : Z) (speed : F) (f : Z) :
  speed_finish start dur speed = Ok f -> 1 <= f.
Proof.
  unfold speed_finish. intros Hf.
  inv_rbind Hf. inv_rbind Hf. inv_rbind Hf. injection Hf as <-. lia.
Qed.

(** An object added to the timeline gets a layer of its own, and the end
    of the timeline becomes the maximum of the end it had and the finish
    position of the object, [start + dur] for a visual object without a
    speed and [max(1, round(start + dur / speed))] for an audio object;
    so adding objects never moves the end back. *)
Theorem added_object_extends_end (tl : Timeline) (e : Z) :
  end_ tl = Ok e ->
  (forall start dur,
     end_ (add_visual tl (OtherObj start dur)) = Ok (Z.max e (start + dur))) /\
  (forall aobj f,
     speed_finish (a_start aobj) (a_dur aobj) (a_speed aobj) = Ok f ->
     end_ (add_audio tl aobj) = Ok (Z.max e f)).
Proof.
  rewrite end_max. unfold max_finish. intros He.
  inv_rbind He. rename x into fv, E into Hv.
  inv_rbind He. rename x into fa, E into Ha.
  injection He as <-.
  split.
  - intros start dur. rewrite end_max. unfold max_finish, add_visual.
    simpl v. simpl a.
    rewrite finishes_app, Hv. simpl. rewrite Ha. simpl.
    f_equal. rewrite !fold_max_app. simpl.
    pose proof (fold_max_nonneg fv). pose proof (fold_max_nonneg fa). lia.
  - intros aobj f Hf. rewrite end_max. unfold max_finish, add_audio.
    simpl v. simpl a.
    rewrite Hv. simpl. rewrite finishes_app, Ha. simpl.
    unfold a_finish. simpl. rewrite Hf. simpl.
    f_equal. rewrite !fold_max_app. simpl.
    pose proof (fold_max_nonneg fv). pose proof (fold_max_nonneg fa). lia.
Qed.

(** The end of a timeline is never negative, and it is at least 1 as soon
    as some audio layer holds a clip or the last clip of some video layer
    is a video clip. *)
Theorem end_lower_bounds (tl : Timeline) (e : Z) :
  end_ tl = Ok e ->
  0 <= e /\
  ((exists aclips, In aclips (a tl) /\ aclips <> []) -> 1 <= e) /\
  ((exists vclips start dur speed,
      In vclips (v tl) /\
      last_clip vclips = Some (VideoObj start dur speed)) -> 1 <= e).
Proof.
  rewrite end_max. unfold max_finish. intros He.
  inv_rbind He. rename x into fv, E into Hv.
  inv_rbind He. rename x into fa, E into Ha.
  injection He as <-.
  split; [apply fold_max_nonneg|]. split.
  - intros (aclips & Hin & Hne).
    destruct (last_clip aclips) as [c|] eqn:Hlast.
    2:{ unfold last_clip in Hlast. destruct (rev aclips) eqn:Hr;
          [|discriminate].
        apply (f_equal (@rev _)) in Hr. rewrite rev_involutive in Hr.
        contradiction. }
    destruct (a_finish speed_finish aclips) as [[f|]|x] eqn:Hf.
    + assert (Hff : 1 <= f).
      { unfold a_finish in Hf. rewrite Hlast in Hf.
        inv_rbind Hf. injection Hf as <-.
        eapply speed_finish_pos; eauto. }
      pose proof (finishes_In _ _ _ _ _ Ha Hin Hf) as Hfa.
      pose proof (fold_max_In (fv ++ fa) f) as Hmax.
      rewrite in_app_iff in Hmax. specialize (Hmax (or_intror Hfa)). lia.
    + unfold a_finish in Hf. rewrite Hlast in Hf.
      destruct (speed_finish _ _ _); discriminate.
    + exfalso. clear - Ha Hin Hf.
      revert fa Ha. induction (a tl) as [|l ls IH]; [contradiction|].
      intros fa Ha. simpl in Ha. inv_rbind Ha. inv_rbind Ha.
      destruct Hin as [-> | Hin]; [congruence | eauto].
  - intros (vclips & start & dur & speed & Hin & Hlast).
    destruct (v_finish speed_finish vclips) as [[f|]|x] eqn:Hf.
    + assert (Hff : 1 <= f).
      { unfold v_finish in Hf. rewrite Hlast in Hf.
        inv_rbind Hf. injection Hf as <-.
        eapply speed_finish_pos; eauto. }
      pose proof (finishes_In _ _ _ _ _ Hv Hin Hf) as Hfv.
      pose proof (fold_max_In (fv ++ fa) f) as Hmax.
      rewrite in_app_iff in Hmax. specialize (Hmax (or_introl Hfv)). lia.
    + unfold v_finish in Hf. rewrite Hlast in Hf.
      destruct (speed_finish _ _ _); discriminate.
    + exfalso. clear - Hv Hin Hf.
      revert fv Hv. induction (v tl) as [|l ls IH]; [contradiction|].
      intros fv Hv. simpl in Hv. inv_rbind Hv. inv_rbind Hv.
      destruct Hin as [-> | Hin]; [congruence | eauto].
Qed.

End End.

Lemma added_object_extends_end_witness :
  end_ demo_timeline = Ok 7 /\
  (forall start dur,
     end_ (add_visual demo_timeline (OtherObj start dur))
     = Ok (Z.max 7 (start + dur))) /\
  (forall aobj f,
     speed_finish (a_start aobj) (a_dur aobj) (a_speed aobj) = Ok f ->
     end_ (add_audio demo_timeline aobj) = Ok (Z.max 7 f)).
Proof.
  assert (He : end_ demo_timeline = Ok 7) by (vm_compute; reflexivity).
  split; [exact He|].
  pose proof (added_object_extends_end demo_timeline 7) as Hthm.
  exact (Hthm He).
Defined.

Lemma end_lower_bounds_witness :
  end_ demo_timeline = Ok 7 /\
  0 <= 7 /\
  ((exists aclips, In aclips (a demo_timeline) /\ aclips <> []) -> 1 <= 7) /\
  ((exists vclips start dur speed,
      In vclips (v demo_timeline) /\
      last_clip vclips = Some (VideoObj start dur speed)) -> 1 <= 7).
Proof.
  assert (He : end_ demo_timeline = Ok 7) by (vm_compute; reflexivity).
  split; [exact He|].
  pose proof (end_lower_bounds demo_timeline 7) as Hthm.
  exact (Hthm He).
Defined.

End TimelineMoreFacts.

(** ** Timeline.out_len *)

Module OutLenFacts.
Import Timeline OutLen MakeTimeline.

Lemma value_sign (s : bool) (m : positive) (e : Z) (q : Q) :
  PyFloat.value (S754_finite s m e) = Some q ->
  if s then (Qnum q < 0)%Z else (0 < Qnum q)%Z.
Proof.
  unfold PyFloat.value. intros Hq.
  assert (Hp : (0 <= e -> 0 < Z.pos m * 2 ^ e)%Z).
  { intros He. pose proof (Z.pow_pos_nonneg 2 e). nia. }
  remember (Z.pos m * 2 ^ e)%Z as x eqn:Hx. clear Hx.
  assert (Hq' : q = match e with
                    | Zneg p => cond_Zopp s (Zpos m) # (2 ^ p)
                    | _ => inject_Z (cond_Zopp s x)
                    end) by congruence.
  subst q. clear Hq.
  destruct e as [|p|p]; destruct s; cbn [cond_Zopp inject_Z Qnum]; lia.
Qed.

Lemma py_max_nonneg (o d : number) :
  is_nonneg o = true -> is_nonneg (py_max o d) = true.
Proof.
  unfold py_max. intros Ho.
  destruct (gt d o) eqn:Hgt; [|exact Ho].
  destruct d as [y|f], o as [x|g]; simpl in Ho, Hgt |- *.
  - apply Z.leb_le in Ho. apply Z.ltb_lt in Hgt. apply Z.leb_le. lia.
  - apply Z.leb_le.
    destruct g as [s| s | |s m e]; try discriminate.
    + unfold Qltb in Hgt. simpl in Hgt. apply Z.ltb_lt in Hgt. lia.
    + destruct s; discriminate.
    + destruct s; [discriminate|].
      destruct (PyFloat.value (S754_finite false m e)) as [q|] eqn:Hq;
        [|discriminate].
      apply value_sign in Hq. unfold Qltb in Hgt. simpl in Hgt.
      apply Z.ltb_lt in Hgt. nia.
  - apply Z.leb_le in Ho.
    destruct f as [s| s | |s m e]; try discriminate; try reflexivity.
    + exact Hgt.
    + destruct (PyFloat.value (S754_finite s m e)) as [q|] eqn:Hq;
        [|discriminate].
      apply value_sign in Hq. unfold Qltb in Hgt. simpl in Hgt.
      apply Z.ltb_lt in Hgt. destruct s; [nia | reflexivity].
  - unfold SFltb in Hgt.
    destruct g as [s| s | |s m e]; try discriminate;
      destruct f as [s'| s' | |s' m' e']; try discriminate;
      try reflexivity;
      destruct s; try discriminate; destruct s'; try discriminate;
      reflexivity.
Qed.

Lemma over_layers_nonneg {A} (total : list A -> number -> result number)
  (layers : list (list A)) (o r : number) :
  is_nonneg o = true -> over_layers total layers o = Ok r ->
  is_nonneg r = true.
Proof.
  revert o. induction layers as [|l layers IH]; intros o Ho Hr; simpl in Hr.
  - injection Hr as <-. exact Ho.
  - inv_rbind Hr. eapply IH; [|exact Hr]. now apply py_max_nonneg.
Qed.

(** [out_len] starts from 0 and only ever takes the greater of its value
    and a layer's duration, so whatever it returns is a number that is
    zero or more: never negative and never a NaN, also when the durations
    or speeds of the clips are. *)
Theorem out_len_is_never_negative (tl : Timeline) (r : number) :
  out_len tl = Ok r -> is_nonneg r = true.
Proof.
  unfold out_len. intros Hr. inv_rbind Hr.
  eapply over_layers_nonneg; [|exact Hr].
  eapply over_layers_nonneg; [|exact E]. reflexivity.
Qed.

Lemma out_len_is_never_negative_witness :
  out_len demo_timeline = Ok (Float (lit 7 1)) /\
  is_nonneg (Float (lit 7 1)) = true.
Proof.
  assert (Hr : out_len demo_timeline = Ok (Float (lit 7 1)))
    by (vm_compute; reflexivity).
  split; [exact Hr|].
  pose proof (out_len_is_never_negative demo_timeline (Float (lit 7 1)))
    as Hthm.
  exact (Hthm Hr).
Defined.

End OutLenFacts.

(** ** make_timeline: labels and objects *)

Module SourceFacts.
Import PySeq PySeqFacts Uri UriFacts MakeTimeline.

Lemma split_cons_inv (sep : ascii) (s p : str) (ps : list str) :
  split sep s = p :: ps ->
  ~ In sep p /\
  ((ps = [] /\ s = p) \/
   (exists rest, s = p ++ sep :: rest /\ split sep rest = ps)).
Proof.
  revert p ps. induction s as [|c s IH]; intros p ps; simpl.
  - intros [= <- <-]. split; [intros [] | left; auto].
  - destruct (Ascii.eqb c sep) eqn:Hc.
    + apply Ascii.eqb_eq in Hc. subst c.
      intros [= <- <-]. split; [intros [] | right; exists s; auto].
    + apply Ascii.eqb_neq in Hc.
      destruct (split sep s) as [|part parts] eqn:Hs.
      * intros [= <- <-]. split; [|left; split; [reflexivity|]].
        -- intros [E | []]; congruence.
        -- destruct s; simpl in Hs; [discriminate|].
           destruct (Ascii.eqb a sep); [discriminate|].
           destruct (split sep s); discriminate.
      * intros [= <- <-].
        destruct (IH part parts eq_refl) as (Hno & Hcase).
        split; [intros [E | Hin]; [congruence | contradiction]|].
        destruct Hcase as [(-> & ->) | (rest & -> & Hrest)];
          [left; auto | right; exists rest; auto].
Qed.

Lemma split_two (sep : ascii) (s a b : str) :
  split sep s = [a; b] ->
  s = a ++ sep :: b /\ ~ In sep a /\ ~ In sep b.
Proof.
  intros Hs. apply split_cons_inv in Hs.
  destruct Hs as (Ha & [(Hnil & _) | (rest & -> & Hrest)]); [discriminate|].
  apply split_cons_inv in Hrest.
  destruct Hrest as (Hb & [(_ & ->) | (rest' & _ & Hnil)]); [auto|].
  destruct rest'; simpl in Hnil; [discriminate|].
  destruct (Ascii.eqb a0 sep); [discriminate|].
  destruct (split sep rest'); discriminate.
Qed.

Lemma split_length (sep : ascii) (s : str) :
  List.length (split sep s) = S (count_occ ascii_dec s sep).
Proof.
  induction s as [|c s IH]; simpl; [reflexivity|].
  destruct (ascii_dec c sep) as [-> | Hne].
  - rewrite Ascii.eqb_refl. simpl. now rewrite IH.
  - apply Ascii.eqb_neq in Hne. rewrite Hne.
    destruct (split sep s); simpl in *; [discriminate | exact IH].
Qed.

Lemma split_plain (sep : ascii) (s : str) :
  ~ In sep s -> split sep s = [s].
Proof.
  induction s as [|c s IH]; simpl; [reflexivity|].
  intros Hno.
  destruct (Ascii.eqb c sep) eqn:Hc.
  - apply Ascii.eqb_eq in Hc. tauto.
  - rewrite IH by tauto. reflexivity.
Qed.

Lemma contains_false (s : str) (c : ascii) :
  contains s c = false -> ~ In c s.
Proof.
  unfold contains. intros Hc Hin.
  assert (Ht : existsb (Ascii.eqb c) s = true).
  { apply existsb_exists. exists c. split; [exact Hin|].
    apply Ascii.eqb_refl. }
  congruence.
Qed.

Lemma first_illegal_None (chars label : str) :
  first_illegal chars label = None ->
  forall c, In c chars -> ~ In c label.
Proof.
  induction chars as [|x chars IH]; simpl; [intros _ c []|].
  destruct (contains label x) eqn:Hx; [discriminate|].
  intros Hnone c [<- | Hin]; [now apply contains_false | now apply IH].
Qed.

Lemma key_eqb_eq (a b : key) : key_eqb a b = true <-> a = b.
Proof.
  destruct a as [x|x], b as [y|y]; simpl;
    try (split; [discriminate | discriminate]).
  - rewrite Z.eqb_eq. split; [intros ->; reflexivity | intros [= ->]; auto].
  - rewrite str_eqb_eq.
    split; [intros ->; reflexivity | intros [= ->]; auto].
Qed.

Lemma dict_get_set_same {V} (d : list (key * V)) (k : key) (x : V) :
  dict_get (dict_set d k x) k = Some x.
Proof.
  induction d as [|[k' x'] d IH]; simpl.
  - now rewrite (proj2 (key_eqb_eq k k) eq_refl).
  - destruct (key_eqb k' k) eqn:Hk; simpl; rewrite Hk; [reflexivity | exact IH].
Qed.

Lemma dict_get_set_other {V} (d : list (key * V)) (k k' : key) (x : V) :
  k <> k' -> dict_get (dict_set d k x) k' = dict_get d k'.
Proof.
  intros Hne. induction d as [|[k0 x0] d IH]; simpl.
  - destruct (key_eqb k k') eqn:Hk; [|reflexivity].
    apply key_eqb_eq in Hk. contradiction.
  - destruct (key_eqb k0 k) eqn:Hk; simpl.
    + apply key_eqb_eq in Hk. subst k0.
      destruct (key_eqb k k') eqn:Hk'; [|reflexivity].
      apply key_eqb_eq in Hk'. contradiction.
    + rewrite IH. reflexivity.
Qed.

Lemma dict_set_keeps_bound {V} (d : list (key * V)) (k k' : key) (x : V) :
  dict_get d k' <> None -> dict_get (dict_set d k x) k' <> None.
Proof.
  intros Hb. destruct (key_eqb k k') eqn:Hk.
  - apply key_eqb_eq in Hk. subst k'. rewrite dict_get_set_same. discriminate.
  - rewrite dict_get_set_other; [exact Hb|].
    intros ->. rewrite (proj2 (key_eqb_eq k' k') eq_refl) in Hk. discriminate.
Qed.

Lemma add_sources_app (isfile : str -> bool) (l k : list str)
  (sources : list (key * str)) :
  add_sources isfile (l ++ k) sources
  = rbind (add_sources isfile l sources) (add_sources isfile k).
Proof.
  revert sources. induction l as [|raw l IH]; intros sources; simpl;
    [reflexivity|].
  destruct (check_source isfile raw) as [lp|e]; simpl; [apply IH|reflexivity].
Qed.

Lemma add_sources_keeps_bound (isfile : str -> bool) (raws : list str) :
  forall sources out k,
  add_sources isfile raws sources = Ok out ->
  dict_get sources k <> None -> dict_get out k <> None.
Proof.
  induction raws as [|raw raws IH]; intros sources out k; simpl.
  - intros [= <-]. auto.
  - intros Hout Hb. inv_rbind Hout.
    eapply IH; [exact Hout|]. now apply dict_set_keeps_bound.
Qed.

(** A [--source] argument that passes the checks is a label, one colon
    and a path: neither part holds a colon, the label is not empty, does
    not start with a digit or a dash, has at most 500 characters and none
    of the illegal ones, and the path is a file. *)
Theorem accepted_source_is_well_formed (isfile : str -> bool)
  (raw label path : str) :
  check_source isfile raw = Ok (label, path) ->
  raw = label ++ colon :: path /\
  ~ In colon label /\ ~ In colon path /\
  (exists first rest, label = first :: rest /\
     ~ In first (lit_str "0123456789") /\ first <> "-"%char) /\
  len label <= 500 /\
  (forall c, In c ill_chars -> ~ In c label) /\
  isfile path = true.
Proof.
  unfold check_source, fatal.
  destruct (split colon raw) as [|l [|p [|x xs]]] eqn:Hs; try discriminate.
  destruct (500 <? len l) eqn:Hlen; [discriminate|].
  destruct (first_illegal ill_chars l) eqn:Hill; [discriminate|].
  destruct l as [|first rest] eqn:Hl; [discriminate|].
  destruct (contains (lit_str "0123456789") first) eqn:Hdigit;
    [discriminate|].
  destruct (Ascii.eqb first "-") eqn:Hdash; [discriminate|].
  destruct (isfile p) eqn:Hfile; [|discriminate].
  intros [= <- <-].
  apply split_two in Hs. destruct Hs as (Hraw & Hnl & Hnp).
  split; [exact Hraw|]. split; [exact Hnl|]. split; [exact Hnp|].
  split; [|split; [|split]].
  - exists first, rest. split; [reflexivity|]. split.
    + now apply contains_false.
    + now apply Ascii.eqb_neq.
  - now apply Z.ltb_ge.
  - now apply first_illegal_None.
  - exact Hfile.
Qed.

Lemma accepted_source_is_well_formed_witness :
  let isfile := fun _ : str => true in
  let raw := lit_str "cam:take.mp4" in
  let label := lit_str "cam" in
  let path := lit_str "take.mp4" in
  check_source isfile raw = Ok (label, path) /\
  (raw = label ++ colon :: path /\
   ~ In colon label /\ ~ In colon path /\
   (exists first rest, label = first :: rest /\
      ~ In first (lit_str "0123456789") /\ first <> "-"%char) /\
   len label <= 500 /\
   (forall c, In c ill_chars -> ~ In c label) /\
   isfile path = true).
Proof.
  intros isfile raw label path.
  assert (Hc : check_source isfile raw = Ok (label, path))
    by (vm_compute; reflexivity).
  split; [exact Hc|].
  pose proof (accepted_source_is_well_formed isfile raw label path) as Hthm.
  exact (Hthm Hc).
Defined.

(** A [--source] argument that does not hold exactly one colon is
    refused with the message of the first check, whatever else it holds:
    a path with a colon of its own, like one with a drive letter, cannot
    be given. *)
Theorem source_needs_one_colon (isfile : str -> bool) (raw : str) :
  count_occ ascii_dec raw colon <> 1%nat ->
  check_source isfile raw = fatal (lit_str "--source must have one :").
Proof.
  intros Hcount. unfold check_source.
  pose proof (split_length colon raw) as Hlen.
  destruct (split colon raw) as [|l [|p [|x xs]]]; try reflexivity.
  simpl in Hlen. congruence.
Qed.

Lemma source_needs_one_colon_witness :
  let isfile := fun _ : str => true in
  let raw := lit_str "cam:C:\take.mp4" in
  count_occ ascii_dec raw colon <> 1%nat /\
  check_source isfile raw = fatal (lit_str "--source must have one :").
Proof.
  intros isfile raw.
  assert (Hc : count_occ ascii_dec raw colon <> 1%nat)
    by (vm_compute; discriminate).
  split; [exact Hc|].
  pose proof (source_needs_one_colon isfile raw) as Hthm.
  exact (Hthm Hc).
Defined.

(** A [--source] argument with nothing before its colon gets through the
    length and character checks and stops at [label[0]] with an
    [IndexError], not with one of the messages. *)
Theorem empty_label_raises_IndexError (isfile : str -> bool) (path : str) :
  ~ In colon path ->
  check_source isfile (colon :: path) = Raise IndexError.
Proof.
  intros Hno. unfold check_source.
  change (split colon (colon :: path)) with ([] :: split colon path).
  rewrite (split_plain colon path Hno). reflexivity.
Qed.

Lemma empty_label_raises_IndexError_witness :
  let isfile := fun _ : str => true in
  let path := lit_str "take.mp4" in
  ~ In colon path /\
  check_source isfile (colon :: path) = Raise IndexError.
Proof.
  intros isfile path.
  assert (Hno : ~ In colon path).
  { apply contains_false. vm_compute. reflexivity. }
  split; [exact Hno|].
  pose proof (empty_label_raises_IndexError isfile path) as Hthm.
  exact (Hthm Hno).
Defined.

(** When every [--source] argument is accepted, the entries of [sources]
    under the numbers of the input files are what they were, every
    argument has its label bound, and the label of the last argument is
    bound to its path. *)
Theorem add_sources_binds_labels (isfile : str -> bool) (raws : list str)
  (sources out : list (key * str)) :
  add_sources isfile raws sources = Ok out ->
  (forall n, dict_get out (KInt n) = dict_get sources (KInt n)) /\
  (forall raw, In raw raws ->
     exists label path, check_source isfile raw = Ok (label, path) /\
                        dict_get out (KStr label) <> None) /\
  (forall before raw label path,
     raws = before ++ [raw] ->
     check_source isfile raw = Ok (label, path) ->
     dict_get out (KStr label) = Some path).
Proof.
  intros Hout. split; [|split].
  - intros n. revert sources Hout.
    induction raws as [|raw raws IH]; intros sources Hout; simpl in Hout.
    + now injection Hout as <-.
    + inv_rbind Hout. rewrite (IH _ Hout).
      apply dict_get_set_other. discriminate.
  - revert sources Hout.
    induction raws as [|raw raws IH]; intros sources Hout raw' Hin;
      [contradiction|].
    simpl in Hout. inv_rbind Hout. destruct x as [label path].
    destruct Hin as [<- | Hin]; [|eapply IH; eauto].
    exists label, path. split; [exact E|].
    eapply add_sources_keeps_bound; [exact Hout|].
    simpl. rewrite dict_get_set_same. discriminate.
  - intros before raw label path -> Hc.
    rewrite add_sources_app in Hout. inv_rbind Hout.
    simpl in Hout. rewrite Hc in Hout. simpl in Hout.
    injection Hout as <-. apply dict_get_set_same.
Qed.

Lemma add_sources_binds_labels_witness :
  let isfile := fun _ : str => true in
  let raws := [lit_str "cam:a.mp4"; lit_str "mic:b.wav"; lit_str "cam:c.mp4"] in
  let sources := [(KInt 0, lit_str "in.mp4")] in
  let out := [(KInt 0, lit_str "in.mp4"); (KStr (lit_str "cam"), lit_str "c.mp4");
              (KStr (lit_str "mic"), lit_str "b.wav")] in
  add_sources isfile raws sources = Ok out /\
  ((forall n, dict_get out (KInt n) = dict_get sources (KInt n)) /\
   (forall raw, In raw raws ->
      exists label path, check_source isfile raw = Ok (label, path) /\
                         dict_get out (KStr label) <> None) /\
   (forall before raw label path,
      raws = before ++ [raw] ->
      check_source isfile raw = Ok (label, path) ->
      dict_get out (KStr label) = Some path)).
Proof.
  intros isfile raws sources out.
  assert (Ho : add_sources isfile raws sources = Ok out)
    by (vm_compute; reflexivity).
  split; [exact Ho|].
  pose proof (add_sources_binds_labels isfile raws sources out) as Hthm.
  exact (Hthm Ho).
Defined.

(** An [--add] argument is taken apart at its colons: with none it is the
    name of the object and the attributes are empty, with one it is the
    name and the attributes, and with two or more it is refused, so the
    text of an attribute cannot hold a colon; the test for an empty list
    never fires. *)
Theorem add_argument_syntax (obj_attrs_str : str) :
  (count_occ ascii_dec obj_attrs_str colon = 0%nat ->
     explode_add obj_attrs_str = Ok (obj_attrs_str, [])) /\
  (count_occ ascii_dec obj_attrs_str colon = 1%nat ->
     exists obj_s attrs,
       explode_add obj_attrs_str = Ok (obj_s, attrs) /\
       obj_attrs_str = obj_s ++ colon :: attrs /\
       ~ In colon obj_s /\ ~ In colon attrs) /\
  ((2 <= count_occ ascii_dec obj_attrs_str colon)%nat ->
     explode_add obj_attrs_str = fatal (lit_str "Invalid object syntax")) /\
  split colon obj_attrs_str <> [].
Proof.
  unfold explode_add.
  pose proof (split_length colon obj_attrs_str) as Hlen.
  repeat split.
  - intros Hc. rewrite split_plain; [reflexivity|].
    intros Hin. apply (count_occ_In ascii_dec) in Hin. lia.
  - intros Hc. rewrite Hc in Hlen.
    destruct (split colon obj_attrs_str) as [|o [|a0 [|x xs]]] eqn:Hs;
      try discriminate.
    exists o, a0. apply split_two in Hs. tauto.
  - intros Hc.
    destruct (split colon obj_attrs_str) as [|o [|a0 [|x xs]]] eqn:Hs;
      try reflexivity; simpl in Hlen; lia.
  - intros Hs. rewrite Hs in Hlen. discriminate.
Qed.

End SourceFacts.

(** ** FCP7: the speed filter *)

Module FilterFacts.
Import PySeq Uri Filters.

Section Speed.
Context {F : Type} `{PyNum F}.
Variable str_of_float : F -> str.
Variable float_of_str : str -> option F.

(** [read_filters] reads back the speed that [speedup] wrote, divided by
    100: of the three parameters of the effect it skips the first, whose
    id is not [speed], and returns from the value of the second.  The text
    of the value goes through [str] and [float], which give the float
    back. *)
Theorem speed_written_is_read (x : F) :
  float_of_str (str_of_float x) = Some x ->
  read_filters float_of_str (speedup str_of_float x) = float_div_int x 100.
Proof.
  intros Hrt. unfold read_filters, speedup. cbn.
  rewrite Hrt. destruct (float_div_int x 100); reflexivity.
Qed.

#[local] Arguments lit_str : simpl never.

Lemma expected_reported (msg : str) :
  In msg reported -> expected (Fatal (string_of_list_ascii msg)).
Proof. intros Hin. right. right. exists msg. auto. Qed.

Ltac by_report m :=
  simpl; intros [= <-]; apply (expected_reported m); simpl; tauto.

Lemma read_parameter_raises (parms : list Element) :
  forall j e, read_parameter float_of_str j parms = Raise e -> expected e.
Proof.
  induction parms as [|p parms IH]; intros j e; simpl; [discriminate|].
  destruct (j =? 0).
  - destruct (negb (str_eqb (tag p) (lit_str "parameterid"))).
    + by_report (lit_str "<parameter>: <parameterid> must be first tag").
    + simpl. destruct (is_not (text p) "speed"); [discriminate | apply IH].
  - destruct (str_eqb (tag p) (lit_str "value")); [|apply IH].
    destruct (text p) as [t|].
    + simpl. destruct (float_of_str t) as [x|].
      * destruct (float_div_int x 100) as [r|e'] eqn:Hd; simpl;
          [discriminate|].
        intros [= <-]. right. left. exists x. exact Hd.
      * intros [= <-]. left. reflexivity.
    + by_report (lit_str "<value>: number required").
Qed.

Lemma read_effect_raises (effects : list Element) :
  forall i e, read_effect float_of_str i effects = Raise e -> expected e.
Proof.
  induction effects as [|x effects IH]; intros i e; simpl; [discriminate|].
  destruct ((i =? 0) && negb (str_eqb (tag x) (lit_str "name"))).
  { by_report (lit_str "<effect>: <name> must be first tag"). }
  simpl.
  destruct ((i =? 1) && negb (str_eqb (tag x) (lit_str "effectid"))).
  { by_report (lit_str "<effect>: <effectid> must be second tag"). }
  simpl.
  destruct (1 <? i).
  - destruct (read_parameter float_of_str 0 (children x)) as [[r|]|e'] eqn:Hp;
      simpl; [discriminate | apply IH |].
    intros [= <-]. eapply read_parameter_raises; eauto.
  - simpl. apply IH.
Qed.

Lemma read_effects_raises (effect_tags : list Element) (e : exn) :
  read_effects float_of_str effect_tags = Raise e -> expected e.
Proof.
  induction effect_tags as [|x tags IH]; simpl; [discriminate|].
  destruct (len (children x) <? 3).
  { by_report (lit_str "effect tag requires: <effectid> <name> and one <parameter>"). }
  simpl.
  destruct (read_effect float_of_str 0 (children x)) as [[r|]|e'] eqn:Hp;
    simpl; [discriminate | apply IH |].
  intros [= <-]. eapply read_effect_raises; eauto.
Qed.

End Speed.

Lemma speed_written_is_read_witness :
  let x : PyFloat.float := lit 150 1 in
  demo_float (demo_str x) = Some x /\
  read_filters demo_float (speedup demo_str x) = float_div_int x 100.
Proof.
  intros x.
  assert (Hrt : demo_float (demo_str x) = Some x) by (vm_compute; reflexivity).
  split; [exact Hrt|].
  pose proof (speed_written_is_read demo_str demo_float x) as Hthm.
  exact (Hthm Hrt).
Defined.

Lemma float_div_100 (x : PyFloat.float) :
  float_div_int x 100 = Ok (fdiv x (PyFloat.of_Z 100)).
Proof. reflexivity. Qed.

(** In double precision a run of [read_filters] that does not return
    ends with the [ValueError] of [float] or with one of five messages;
    the message on an unsupported effect is not among them: its test
    stands behind the report of a missing [effectid], which ends the run,
    so an effect with any other id is read like [timeremap]. *)
Theorem read_filters_errors (float_of_str : str -> option PyFloat.float)
  (clipitem : Element) (e : exn) :
  read_filters float_of_str clipitem = Raise e ->
  (e = ValueError \/
   exists msg, In msg reported /\ e = Fatal (string_of_list_ascii msg)) /\
  forall text, e <> Fatal (string_of_list_ascii (unsupported_message text)).
Proof.
  intros Hr. apply read_effects_raises in Hr.
  destruct Hr as [-> | [(x & Hx) | (msg & Hin & ->)]].
  - split; [left; reflexivity | discriminate].
  - rewrite float_div_100 in Hx. discriminate.
  - split; [right; exists msg; auto|].
    intros text0. unfold unsupported_message.
    simpl in Hin.
    destruct Hin as [<- | [<- | [<- | [<- | [<- | []]]]]]; discriminate.
Qed.

Lemma read_filters_errors_witness :
  let clipitem :=
    Elem (lit_str "filter") [] None
      [Elem (lit_str "effect") [] None
         [sub "name" "Time Remap"; sub "effect" "blur"; sub "value" "1"]] in
  let e := Fatal "<effect>: <effectid> must be second tag" in
  read_filters demo_float clipitem = Raise e /\
  ((e = ValueError \/
    exists msg, In msg reported /\ e = Fatal (string_of_list_ascii msg)) /\
   forall text, e <> Fatal (string_of_list_ascii (unsupported_message text))).
Proof.
  intros clipitem e.
  assert (Hr : read_filters demo_float clipitem = Raise e)
    by (vm_compute; reflexivity).
  split; [exact Hr|].
  pose proof (read_filters_errors demo_float clipitem e) as Hthm.
  exact (Hthm Hr).
Defined.

End FilterFacts.

(** ** FCP7: the tracks of a sequence *)

Module ReadTracksFacts.
Import PySeq PySeqFacts ReadTracks.

Lemma append_at_last {A} (l : list (list A)) (layer : list A) (t : Z) (x : A) :
  len l = t -> append_at (l ++ [layer]) t x = Ok (l ++ [layer ++ [x]]).
Proof.
  unfold len. intros <-. unfold append_at. cbv zeta.
  assert (Hlt : (Z.of_nat (List.length l) <? 0) = false)
    by (apply Z.ltb_ge; lia).
  rewrite Hlt. cbv iota. rewrite Hlt.
  rewrite Nat2Z.id.
  rewrite nth_error_app2, Nat.sub_diag by lia. cbn [nth_error].
  rewrite firstn_app, Nat.sub_diag, firstn_all. cbn [firstn].
  rewrite app_nil_r.
  rewrite (skipn_all2 (n := S (List.length l)));
    [reflexivity | rewrite length_app; simpl; lia].
Qed.

Lemma append_at_out {A} (l : list (list A)) (t : Z) (x : A) :
  len l <= t -> append_at l t x = Raise IndexError.
Proof.
  unfold len. intros Ht. unfold append_at. cbv zeta.
  assert (Hlt : (t <? 0) = false) by (apply Z.ltb_ge; lia).
  rewrite Hlt. cbv iota. rewrite Hlt.
  destruct (nth_error l (Z.to_nat t)) eqn:Hn; [|reflexivity].
  assert (Hsome : nth_error l (Z.to_nat t) <> None) by congruence.
  apply nth_error_Some in Hsome. lia.
Qed.

Section Tracks.
Context {S C O : Type}.
Variable clip_step : S -> C -> result (S * O).

Lemma read_clips_last (t : Z) (clips : list C) :
  forall (s s' : S) (l out : list (list O)) (layer : list O),
  len l = t ->
  read_clips clip_step t clips (s, l ++ [layer]) = Ok (s', out) ->
  exists objs, out = l ++ [layer ++ objs] /\
               List.length objs = List.length clips.
Proof.
  induction clips as [|c clips IH]; intros s s' l out layer Hl; simpl.
  - intros [= <- <-]. exists []. now rewrite app_nil_r.
  - intros Hr. inv_rbind Hr. rename x into so.
    rewrite (append_at_last _ _ _ _ Hl) in Hr. simpl in Hr.
    destruct (IH _ _ _ _ _ Hl Hr) as (objs & -> & Hlen).
    exists (snd so :: objs). rewrite <- app_assoc. simpl. auto.
Qed.

Lemma read_clips_out (t : Z) (c : C) (cs : list C) (st : S * list (list O))
  (so : S * O) :
  len (snd st) <= t -> clip_step (fst st) c = Ok so ->
  read_clips clip_step t (c :: cs) st = Raise IndexError.
Proof.
  intros Ht Hc. simpl. rewrite Hc. simpl.
  now rewrite append_at_out.
Qed.

Lemma read_tracks_empty (tracks : list (list C)) :
  Forall (eq []) tracks ->
  forall t st, read_tracks clip_step t tracks st = Ok st.
Proof.
  induction 1 as [|track tracks <- _ IH]; intros t st; simpl; [reflexivity|].
  apply IH.
Qed.

Lemma read_tracks_stale (tracks : list (list C)) :
  forall t st r,
  len (snd st) < t ->
  read_tracks clip_step t tracks st = Ok r ->
  Forall (eq []) tracks /\ r = st.
Proof.
  induction tracks as [|track tracks IH]; intros t st r Ht; simpl.
  - intros [= <-]. auto.
  - destruct track as [|c cs].
    + simpl. intros Hr. destruct (IH (t + 1) st r) as (Hall & ->);
        [lia | exact Hr | auto].
    + change (0 <? len (c :: cs)) with (0 <? Z.pos (Pos.of_succ_nat (List.length cs))).
      cbv beta iota zeta. intros Hr. exfalso.
      apply rbind_Ok_inv in Hr. destruct Hr as (st2 & Hclips & _).
      simpl in Hclips. inv_rbind Hclips. inv_rbind Hclips.
      rewrite append_at_out in E0; [discriminate|].
      rewrite len_app. unfold len at 2. simpl. lia.
Qed.

Lemma read_tracks_shape (tracks : list (list C)) :
  forall t s s' vobjs out,
  len vobjs = t ->
  read_tracks clip_step t tracks (s, vobjs) = Ok (s', out) ->
  exists k new,
    out = vobjs ++ new /\
    map (@List.length O) new = map (@List.length C) (firstn k tracks) /\
    Forall (fun track => track <> []) (firstn k tracks) /\
    Forall (eq []) (skipn k tracks).
Proof.
  induction tracks as [|track tracks IH]; intros t s s' vobjs out Ht; simpl.
  - intros [= <- <-]. exists 0%nat, []. rewrite app_nil_r. auto.
  - destruct track as [|c cs].
    + simpl. intros Hr.
      apply read_tracks_stale in Hr; [|simpl; lia].
      destruct Hr as (Hall & [= <- <-]).
      exists 0%nat, []. rewrite app_nil_r. simpl. auto.
    + change (0 <? len (c :: cs)) with (0 <? Z.pos (Pos.of_succ_nat (List.length cs))).
      cbv beta iota zeta. intros Hr.
      apply rbind_Ok_inv in Hr. destruct Hr as ([s2 out2] & Hclips & Hrest).
      cbn [fst snd] in Hclips.
      apply (read_clips_last _ _ _ _ _ _ _ Ht) in Hclips.
      destruct Hclips as (objs & -> & Hlen).
      apply IH in Hrest; [|rewrite len_app; unfold len at 2; simpl; lia].
      destruct Hrest as (k & new & -> & Hmap & Hne & Hemp).
      exists (Datatypes.S k), (objs :: new). rewrite <- app_assoc. simpl.
      split; [reflexivity|]. split; [now rewrite Hmap, Hlen|].
      split; [constructor; [discriminate | exact Hne] | exact Hemp].
Qed.

Lemma read_tracks_full (tracks : list (list C)) :
  forall t s s' vobjs out,
  Forall (fun track => track <> []) tracks ->
  len vobjs = t ->
  read_tracks clip_step t tracks (s, vobjs) = Ok (s', out) ->
  len out = t + len tracks.
Proof.
  intros t s s' vobjs out Hne Ht Hr.
  destruct (read_tracks_shape _ _ _ _ _ _ Ht Hr)
    as (k & new & -> & Hmap & _ & Hemp).
  assert (Hk : (List.length tracks <= k)%nat).
  { destruct (Nat.le_gt_cases (List.length tracks) k) as [|Hlt]; [assumption|].
    exfalso. destruct (skipn k tracks) as [|x rest] eqn:Hs.
    - apply (f_equal (@List.length _)) in Hs. rewrite length_skipn in Hs.
      simpl in Hs. lia.
    - assert (Hin : In x tracks).
      { rewrite <- (firstn_skipn k tracks), Hs. apply in_or_app. right.
        now left. }
      rewrite Forall_forall in Hne. specialize (Hne x Hin).
      inversion Hemp; subst. congruence. }
  rewrite firstn_all2 in Hmap by exact Hk.
  apply (f_equal (@List.length _)) in Hmap. rewrite !length_map in Hmap.
  rewrite len_app. unfold len in *. lia.
Qed.

Lemma read_tracks_app (l k : list (list C)) :
  forall t st,
  read_tracks clip_step t (l ++ k) st
  = rbind (read_tracks clip_step t l st)
          (read_tracks clip_step (t + len l) k).
Proof.
  induction l as [|track l IH]; intros t st.
  - simpl. unfold len. simpl. now rewrite Z.add_0_r.
  - cbn [app read_tracks].
    destruct (read_clips clip_step t track
                (if 0 <? len track then (fst st, snd st ++ [[]]) else st))
      as [st2|e]; simpl; [|reflexivity].
    rewrite IH. replace (t + 1 + len l) with (t + len (track :: l));
      [reflexivity|]. unfold len. simpl. lia.
Qed.

(** The layers read from the tracks of a sequence are one per track, as
    long as the tracks are not empty, each with as many clips as its
    track; whenever the reading gets through, every track from the first
    empty one on is empty. *)
Theorem layers_follow_tracks (tracks : list (list C)) (s s' : S)
  (vobjs : list (list O)) :
  read_tracks clip_step 0 tracks (s, []) = Ok (s', vobjs) ->
  exists k,
    map (@List.length O) vobjs = map (@List.length C) (firstn k tracks) /\
    Forall (fun track => track <> []) (firstn k tracks) /\
    Forall (eq []) (skipn k tracks).
Proof.
  intros Hr.
  destruct (read_tracks_shape _ _ _ _ _ _ eq_refl Hr)
    as (k & new & -> & Hmap & Hne & Hemp).
  exists k. simpl. auto.
Qed.

(** A track with clips that comes after an empty track cannot be read:
    no layer is added for the empty track, the number of the track then
    runs ahead of the layers, and the first clip that is to be put on
    layer [t] ends the run with an [IndexError]. *)
Theorem clips_after_empty_track_raise (before between after : list (list C))
  (c : C) (cs : list C) (s : S) (st : S * list (list O)) (so : S * O) :
  Forall (fun track => track <> []) before ->
  Forall (eq []) between ->
  read_tracks clip_step 0 before (s, []) = Ok st ->
  clip_step (fst st) c = Ok so ->
  read_tracks clip_step 0 (before ++ [] :: between ++ (c :: cs) :: after)
    (s, [])
  = Raise IndexError.
Proof.
  intros Hne Hemp Hbefore Hc.
  rewrite read_tracks_app, Hbefore. destruct st as [s1 out1].
  pose proof (read_tracks_full _ _ _ _ _ _ Hne eq_refl Hbefore) as Hlen.
  cbn [rbind]. cbn [read_tracks]. simpl (0 <? len []).
  cbv beta iota zeta. cbn [read_clips rbind].
  rewrite read_tracks_app, (read_tracks_empty _ Hemp). cbn [rbind].
  cbn [read_tracks].
  change (0 <? len (c :: cs)) with (0 <? Z.pos (Pos.of_succ_nat (List.length cs))).
  cbv beta iota zeta.
  rewrite (read_clips_out _ _ _ _ so); [reflexivity | | exact Hc].
  unfold len in *. simpl in *. rewrite length_app. simpl. lia.
Qed.

End Tracks.

Lemma layers_follow_tracks_witness :
  let tracks := [[10; 11]; [12]; []] in
  read_tracks demo_step 0 tracks (0, []) = Ok (3, [[10; 11]; [12]]) /\
  exists k,
    map (@List.length Z) [[10; 11]; [12]]
    = map (@List.length Z) (firstn k tracks) /\
    Forall (fun track => track <> []) (firstn k tracks) /\
    Forall (eq []) (skipn k tracks).
Proof.
  intros tracks.
  assert (Hr : read_tracks demo_step 0 tracks (0, []) = Ok (3, [[10; 11]; [12]]))
    by (vm_compute; reflexivity).
  split; [exact Hr|].
  pose proof (layers_follow_tracks demo_step tracks 0 3 [[10; 11]; [12]])
    as Hthm.
  exact (Hthm Hr).
Defined.

Lemma clips_after_empty_track_raise_witness :
  let before := [[10; 11]] in
  let between : list (list Z) := [] in
  let after : list (list Z) := [] in
  Forall (fun track : list Z => track <> []) before /\
  Forall (eq []) between /\
  read_tracks demo_step 0 before (0, []) = Ok (2, [[10; 11]]) /\
  demo_step 2 12 = Ok (3, 12) /\
  read_tracks demo_step 0 (before ++ [] :: between ++ (12 :: []) :: after)
    (0, [])
  = Raise IndexError.
Proof.
  intros before between after.
  assert (H1 : Forall (fun track : list Z => track <> []) before)
    by (repeat constructor; discriminate).
  assert (H2 : Forall (eq []) between) by constructor.
  assert (H3 : read_tracks demo_step 0 before (0, []) = Ok (2, [[10; 11]]))
    by (vm_compute; reflexivity).
  assert (H4 : demo_step 2 12 = Ok (3, 12)) by reflexivity.
  split; [exact H1|]. split; [exact H2|]. split; [exact H3|].
  split; [exact H4|].
  pose proof (clips_after_empty_track_raise demo_step before between after
                12 [] 0 (2, [[10; 11]]) (3, 12)) as Hthm.
  exact (Hthm H1 H2 H3 H4).
Defined.

End ReadTracksFacts.

(** ** FCP7: the ids of the files *)

Module FileIdFacts.
Import PySeq PySeqFacts Uri MakeTimeline SourceFacts FileIds.

Lemma fkey_eqb_eq (a b : fkey) : fkey_eqb a b = true <-> a = b.
Proof.
  destruct a as [k i], b as [k' i']. unfold fkey_eqb. simpl.
  rewrite andb_true_iff, key_eqb_eq, Z.eqb_eq.
  split; [intros [-> ->]; reflexivity | intros [= -> ->]; auto].
Qed.

Lemma set_fresh (d : list (fkey * Z)) (a : fkey) (x : Z) :
  ~ In a (map fst d) -> set d a x = d ++ [(a, x)].
Proof.
  induction d as [|[k y] d IH]; simpl; [reflexivity|].
  intros Hno. destruct (fkey_eqb k a) eqn:Hk.
  - apply fkey_eqb_eq in Hk. tauto.
  - rewrite IH by tauto. reflexivity.
Qed.

Lemma combine_snoc {A B} (l : list A) (k : list B) (a : A) (b : B) :
  List.length l = List.length k ->
  combine (l ++ [a]) (k ++ [b]) = combine l k ++ [(a, b)].
Proof.
  revert k. induction l as [|x l IH]; intros [|y k]; simpl;
    try discriminate; [reflexivity|].
  intros [= Hlen]. now rewrite IH.
Qed.

Lemma numbered_snoc (ks : list fkey) (a : fkey) :
  numbered (ks ++ [a]) = numbered ks ++ [(a, len ks + 1)].
Proof.
  unfold numbered. rewrite length_app. simpl.
  rewrite Nat.add_1_r, seq_S, map_app. simpl.
  rewrite combine_snoc by now rewrite length_map, length_seq.
  unfold len. do 3 f_equal. lia.
Qed.

Lemma numbered_keys (ks : list fkey) : map fst (numbered ks) = ks.
Proof.
  unfold numbered.
  assert (Hgen : forall (l : list fkey) (vs : list Z),
             List.length l = List.length vs -> map fst (combine l vs) = l).
  { induction l as [|x l IH]; intros [|v vs]; simpl; try discriminate;
      [reflexivity|].
    intros [= Hlen]. now rewrite IH. }
  apply Hgen. now rewrite length_map, length_seq.
Qed.

Lemma len_numbered (ks : list fkey) : len (numbered ks) = len ks.
Proof.
  unfold len. rewrite <- (numbered_keys ks) at 2. now rewrite length_map.
Qed.

Lemma new_id_numbered (ks : list fkey) (a : fkey) :
  ~ In a ks -> new_id (numbered ks) a = numbered (ks ++ [a]).
Proof.
  intros Hno. unfold new_id.
  rewrite set_fresh by now rewrite numbered_keys.
  now rewrite len_numbered, numbered_snoc.
Qed.

Lemma new_ids_numbered (key : key) (streams : list Z) :
  forall ks,
  NoDup (ks ++ map (pair key) streams) ->
  fold_left (fun d i => new_id d (key, i)) streams (numbered ks)
  = numbered (ks ++ map (pair key) streams).
Proof.
  induction streams as [|i streams IH]; intros ks Hnd; simpl.
  - now rewrite app_nil_r.
  - simpl in Hnd. rewrite new_id_numbered.
    + rewrite IH; rewrite <- app_assoc; [reflexivity | exact Hnd].
    + apply NoDup_remove_2 in Hnd. intros Hin. apply Hnd.
      apply in_or_app. now left.
Qed.

Lemma range1_small (n : Z) : n <= 1 -> range1 n = [].
Proof.
  intros Hn. unfold range1.
  replace (Z.to_nat n - 1)%nat with 0%nat by lia. reflexivity.
Qed.

Lemma add_source_numbered (ks : list fkey) (source : key * Z) :
  NoDup (ks ++ stream_keys source) ->
  add_source (numbered ks) source = numbered (ks ++ stream_keys source).
Proof.
  destruct source as [key audios]. unfold add_source, stream_keys.
  cbn [fst snd]. intros Hnd.
  assert (Hfresh : ~ In (key, 0) ks).
  { apply NoDup_remove_2 in Hnd. intros Hin. apply Hnd.
    apply in_or_app. now left. }
  rewrite (new_id_numbered _ _ Hfresh).
  replace (ks ++ (key, 0) :: map (pair key) (range1 audios))
    with ((ks ++ [(key, 0)]) ++ map (pair key) (range1 audios)) in *
    by now rewrite <- app_assoc.
  destruct (Z.ltb_spec 1 audios) as [Hmany|Hfew].
  - now apply new_ids_numbered.
  - rewrite (range1_small _ Hfew). simpl. now rewrite app_nil_r.
Qed.

Lemma key_to_id_numbered (sources : list (key * Z)) :
  forall ks,
  NoDup (ks ++ flat_map stream_keys sources) ->
  fold_left add_source sources (numbered ks)
  = numbered (ks ++ flat_map stream_keys sources).
Proof.
  induction sources as [|source sources IH]; intros ks Hnd;
    cbn [fold_left flat_map] in *.
  - now rewrite app_nil_r.
  - rewrite app_assoc in Hnd.
    rewrite add_source_numbered.
    + rewrite IH; [now rewrite <- app_assoc | exact Hnd].
    + now apply NoDup_app_remove_r in Hnd.
Qed.

Lemma stream_keys_fst (source : key * Z) (a : fkey) :
  In a (stream_keys source) -> fst a = fst source.
Proof.
  unfold stream_keys. intros [<- | Hin]; [reflexivity|].
  apply in_map_iff in Hin. destruct Hin as (i & <- & _). reflexivity.
Qed.

Lemma stream_keys_NoDup (source : key * Z) : NoDup (stream_keys source).
Proof.
  unfold stream_keys. constructor.
  - intros Hin. apply in_map_iff in Hin. destruct Hin as (i & [= Hi] & Hin).
    unfold range1 in Hin. apply in_map_iff in Hin.
    destruct Hin as (n & Hn & Hseq). apply in_seq in Hseq. lia.
  - apply NoDup_map_NoDup_ForallPairs.
    + intros x y _ _ [= Hxy]. exact Hxy.
    + unfold range1. apply NoDup_map_NoDup_ForallPairs.
      * intros x y _ _ Hxy. now apply Nat2Z.inj.
      * apply seq_NoDup.
Qed.

Lemma all_keys_NoDup (sources : list (key * Z)) :
  NoDup (map fst sources) -> NoDup (flat_map stream_keys sources).
Proof.
  induction sources as [|source sources IH]; cbn [map flat_map];
    [constructor|].
  intros Hnd. inversion Hnd as [|k ks Hfresh Hrest]; subst.
  apply NoDup_app; [apply stream_keys_NoDup | now apply IH |].
  intros a Ha Hin. apply stream_keys_fst in Ha.
  apply in_flat_map in Hin. destruct Hin as (other & Hother & Hin).
  apply stream_keys_fst in Hin. apply Hfresh.
  rewrite <- Ha, Hin. now apply in_map.
Qed.

Lemma get_In (d : list (fkey * Z)) (a : fkey) (x : Z) :
  get d a = Some x -> In (a, x) d.
Proof.
  induction d as [|[k y] d IH]; simpl; [discriminate|].
  destruct (fkey_eqb k a) eqn:Hk.
  - apply fkey_eqb_eq in Hk. subst k. intros [= ->]. now left.
  - intros Hg. right. now apply IH.
Qed.

Lemma combine_value_once {A B} (l : list A) (k : list B) (a a' : A) (b : B) :
  NoDup k -> In (a, b) (combine l k) -> In (a', b) (combine l k) -> a = a'.
Proof.
  revert k. induction l as [|x l IH]; intros [|y k]; simpl; try contradiction.
  intros Hnd. inversion Hnd as [|? ? Hfresh Hrest]; subst.
  intros [Ea | Hin] [Ea' | Hin'].
  - congruence.
  - injection Ea as -> ->. exfalso. apply Hfresh.
    eapply in_combine_r; eauto.
  - injection Ea' as -> ->. exfalso. apply Hfresh.
    eapply in_combine_r; eauto.
  - eapply IH; eauto.
Qed.

(** The ids of the files are [file-1], [file-2], ... in the order of the
    sources, for each source first its stream 0 and then the audio
    streams from 1 on; no two streams share an id. *)
Theorem file_ids_are_numbered (sources : list (key * Z)) :
  NoDup (map fst sources) ->
  key_to_id sources = numbered (flat_map stream_keys sources) /\
  (forall a b x,
     get (key_to_id sources) a = Some x ->
     get (key_to_id sources) b = Some x -> a = b).
Proof.
  intros Hnd.
  assert (Hk : key_to_id sources = numbered (flat_map stream_keys sources)).
  { unfold key_to_id. change [] with (numbered []).
    rewrite key_to_id_numbered; [reflexivity|].
    now apply all_keys_NoDup. }
  split; [exact Hk|].
  rewrite Hk. intros a b x Ha Hb.
  apply get_In in Ha. apply get_In in Hb. unfold numbered in Ha, Hb.
  eapply combine_value_once; [|exact Ha|exact Hb].
  apply NoDup_map_NoDup_ForallPairs; [|apply seq_NoDup].
  intros n m _ _ Hnm. now apply Nat2Z.inj.
Qed.

Lemma file_ids_are_numbered_witness :
  let sources := [(KInt 0, 3); (KStr (lit_str "mic"), 1)] in
  NoDup (map fst sources) /\
  key_to_id sources = numbered (flat_map stream_keys sources) /\
  (forall a b x,
     get (key_to_id sources) a = Some x ->
     get (key_to_id sources) b = Some x -> a = b).
Proof.
  intros sources.
  assert (Hnd : NoDup (map fst sources)).
  { repeat constructor; simpl; intros Hin;
      repeat destruct Hin as [Hin | Hin]; try discriminate; assumption. }
  split; [exact Hnd|].
  pose proof (file_ids_are_numbered sources) as Hthm.
  exact (Hthm Hnd).
Defined.

End FileIdFacts.
